(** * Verification of the image-converter conversion engine

    A shallow embedding of the Python sources under [backend/app]:
    - [conversion/resize.py]   (module [Resize])
    - [config.py]              (module [Config])
    - [conversion/models.py]   (module [Models])
    - [batch.py]               (module [Batch])
    - [conversion/service.py]  (module [Service])
    - [api/routes.py]          (module [Routes], the batch runner only)

    Conventions of the embedding.
    - A Python [str] is a Rocq [string] whose characters are read as the code
      points 0..255 (Latin-1); the character classes of [str.strip],
      [str.isdigit], [str.isalnum], [str.lower] and [int()] are the Unicode
      ones restricted to that range.
    - A Python [int] is [Z]; a Python [float] is a binary64 value of
      [SpecFloat.spec_float], with the rounding of every operation written out
      by the [SF*] functions.
    - A Python exception is a [PyExc] value carried by the [Raise] constructor
      of [result]; code that mutates objects or talks to the outside world
      (file system, Pillow codecs, ffmpeg, the database) runs in the state
      monad [M] over an explicit world. *)

From Stdlib Require Import ZArith Ascii String List Bool Lia.
From Stdlib Require Import Floats.SpecFloat.
From stdpp Require Import base tactics option list gmap strings pretty.

Local Open Scope string_scope.
Local Open Scope list_scope.
Local Open Scope Z_scope.

(** ** Exceptions *)

Inductive ExcClass :=
  | ValueError | RuntimeError | FileNotFoundError | OSError
  | OverflowError | ZeroDivisionError | TimeoutExpired | MemoryError
  | OtherException.

Record PyExc := mkExc { exc_class : ExcClass; exc_str : string }.

Inductive result (A : Type) :=
  | Ok (a : A)
  | Raise (e : PyExc).
Arguments Ok {A} a.
Arguments Raise {A} e.

Definition is_ok {A} (r : result A) : bool :=
  match r with Ok _ => true | Raise _ => false end.

Definition rbind {A B} (r : result A) (k : A -> result B) : result B :=
  match r with Ok a => k a | Raise e => Raise e end.

Notation "'let?' x := r 'in' k" := (rbind r (fun x => k))
  (at level 10, x name, r at level 100, k at level 200).
Notation "'let?' ' p := r 'in' k" :=
  (rbind r (fun x => match x with p => k end))
  (at level 10, p pattern, r at level 100, k at level 200).

(** ** Python strings *)

Module PyStr.

Definition chars (s : string) : list ascii := list_ascii_of_string s.
Definition str (l : list ascii) : string := string_of_list_ascii l.

Definition ord (c : ascii) : N := N_of_ascii c.
Definition chr (n : N) : ascii := ascii_of_N n.

Definition in_range (lo hi : N) (c : ascii) : bool :=
  ((lo <=? ord c) && (ord c <=? hi))%N.

(** [str.isspace] on one character: TAB..CR, FS..US, space, NEL, NBSP. *)
Definition isspace_c (c : ascii) : bool :=
  in_range 9 13 c || in_range 28 32 c || in_range 133 133 c
  || in_range 160 160 c.

(** [str.isdecimal]: only the ASCII digits below code point 256. *)
Definition isdecimal_c (c : ascii) : bool := in_range 48 57 c.

(** [str.isdigit]: the decimal digits and the superscripts 2, 3 and 1
    (U+00B2, U+00B3, U+00B9). *)
Definition isdigit_c (c : ascii) : bool :=
  isdecimal_c c || in_range 178 179 c || in_range 185 185 c.

(** [str.isnumeric]: the digits and the vulgar fractions U+00BC..U+00BE. *)
Definition isnumeric_c (c : ascii) : bool :=
  isdigit_c c || in_range 188 190 c.

(** [str.isalpha]: the letters of Latin-1. *)
Definition isalpha_c (c : ascii) : bool :=
  in_range 65 90 c || in_range 97 122 c || in_range 170 170 c
  || in_range 181 181 c || in_range 186 186 c || in_range 192 214 c
  || in_range 216 246 c || in_range 248 255 c.

Definition isalnum_c (c : ascii) : bool := isalpha_c c || isnumeric_c c.

(** [str.lower] on one character: the upper-case letters move 32 up. *)
Definition lower_c (c : ascii) : ascii :=
  if in_range 65 90 c || in_range 192 214 c || in_range 216 222 c
  then chr (ord c + 32) else c.

Definition lower (s : string) : string := str (map lower_c (chars s)).

Fixpoint drop_while (p : ascii -> bool) (l : list ascii) : list ascii :=
  match l with
  | [] => []
  | c :: l' => if p c then drop_while p l' else l
  end.

Definition lstrip_l (p : ascii -> bool) (l : list ascii) := drop_while p l.
Definition rstrip_l (p : ascii -> bool) (l : list ascii) :=
  rev (drop_while p (rev l)).

(** [s.strip()] *)
Definition strip (s : string) : string :=
  str (rstrip_l isspace_c (lstrip_l isspace_c (chars s))).

(** [s.lstrip(cs)] *)
Definition lstrip_chars (cs : string) (s : string) : string :=
  str (lstrip_l (fun c => bool_decide (c ∈ chars cs)) (chars s)).

(** [s.isdigit()]: non-empty and every character a digit. *)
Definition isdigit (s : string) : bool :=
  match chars s with [] => false | l => forallb isdigit_c l end.

(** [c in s] for a one-character needle. *)
Definition contains (c : ascii) (s : string) : bool :=
  existsb (fun d => bool_decide (d = c)) (chars s).

(** [s.split(c, 1)] when [c] occurs in [s]: the text before the first
    occurrence and the text after it. *)
Fixpoint split1_l (c : ascii) (l : list ascii) : list ascii * list ascii :=
  match l with
  | [] => ([], [])
  | d :: l' =>
      if bool_decide (d = c) then ([], l')
      else let '(a, b) := split1_l c l' in (d :: a, b)
  end.
Definition split1 (c : ascii) (s : string) : string * string :=
  let '(a, b) := split1_l c (chars s) in (str a, str b).

(** [s[:n]] and [s[i:j]] for non-negative bounds. *)
Definition prefix (n : nat) (s : string) : string := str (take n (chars s)).
Definition slice (i j : nat) (s : string) : string :=
  str (take (j - i) (drop i (chars s))).

Definition len (s : string) : nat := length (chars s).

(** *** [int(s, base)]

    The grammar of CPython's [PyLong_FromString] for an explicit base 10 or
    16: optional white space, an optional sign, for base 16 an optional
    [0x] prefix (which one underscore may follow), then digits of the base
    separated by single underscores, then optional white space. For a
    [str] argument the white space is TAB..CR, the space, and the
    non-ASCII spaces NEL and NBSP, which CPython first rewrites to a space;
    the separators FS..US are not skipped. The interpreter's optional limit
    on the number of digits is not modelled. *)

Definition isspace_int_c (c : ascii) : bool :=
  in_range 9 13 c || in_range 32 32 c || in_range 133 133 c
  || in_range 160 160 c.

Definition digit_value (c : ascii) : option Z :=
  if in_range 48 57 c then Some (Z.of_N (ord c) - 48)
  else if in_range 97 122 c then Some (Z.of_N (ord c) - 97 + 10)
  else if in_range 65 90 c then Some (Z.of_N (ord c) - 65 + 10)
  else None.

Definition digit_in (base : Z) (c : ascii) : option Z :=
  match digit_value c with
  | Some d => if d <? base then Some d else None
  | None => None
  end.

(** Scans the digits; [prev_us] tells that the previous character was an
    underscore. Returns the value and the unread rest, or [None] on a
    misplaced underscore. *)
Fixpoint scan_digits (base : Z) (acc : Z) (prev_us : bool) (l : list ascii)
  : option (Z * list ascii) :=
  match l with
  | [] => if prev_us then None else Some (acc, [])
  | c :: l' =>
      match digit_in base c with
      | Some d => scan_digits base (acc * base + d) false l'
      | None =>
          if bool_decide (c = "_"%char) then
            if prev_us then None else scan_digits base acc true l'
          else if prev_us then None else Some (acc, l)
      end
  end.

Definition skip_prefix16 (l : list ascii) : list ascii :=
  match l with
  | "0"%char :: x :: r =>
      if bool_decide (x = "x"%char) || bool_decide (x = "X"%char)
      then match r with "_"%char :: r' => r' | _ => r end
      else l
  | _ => l
  end.

Definition int_literal_error (base : Z) (s : string) : PyExc :=
  mkExc ValueError
    ("invalid literal for int() with base " +:+ pretty base +:+ ": '"
     +:+ s +:+ "'").

Definition parse_int (base : Z) (s : string) : option Z :=
  let l0 := lstrip_l isspace_int_c (chars s) in
  let '(neg, l1) :=
    match l0 with
    | "-"%char :: r => (true, r)
    | "+"%char :: r => (false, r)
    | _ => (false, l0)
    end in
  let l2 := if base =? 16 then skip_prefix16 l1 else l1 in
  match l2 with
  | [] => None
  | c :: _ =>
      match digit_in base c with
      | None => None
      | Some _ =>
          match scan_digits base 0 false l2 with
          | Some (v, rest) =>
              match lstrip_l isspace_int_c rest with
              | [] => Some (if neg then - v else v)
              | _ => None
              end
          | None => None
          end
      end
  end.

Definition int (base : Z) (s : string) : result Z :=
  match parse_int base s with
  | Some v => Ok v
  | None => Raise (int_literal_error base s)
  end.

End PyStr.

(** ** Python floats (IEEE 754 binary64, round to nearest even) *)

Module PyFloat.

Definition prec : Z := 53.
Definition emax : Z := 1024.

Definition float : Type := spec_float.

Definition mul : float -> float -> float := SFmul prec emax.
Definition add : float -> float -> float := SFadd prec emax.
Definition ltb : float -> float -> bool := SFltb.

(** An integer as an exact, not yet rounded, binary number. *)
Definition exact (z : Z) : float :=
  match z with
  | Z0 => S754_zero false
  | Zpos p => S754_finite false p 0
  | Zneg p => S754_finite true p 0
  end.

Definition is_inf (f : float) : bool :=
  match f with S754_infinity _ => true | _ => false end.

(** [float(z)], as done implicitly when an [int] meets a [float]: the
    nearest binary64 value, [OverflowError] beyond the largest one. *)
Definition of_int (z : Z) : result float :=
  let f := binary_normalize prec emax z 0 false in
  if is_inf f
  then Raise (mkExc OverflowError "int too large to convert to float")
  else Ok f.

(** [a / b] on two [int]s: the correctly rounded quotient. *)
Definition int_truediv (a b : Z) : result float :=
  if b =? 0 then Raise (mkExc ZeroDivisionError "division by zero")
  else
    let f := SFdiv prec emax (exact a) (exact b) in
    if is_inf f
    then Raise (mkExc OverflowError
                  "integer division result too large for a float")
    else Ok f.

(** [z * f] and [f * z] with an [int] [z]. *)
Definition int_mul (z : Z) (f : float) : result float :=
  rbind (of_int z) (fun g => Ok (mul g f)).

(** [int(f)]: truncation towards zero. *)
Definition to_int (f : float) : result Z :=
  match f with
  | S754_zero _ => Ok 0
  | S754_finite s m e =>
      let a := if 0 <=? e then Z.shiftl (Zpos m) e
               else Z.shiftr (Zpos m) (- e) in
      Ok (if s then - a else a)
  | S754_infinity _ =>
      Raise (mkExc OverflowError "cannot convert float infinity to integer")
  | S754_nan =>
      Raise (mkExc ValueError "cannot convert float NaN to integer")
  end.

(** [round(f)]: the nearest integer, ties to the even one. *)
Definition round (f : float) : result Z :=
  match f with
  | S754_zero _ => Ok 0
  | S754_finite s m e =>
      let a :=
        if 0 <=? e then Z.shiftl (Zpos m) e
        else
          let q := Z.shiftr (Zpos m) (- e) in
          let r := Zpos m - Z.shiftl q (- e) in
          let half := Z.shiftl 1 (- e - 1) in
          if (half <? r) || ((r =? half) && Z.odd q) then q + 1 else q in
      Ok (if s then - a else a)
  | S754_infinity _ =>
      Raise (mkExc OverflowError "cannot convert float infinity to integer")
  | S754_nan =>
      Raise (mkExc ValueError "cannot convert float NaN to integer")
  end.

(** [max(a, b)] and [min(a, b)] of Python: the first argument unless the
    second is strictly greater (smaller). *)
Definition max (a b : float) : float := if ltb a b then b else a.
Definition min (a b : float) : float := if ltb b a then b else a.

(** The literals [0.9] and [100.0]. *)
Definition f0_9 : float := S754_finite false 8106479329266893 (-53).
Definition f100 : float := S754_finite false 7036874417766400 (-46).

End PyFloat.

(** ** Pillow images, as far as their geometry goes *)

Module PIL.

Definition Color : Type := (Z * Z * Z)%type.

(** Where the pixels of an image come from. *)
Inductive Pixels :=
  | PxFile (src : string)
  | PxConvert (mode : string) (p : Pixels)
  | PxResize (w h : Z) (p : Pixels)
  | PxCrop (left top right bottom : Z) (p : Pixels)
  | PxSolid (c : Color)
  | PxPaste (onto pasted : Pixels) (x y : Z)
  | PxBlur (radius : Z) (p : Pixels)
  | PxNoInfo (p : Pixels).

Record Image := mkImage {
  mode : string;
  width : Z;
  height : Z;
  pixels : Pixels
}.

Definition size (img : Image) : Z * Z := (width img, height img).

Definition copy (img : Image) : Image := img.

Definition convert (m : string) (img : Image) : Image :=
  mkImage m (width img) (height img) (PxConvert m (pixels img)).

(** [img.resize((w, h), LANCZOS)]: the core refuses an empty size. *)
Definition resize (img : Image) (w h : Z) : result Image :=
  if (w =? width img) && (h =? height img) then Ok (copy img)
  else if (w <? 1) || (h <? 1)
  then Raise (mkExc ValueError "height and width must be > 0")
  else Ok (mkImage (mode img) w h (PxResize w h (pixels img))).

(** [img.crop((left, top, right, bottom))]: the result has the size of
    the box, also where the box leaves the image. *)
Definition crop (img : Image) (left top right bottom : Z) : result Image :=
  if right <? left
  then Raise (mkExc ValueError "Coordinate 'right' is less than 'left'")
  else if bottom <? top
  then Raise (mkExc ValueError "Coordinate 'lower' is less than 'upper'")
  else Ok (mkImage (mode img) (right - left) (bottom - top)
             (PxCrop left top right bottom (pixels img))).

(** [Image.new(mode, (w, h), color)] *)
Definition new (m : string) (w h : Z) (c : Color) : result Image :=
  if (w <? 0) || (h <? 0)
  then Raise (mkExc ValueError "Width and height must be >= 0")
  else Ok (mkImage m w h (PxSolid c)).

(** [out.paste(img, (x, y))] mutates [out]; its size stays. *)
Definition paste (out img : Image) (x y : Z) : Image :=
  mkImage (mode out) (width out) (height out)
    (PxPaste (pixels out) (pixels img) x y).

(** [img.filter(ImageFilter.GaussianBlur(radius))] *)
Definition gaussian_blur (radius : Z) (img : Image) : Image :=
  mkImage (mode img) (width img) (height img) (PxBlur radius (pixels img)).

End PIL.

(** ** conversion/resize.py *)

Module Resize.
Import PIL.

Definition default_gray : Color := (128, 128, 128).

(** One pass through the body of [resize_to_fit]; [fuel] bounds the depth
    of the fall-back call for an unknown fill mode. *)
Fixpoint resize_to_fit_rec (fuel : nat) (img : Image)
    (target_width target_height : Z) (fill_mode : string)
    (fill_color : option Color) : option (result Image) :=
  match fuel with
  | O => None
  | S fuel' =>
      let fill_color := default default_gray fill_color in
      let '(w, h) := size img in
      let img := if bool_decide (mode img = "RGB") then img
                 else convert "RGB" img in
      let '(tw, th) := (target_width, target_height) in
      if (w =? tw) && (h =? th) then Some (Ok (copy img))
      else
        let scales :=
          let? a := PyFloat.int_truediv tw w in
          let? b := PyFloat.int_truediv th h in
          Ok (PyFloat.max a b, PyFloat.min a b) in
        let scaled (scale : PyFloat.float) : result (Z * Z) :=
          let? fw := PyFloat.int_mul w scale in
          let? new_w := PyFloat.to_int fw in
          let? fh := PyFloat.int_mul h scale in
          let? new_h := PyFloat.to_int fh in
          Ok (new_w, new_h) in
        match scales with
        | Raise e => Some (Raise e)
        | Ok (scale_cover, scale_fit) =>
            if bool_decide (fill_mode = "crop") then
              Some (
                let? '(new_w, new_h) := scaled scale_cover in
                let? resized := resize img new_w new_h in
                let left := (new_w - tw) `div` 2 in
                let top := (new_h - th) `div` 2 in
                crop resized left top (left + tw) (top + th))
            else if bool_decide (fill_mode = "color") then
              Some (
                let? '(new_w, new_h) := scaled scale_fit in
                if (new_w <=? 0) || (new_h <=? 0) then
                  new "RGB" tw th fill_color
                else
                  let? resized := resize img new_w new_h in
                  let? out := new "RGB" tw th fill_color in
                  let paste_x := (tw - new_w) `div` 2 in
                  let paste_y := (th - new_h) `div` 2 in
                  Ok (paste out resized paste_x paste_y))
            else if bool_decide (fill_mode = "blur") then
              Some (
                let? '(new_w, new_h) := scaled scale_cover in
                if (new_w <=? 0) || (new_h <=? 0) then
                  new "RGB" tw th fill_color
                else
                  let? resized := resize img new_w new_h in
                  let blurred :=
                    gaussian_blur (Z.min tw th `div` 20) resized in
                  let left := (new_w - tw) `div` 2 in
                  let top := (new_h - th) `div` 2 in
                  crop blurred left top (left + tw) (top + th))
            else
              resize_to_fit_rec fuel' img tw th "crop" (Some fill_color)
        end
  end.

(** [resize_to_fit]: two levels of the body are all the source can use,
    the fall-back call passes the known mode ["crop"]. *)
Definition resize_to_fit (img : Image) (target_width target_height : Z)
    (fill_mode : string) (fill_color : option Color) : result Image :=
  default (Raise (mkExc OtherException "maximum recursion depth exceeded"))
    (resize_to_fit_rec 2 img target_width target_height fill_mode
       fill_color).

(** [resize_keep_aspect] *)
Definition resize_keep_aspect (img : Image)
    (target_width target_height : option Z) : result Image :=
  let '(w, h) := size img in
  let img := if bool_decide (mode img = "RGB") then img
             else convert "RGB" img in
  match target_width, target_height with
  | None, None => Ok (copy img)
  | _, _ =>
      let? scale :=
        match target_width, target_height with
        | Some tw, Some th =>
            let? a := PyFloat.int_truediv tw w in
            let? b := PyFloat.int_truediv th h in
            Ok (PyFloat.min a b)
        | Some tw, None => PyFloat.int_truediv tw w
        | _, Some th => PyFloat.int_truediv th h
        | None, None => Ok (S754_zero false)
        end in
      let? fw := PyFloat.int_mul w scale in
      let? rw := PyFloat.round fw in
      let new_w := Z.max 1 rw in
      let? fh := PyFloat.int_mul h scale in
      let? rh := PyFloat.round fh in
      let new_h := Z.max 1 rh in
      resize img new_w new_h
  end.

(** [hex_to_rgb] *)
Definition hex_to_rgb (hex_color : string) : result Color :=
  let hex_color := PyStr.lstrip_chars "#" (PyStr.strip hex_color) in
  let parsed :=
    if bool_decide (PyStr.len hex_color = 6%nat) then
      Some (let? r := PyStr.int 16 (PyStr.slice 0 2 hex_color) in
            let? g := PyStr.int 16 (PyStr.slice 2 4 hex_color) in
            let? b := PyStr.int 16 (PyStr.slice 4 6 hex_color) in
            Ok (r, g, b))
    else None in
  match parsed with
  | Some (Ok c) => Ok c
  | Some (Raise e) =>
      match exc_class e with
      | ValueError => Ok (128, 128, 128)
      | _ => Raise e
      end
  | None => Ok (128, 128, 128)
  end.

End Resize.

(** ** pathlib, on POSIX path texts in normal form

    A path is its text without trailing slash and without [.] components;
    [name], [suffix] and [stem] follow [PurePosixPath]. *)

Module PathLib.

Definition Path : Type := string.

(** The text after the last occurrence of [c], or all of it. *)
Fixpoint after_last (c : ascii) (l : list ascii) : list ascii :=
  match l with
  | [] => []
  | d :: l' =>
      if existsb (fun x => bool_decide (x = c)) l' then after_last c l'
      else if bool_decide (d = c) then l' else l
  end.

Definition name (p : Path) : string :=
  PyStr.str (after_last "/"%char (PyStr.chars p)).

(** [name.rfind('.')]: the index of the last dot, if any. *)
Fixpoint rfind (c : ascii) (l : list ascii) : option nat :=
  match l with
  | [] => None
  | d :: l' =>
      match rfind c l' with
      | Some i => Some (S i)
      | None => if bool_decide (d = c) then Some O else None
      end
  end.

(** The index at which [suffix] starts: a last dot that is neither the
    first nor the last character of the name. *)
Definition suffix_index (nm : string) : option nat :=
  match rfind "."%char (PyStr.chars nm) with
  | Some i =>
      if bool_decide (0 < i < PyStr.len nm - 1)%nat then Some i else None
  | None => None
  end.

Definition suffix (p : Path) : string :=
  match suffix_index (name p) with
  | Some i => PyStr.str (drop i (PyStr.chars (name p)))
  | None => ""
  end.

Definition stem (p : Path) : string :=
  match suffix_index (name p) with
  | Some i => PyStr.str (take i (PyStr.chars (name p)))
  | None => name p
  end.

Definition is_absolute (p : Path) : bool :=
  match PyStr.chars p with "/"%char :: _ => true | _ => false end.

(** [dir / part] *)
Definition joinpath (dir : Path) (part : string) : Path :=
  if is_absolute part then part else dir +:+ "/" +:+ part.

End PathLib.

(** ** config.py *)

Module Config.

(** The values read from the process environment. *)
Record Settings := mkSettings {
  UPLOAD_DIR : PathLib.Path;
  OUTPUT_DIR : PathLib.Path;
  BATCH_ZIP_DIR : PathLib.Path;
  WEB_OPTIMIZED_QUALITY : Z;
  WEB_OPTIMIZED_EFFORT : Z;
  DEFAULT_QUALITY : Z
}.

(** The settings of a process started with an empty environment in
    [/srv/backend]. *)
Definition default_settings : Settings :=
  mkSettings "/srv/backend/uploads" "/srv/backend/outputs"
    "/srv/backend/zips" 85 6 90.

Definition IMAGE_EXTENSIONS : list string :=
  [".jpg"; ".jpeg"; ".png"; ".gif"; ".bmp"; ".tiff"; ".webp"; ".avif"].
Definition VIDEO_EXTENSIONS : list string :=
  [".mp4"; ".webm"; ".mov"; ".avi"; ".mkv"; ".m4v"].

Definition IMAGE_OUTPUT_FORMATS : list string :=
  ["webp"; "jpeg"; "png"; "avif"].
Definition VIDEO_OUTPUT_FORMATS : list string := ["webp"; "mp4"; "webm"].

Definition SIZE_PRESETS_items : list (string * option (Z * Z)) :=
  [ ("original", None);
    ("instagram_square", Some (1080, 1080));
    ("instagram_portrait", Some (1080, 1350));
    ("instagram_story", Some (1080, 1920));
    ("facebook_post", Some (1200, 630));
    ("twitter_post", Some (1200, 675));
    ("linkedin_banner", Some (1200, 627));
    ("linkedin_background", Some (1584, 396));
    ("pinterest", Some (1000, 1500));
    ("youtube_thumbnail", Some (1280, 720));
    ("google_display", Some (1200, 628)) ].

Definition SIZE_PRESETS : gmap string (option (Z * Z)) :=
  list_to_map SIZE_PRESETS_items.

End Config.

(** ** conversion/models.py *)

Module Models.

Inductive TaskStatus := PENDING | UPLOADING | CONVERTING | COMPLETED | FAILED.
Inductive MediaType := IMAGE | VIDEO.

#[global] Instance TaskStatus_eq_dec : EqDecision TaskStatus.
Proof. solve_decision. Defined.
#[global] Instance MediaType_eq_dec : EqDecision MediaType.
Proof. solve_decision. Defined.

Record ConversionTask := mkTask {
  task_id : string;
  filename : string;
  media_type : MediaType;
  status : TaskStatus;
  progress : PyFloat.float;
  error : option string;
  output_paths : list string;
  output_formats : list string;
  input_size : option Z;
  output_sizes : list Z
}.

Definition f0 : PyFloat.float := S754_zero false.

(** [ConversionTask.__init__] *)
Definition new_task (task_id filename : string) (media_type : MediaType)
  : ConversionTask :=
  mkTask task_id filename media_type PENDING f0 None [] [] None [].

Definition set_status (s : TaskStatus) (t : ConversionTask) :=
  mkTask (task_id t) (filename t) (media_type t) s (progress t) (error t)
    (output_paths t) (output_formats t) (input_size t) (output_sizes t).
Definition set_progress (p : PyFloat.float) (t : ConversionTask) :=
  mkTask (task_id t) (filename t) (media_type t) (status t) p (error t)
    (output_paths t) (output_formats t) (input_size t) (output_sizes t).
Definition set_error (e : option string) (t : ConversionTask) :=
  mkTask (task_id t) (filename t) (media_type t) (status t) (progress t) e
    (output_paths t) (output_formats t) (input_size t) (output_sizes t).
Definition set_input_size (n : option Z) (t : ConversionTask) :=
  mkTask (task_id t) (filename t) (media_type t) (status t) (progress t)
    (error t) (output_paths t) (output_formats t) n (output_sizes t).
Definition append_output_path (p : string) (t : ConversionTask) :=
  mkTask (task_id t) (filename t) (media_type t) (status t) (progress t)
    (error t) (output_paths t ++ [p]) (output_formats t) (input_size t)
    (output_sizes t).
Definition append_output_format (f : string) (t : ConversionTask) :=
  mkTask (task_id t) (filename t) (media_type t) (status t) (progress t)
    (error t) (output_paths t) (output_formats t ++ [f]) (input_size t)
    (output_sizes t).
Definition append_output_size (n : Z) (t : ConversionTask) :=
  mkTask (task_id t) (filename t) (media_type t) (status t) (progress t)
    (error t) (output_paths t) (output_formats t) (input_size t)
    (output_sizes t ++ [n]).

End Models.

(** ** batch.py: the job record *)

Module BatchModel.

Record BatchJob := mkBatchJob {
  batch_id : string;
  status : string;   (* "processing" | "completed" | "failed" *)
  task_ids : list string;
  error : option string;
  zip_filename : option string
}.

End BatchModel.

(** ** The outside world and the state monad

    Everything the sources reach through a library or the operating system is
    an operation of the world [W]: it may answer differently on every call
    and may raise. The module-level dictionaries [_tasks] (of the
    [ConversionService] singleton) and [_batches] are part of the state. A
    [ConversionTask] object is referred to by its registry key: the sources
    register every task on creation and never remove one. *)

Record SaveKw := mkSaveKw {
  kw_format : string;
  kw_quality : option Z;
  kw_method : option Z;
  kw_optimize : option bool;
  kw_progressive : option bool
}.

Record CompletedProcess := mkCompleted {
  returncode : Z;
  stdout : string;
  stderr : string
}.

Record ActivityRow := mkActivity {
  act_session_id : string;
  act_task_id : string;
  act_filename : string;
  act_status : string;
  act_batch_id : option string;
  act_input_bytes : option Z;
  act_output_bytes : option Z;
  act_output_count : Z
}.

Class World (W : Type) := {
  (* uuid.uuid4() rendered by str() *)
  uuid4 : W -> string * W;
  (* Path.is_file(), Path.exists(), Path.stat().st_size, Path.unlink() *)
  path_is_file : PathLib.Path -> W -> bool * W;
  path_exists : PathLib.Path -> W -> bool * W;
  path_stat_size : PathLib.Path -> W -> result Z * W;
  path_unlink : PathLib.Path -> W -> result unit * W;
  (* Image.open(src), img.save(path, **kw) *)
  image_open : PathLib.Path -> W -> result PIL.Image * W;
  image_save : PIL.Image -> string -> SaveKw -> W -> result unit * W;
  (* subprocess.run(cmd, capture_output=True, text=True, timeout=300) *)
  subprocess_run : list string -> W -> result CompletedProcess * W;
  (* zipfile.ZipFile(path, "w", ZIP_DEFLATED), zf.write(path, arcname),
     and leaving the with block *)
  zip_create : PathLib.Path -> W -> result unit * W;
  zip_write : PathLib.Path -> PathLib.Path -> string -> W -> result unit * W;
  zip_close : PathLib.Path -> W -> result unit * W;
  (* app.db *)
  db_save_batch :
    string -> string -> list string -> option string -> W -> result unit * W;
  db_update_batch_status :
    string -> string -> option (list string) -> option string ->
    option string -> W -> result unit * W;
  db_record_activity : ActivityRow -> W -> result unit * W
}.

Section Monad.
Context {W : Type}.

Record State := mkState {
  tasks : gmap string Models.ConversionTask;
  batches : gmap string BatchModel.BatchJob;
  world : W
}.

Definition M (A : Type) : Type := State -> result A * State.

Definition ret {A} (a : A) : M A := fun st => (Ok a, st).
Definition raise {A} (e : PyExc) : M A := fun st => (Raise e, st).
Definition bind {A B} (m : M A) (k : A -> M B) : M B :=
  fun st => match m st with
            | (Ok a, st') => k a st'
            | (Raise e, st') => (Raise e, st')
            end.
Definition lift {A} (r : result A) : M A :=
  match r with Ok a => ret a | Raise e => raise e end.

(** [try: m  except Exception as e: h e] *)
Definition try_except {A} (m : M A) (h : PyExc -> M A) : M A :=
  fun st => match m st with
            | (Ok a, st') => (Ok a, st')
            | (Raise e, st') => h e st'
            end.

(** [try: m  finally: f] *)
Definition try_finally {A} (m : M A) (f : M unit) : M A :=
  fun st => match m st with
            | (r, st') =>
                match f st' with
                | (Ok _, st'') => (r, st'')
                | (Raise e, st'') => (Raise e, st'')
                end
            end.

(** A call into the world. *)
Definition call {A} (op : W -> A * W) : M A :=
  fun st => let '(a, w) := op (world st) in
            (Ok a, mkState (tasks st) (batches st) w).
Definition call_r {A} (op : W -> result A * W) : M A :=
  fun st => let '(r, w) := op (world st) in
            (r, mkState (tasks st) (batches st) w).

Definition get_tasks : M (gmap string Models.ConversionTask) :=
  fun st => (Ok (tasks st), st).
Definition put_tasks (t : gmap string Models.ConversionTask) : M unit :=
  fun st => (Ok tt, mkState t (batches st) (world st)).
Definition get_batches : M (gmap string BatchModel.BatchJob) :=
  fun st => (Ok (batches st), st).
Definition put_batches (b : gmap string BatchModel.BatchJob) : M unit :=
  fun st => (Ok tt, mkState (tasks st) b (world st)).

(** [for x in l: body x], with the loop-carried locals in [acc]. *)
Fixpoint for_fold {A S} (l : list A) (acc : S) (body : A -> S -> M S)
  : M S :=
  match l with
  | [] => ret acc
  | x :: l' => bind (body x acc) (fun acc' => for_fold l' acc' body)
  end.

Definition for_each {A} (l : list A) (body : A -> M unit) : M unit :=
  for_fold l tt (fun x _ => body x).

End Monad.

Arguments State W : clear implicits.
Arguments M W A : clear implicits.

Notation "x <- m ;; k" := (bind m (fun x => k))
  (at level 100, m at next level, k at level 200, right associativity).
Notation "m ;; k" := (bind m (fun _ => k))
  (at level 100, k at level 200, right associativity).

(** ** batch.py *)

Module Batch.
Import BatchModel.

(** [_sanitize_folder_name] *)
Definition _sanitize_folder_name (name : string) : string :=
  let kept :=
    PyStr.str
      (filter (fun c => PyStr.isalnum_c c
                        || bool_decide (c ∈ PyStr.chars "._- "))
         (PyStr.chars name)) in
  let s := PyStr.strip kept in
  let s := if bool_decide (s = "") then "file" else s in
  PyStr.prefix 64 s.

(** The archive member name chosen in the innermost loop of
    [create_zip_from_task_outputs]. *)
Definition arcname (folder_structure task_id folder_name : string)
    (path : PathLib.Path) : string :=
  let ext0 := PyStr.lower (PyStr.lstrip_chars "." (PathLib.suffix path)) in
  let ext := if bool_decide (ext0 = "") then "bin" else ext0 in
  if bool_decide (folder_structure = "by_file")
  then folder_name +:+ "/" +:+ PathLib.name path
  else if bool_decide (folder_structure = "by_format")
  then ext +:+ "/" +:+ PathLib.name path
  else PyStr.prefix 8 task_id +:+ "_" +:+ PathLib.name path.

(** [task_id_to_filename.get(task_id, task_id[:8])], sanitized. *)
Definition folder_name_of (task_id_to_filename : gmap string string)
    (task_id : string) : string :=
  _sanitize_folder_name
    (default (PyStr.prefix 8 task_id) (task_id_to_filename !! task_id)).

(** The file a recorded output path [p] is read from. *)
Definition resolve_output (output_dir : PathLib.Path) (p : string)
  : PathLib.Path :=
  if PathLib.is_absolute p then p
  else PathLib.joinpath output_dir (PathLib.name p).

Section WithWorld.
Context {W : Type} `{World W} (cfg : Config.Settings).

Definition create_batch (batch_id : string) (task_ids : list string)
    (session_id : option string) : M W BatchJob :=
  let job := mkBatchJob batch_id "processing" task_ids None None in
  b <- get_batches ;;
  put_batches (<[batch_id := job]> b) ;;
  call_r (db_save_batch batch_id "processing" task_ids session_id) ;;
  ret job.

Definition set_batch_completed (batch_id zip_filename : string)
    (task_ids : option (list string)) : M W unit :=
  b <- get_batches ;;
  match b !! batch_id with
  | Some job =>
      let job := mkBatchJob (BatchModel.batch_id job) "completed"
                   (default (BatchModel.task_ids job) task_ids)
                   (error job) (Some zip_filename) in
      put_batches (<[batch_id := job]> b)
  | None => ret tt
  end ;;
  call_r (db_update_batch_status batch_id "completed" task_ids None
            (Some zip_filename)).

Definition set_batch_failed (batch_id error : string) : M W unit :=
  b <- get_batches ;;
  match b !! batch_id with
  | Some job =>
      let job := mkBatchJob (BatchModel.batch_id job) "failed"
                   (BatchModel.task_ids job) (Some error)
                   (zip_filename job) in
      put_batches (<[batch_id := job]> b)
  | None => ret tt
  end ;;
  call_r (db_update_batch_status batch_id "failed" None (Some error)
            None).

(** [create_zip_from_task_outputs] with the defaults of [zip_dir] and
    [output_dir]. A failure inside the [with] block still closes the
    archive. *)
Definition create_zip_from_task_outputs (batch_id : string)
    (task_id_to_paths : list (string * list string))
    (folder_structure : string)
    (task_id_to_filename : option (gmap string string)) : M W string :=
  let zip_dir := Config.BATCH_ZIP_DIR cfg in
  let output_dir := Config.OUTPUT_DIR cfg in
  let task_id_to_filename := default ∅ task_id_to_filename in
  let zip_path := PathLib.joinpath zip_dir (batch_id +:+ ".zip") in
  call_r (zip_create zip_path) ;;
  try_finally
    (for_each task_id_to_paths (fun '(task_id, paths) =>
       let folder_name := folder_name_of task_id_to_filename task_id in
       for_each paths (fun p =>
         let path := resolve_output output_dir p in
         is_file <- call (path_is_file path) ;;
         if negb is_file then ret tt
         else
           call_r (zip_write zip_path path
                     (arcname folder_structure task_id folder_name
                        path)))))
    (call_r (zip_close zip_path)) ;;
  ret (PathLib.name zip_path).

End WithWorld.
End Batch.

(** ** [get_batch] (batch.py) *)

Module BatchLookup.
Import BatchModel.

(** The dictionary [get_batch_from_db] returns for a stored batch. *)
Record BatchRow := mkBatchRow {
  row_batch_id : string;
  row_status : string;
  row_task_ids : list string;
  row_error : option string;
  row_zip_filename : option string
}.

(** The reading side of the database. *)
Class BatchStore (W : Type) := {
  db_get_batch : string -> W -> result (option BatchRow) * W
}.

Definition job_of_row (row : BatchRow) : BatchJob :=
  mkBatchJob (row_batch_id row) (row_status row) (row_task_ids row)
    (row_error row) (row_zip_filename row).

Section WithWorld.
Context {W : Type} `{World W} `{BatchStore W}.

(** [get_batch] *)
Definition get_batch (batch_id : string) : M W (option BatchJob) :=
  b <- get_batches ;;
  match b !! batch_id with
  | Some job => ret (Some job)
  | None =>
      row <- call_r (db_get_batch batch_id) ;;
      match row with
      | None => ret None
      | Some row =>
          let job := job_of_row row in
          b <- get_batches ;;
          put_batches (<[batch_id := job]> b) ;;
          ret (Some job)
      end
  end.

End WithWorld.
End BatchLookup.

(** ** conversion/service.py *)

Module Service.
Import Models.

(** A resolved size preset: [(width, height, label)]. *)
Definition SizePreset : Type := (option Z * option Z * string)%type.

Definition original : SizePreset := (None, None, "original").

(** [get_media_type] *)
Definition get_media_type (path : PathLib.Path) : option MediaType :=
  let ext := PyStr.lower (PathLib.suffix path) in
  if bool_decide (ext ∈ Config.IMAGE_EXTENSIONS) then Some IMAGE
  else if bool_decide (ext ∈ Config.VIDEO_EXTENSIONS) then Some VIDEO
  else None.

Definition in_bounds (n : Z) : bool := (1 <=? n) && (n <=? 4096).

(** One turn of the loop of [_parse_size_presets] over the locals
    [result] and [seen]. *)
Definition parse_one (name : string)
    (acc : list SizePreset * gset string)
  : result (list SizePreset * gset string) :=
  let '(result, seen) := acc in
  let name := PyStr.lower (PyStr.strip name) in
  if bool_decide (name ∈ seen) then Ok acc
  else if bool_decide (name = "original") then
    Ok (result ++ [(None, None, "original")], {[name]} ∪ seen)
  else if PyStr.contains "x" name then
    let '(p0, p1) := PyStr.split1 "x" name in
    let a := PyStr.strip p0 in
    let b := PyStr.strip p1 in
    if PyStr.isdigit a && PyStr.isdigit b then
      let? w := PyStr.int 10 a in
      let? h := PyStr.int 10 b in
      if in_bounds w && in_bounds h
      then Ok (result ++ [(Some w, Some h, name)], {[name]} ∪ seen)
      else Ok acc
    else if PyStr.isdigit a && bool_decide (b = "") then
      let? w := PyStr.int 10 a in
      if in_bounds w
      then Ok (result ++ [(Some w, None, name)], {[name]} ∪ seen)
      else Ok acc
    else if bool_decide (a = "") && PyStr.isdigit b then
      let? h := PyStr.int 10 b in
      if in_bounds h
      then Ok (result ++ [(None, Some h, name)], {[name]} ∪ seen)
      else Ok acc
    else Ok acc
  else
    match Config.SIZE_PRESETS !! name with
    | Some (Some dims) =>
        Ok (result ++ [(Some dims.1, Some dims.2, name)], {[name]} ∪ seen)
    | _ => Ok acc
    end.

Fixpoint rfold {A S} (l : list A) (acc : S) (body : A -> S -> result S)
  : result S :=
  match l with
  | [] => Ok acc
  | x :: l' => let? acc' := body x acc in rfold l' acc' body
  end.

(** [_parse_size_presets] *)
Definition _parse_size_presets (preset_names : option (list string))
  : result (list SizePreset) :=
  match preset_names with
  | None | Some [] => Ok [original]
  | Some names =>
      let? '(result, _) := rfold names ([], ∅) parse_one in
      Ok (match result with [] => [original] | _ => result end)
  end.

(** The encoder quality computed at the head of [_convert_image]. *)
Definition derive_quality (cfg : Config.Settings) (web_optimized : bool)
    (size_reduction_percent : option Z) : result Z :=
  let quality := if web_optimized then Config.WEB_OPTIMIZED_QUALITY cfg
                 else Config.DEFAULT_QUALITY cfg in
  match size_reduction_percent with
  | Some p =>
      if (0 <=? p) && (p <=? 80) then
        let? f := PyFloat.int_mul p PyFloat.f0_9 in
        let? i := PyFloat.to_int f in
        Ok (Z.max 25 (Z.min 95 (95 - i)))
      else Ok quality
  | None => Ok quality
  end.

Definition derive_effort (cfg : Config.Settings)
    (web_optimized aggressive_compression : bool) : Z :=
  let effort := if web_optimized || aggressive_compression
                then Config.WEB_OPTIMIZED_EFFORT cfg else 4 in
  if aggressive_compression then 6 else effort.

(** The file-name suffix of a size preset. *)
Definition size_suffix (tw th : option Z) : string :=
  match tw, th with
  | Some w, Some h => pretty w +:+ "x" +:+ pretty h
  | Some w, None => pretty w +:+ "x"
  | None, Some h => "x" +:+ pretty h
  | None, None => "original"
  end.

(** [f"{src.stem}_{task.task_id[:8]}_{suffix}.{fmt}"] *)
Definition image_out_name (src : PathLib.Path) (task_id suffix fmt : string)
  : string :=
  PathLib.stem src +:+ "_" +:+ PyStr.prefix 8 task_id +:+ "_" +:+ suffix
  +:+ "." +:+ fmt.

(** [f"{src.stem}_{task.task_id[:8]}.{fmt}"] *)
Definition video_out_name (src : PathLib.Path) (task_id fmt : string)
  : string :=
  PathLib.stem src +:+ "_" +:+ PyStr.prefix 8 task_id +:+ "." +:+ fmt.

Definition empty_kw : SaveKw := mkSaveKw "" None None None None.

Definition image_save_kw (fmt : string) (quality effort : Z)
    (web_optimized aggressive_compression progressive : bool) : SaveKw :=
  if bool_decide (fmt = "webp") then
    mkSaveKw "WEBP" (Some quality) (Some effort)
      (if web_optimized || aggressive_compression then Some true else None)
      None
  else if bool_decide (fmt = "jpeg") then
    mkSaveKw "JPEG" (Some quality) None (Some true) (Some progressive)
  else if bool_decide (fmt = "png") then
    mkSaveKw "PNG" None None (Some true) None
  else if bool_decide (fmt = "avif") then
    mkSaveKw "AVIF" (Some quality) None None None
  else empty_kw.

(** [step / total * 100.0] *)
Definition progress_of (step total : Z) : result PyFloat.float :=
  let? q := PyFloat.int_truediv step total in
  Ok (PyFloat.mul q PyFloat.f100).

Definition video_cmd (fmt src out_path qscale : string)
    (web_optimized : bool) : option (list string) :=
  if bool_decide (fmt = "webp") then
    Some ["ffmpeg"; "-y"; "-i"; src; "-vcodec"; "libwebp"; "-lossless"; "0";
          "-compression_level"; if web_optimized then "4" else "6";
          "-q:v"; qscale; "-loop"; "1"; "-an"; "-vsync"; "0"; out_path]
  else if bool_decide (fmt = "mp4") then
    Some ["ffmpeg"; "-y"; "-i"; src; "-c:v"; "libx264"; "-preset";
          "medium"; "-crf"; qscale; "-an"; out_path]
  else if bool_decide (fmt = "webm") then
    Some ["ffmpeg"; "-y"; "-i"; src; "-c:v"; "libvpx-vp9"; "-crf"; qscale;
          "-b:v"; "0"; "-an"; out_path]
  else None.

Definition Crop : Type :=
  (PyFloat.float * PyFloat.float * PyFloat.float * PyFloat.float)%type.

(** The crop block of [_convert_image]. *)
Definition apply_crop (crop : option Crop) (base_img : PIL.Image)
  : result PIL.Image :=
  match crop with
  | None => Ok base_img
  | Some (cx, cy, cw, ch) =>
      let '(w, h) := PIL.size base_img in
      let? fl := PyFloat.int_mul w cx in
      let? left := PyFloat.to_int fl in
      let? ft := PyFloat.int_mul h cy in
      let? top := PyFloat.to_int ft in
      let? fr := PyFloat.int_mul w (PyFloat.add cx cw) in
      let? right := PyFloat.to_int fr in
      let? fb := PyFloat.int_mul h (PyFloat.add cy ch) in
      let? bottom := PyFloat.to_int fb in
      let left := Z.max 0 (Z.min left (w - 1)) in
      let top := Z.max 0 (Z.min top (h - 1)) in
      let right := Z.max (left + 1) (Z.min right w) in
      let bottom := Z.max (top + 1) (Z.min bottom h) in
      PIL.crop base_img left top right bottom
  end.

(** The mode normalisation at the head of the [with] block. *)
Definition base_image (img : PIL.Image) (out_formats : list string)
  : PIL.Image :=
  if bool_decide (PIL.mode img ∈ ["RGBA"; "P"])
     && bool_decide ("jpeg" ∈ out_formats)
  then PIL.convert "RGB" img
  else if negb (bool_decide (PIL.mode img ∈ ["RGB"; "RGBA"]))
  then PIL.convert "RGB" img
  else img.

(** The image a size preset is rendered from, and its file-name suffix. *)
Definition preset_work (base_img : PIL.Image) (tw th : option Z)
    (fill_mode : string) (rgb_fill : PIL.Color) : result PIL.Image :=
  match tw, th with
  | Some w, Some h =>
      Resize.resize_to_fit base_img w h
        (if bool_decide (fill_mode = "") then "crop" else fill_mode)
        (Some rgb_fill)
  | Some w, None => Resize.resize_keep_aspect base_img (Some w) None
  | None, Some h => Resize.resize_keep_aspect base_img None (Some h)
  | None, None => Ok base_img
  end.

Definition strip_info (img : PIL.Image) : PIL.Image :=
  PIL.mkImage (PIL.mode img) (PIL.width img) (PIL.height img)
    (PIL.PxNoInfo (PIL.pixels img)).

Section WithWorld.
Context {W : Type} `{World W} (cfg : Config.Settings).

(** A progress callback: it runs in the world and may raise. *)
Definition Callback : Type :=
  string -> PyFloat.float -> W -> result unit * W.

(** An assignment to an attribute of the task object [task]. *)
Definition modify_task (task : string)
    (f : ConversionTask -> ConversionTask) : M W unit :=
  t <- get_tasks ;; put_tasks (alter f task t).

Definition task_progress (task : string) : M W PyFloat.float :=
  t <- get_tasks ;; ret (default f0 (progress <$> t !! task)).

(** [_create_task] *)
Definition _create_task (filename : string) (media_type : MediaType)
  : M W string :=
  task_id <- call uuid4 ;;
  let task := new_task task_id filename media_type in
  t <- get_tasks ;;
  put_tasks (<[task_id := task]> t) ;;
  ret task_id.

(** The body of the loop [for fmt in out_formats] of [_convert_image];
    the locals [step] and [outputs] are carried in the accumulator. *)
Definition image_format_step (src : PathLib.Path) (task : string)
    (work : PIL.Image) (suffix : string) (total quality effort : Z)
    (web_optimized strip_metadata progressive aggressive_compression
       : bool)
    (fmt : string) (acc : Z * list PathLib.Path)
  : M W (Z * list PathLib.Path) :=
  let '(step, outputs) := acc in
  let fmt := PyStr.lower fmt in
  if negb (bool_decide (fmt ∈ Config.IMAGE_OUTPUT_FORMATS)) then ret acc
  else
    let out_path :=
      PathLib.joinpath (Config.OUTPUT_DIR cfg)
        (image_out_name src task suffix fmt) in
    let out_img := if strip_metadata then strip_info (PIL.copy work)
                   else work in
    let save_kw :=
      image_save_kw fmt quality effort web_optimized
        aggressive_compression progressive in
    call_r (image_save out_img out_path save_kw) ;;
    let outputs := outputs ++ [out_path] in
    let step := step + 1 in
    p <- lift (progress_of step total) ;;
    modify_task task (set_progress p) ;;
    modify_task task (append_output_path out_path) ;;
    modify_task task (append_output_format fmt) ;;
    sz <- call_r (path_stat_size out_path) ;;
    modify_task task (append_output_size sz) ;;
    ret (step, outputs).

(** The body of the loop [for (tw, th, size_label) in size_presets]. *)
Definition image_preset_step (src : PathLib.Path) (task : string)
    (base_img : PIL.Image) (out_formats : list string)
    (fill_mode : string) (rgb_fill : PIL.Color)
    (total quality effort : Z)
    (web_optimized strip_metadata progressive aggressive_compression
       : bool)
    (preset : SizePreset) (acc : Z * list PathLib.Path)
  : M W (Z * list PathLib.Path) :=
  let '(tw, th, size_label) := preset in
  work <- lift (preset_work base_img tw th fill_mode rgb_fill) ;;
  let suffix := size_suffix tw th in
  for_fold out_formats acc
    (image_format_step src task work suffix total quality effort
       web_optimized strip_metadata progressive aggressive_compression).

(** [_convert_image] *)
Definition _convert_image (src : PathLib.Path)
    (out_formats : list string) (task : string) (web_optimized : bool)
    (size_presets : option (list SizePreset)) (fill_mode : string)
    (fill_color : option string) (size_reduction_percent : option Z)
    (strip_metadata progressive aggressive_compression : bool)
    (crop : option Crop) : M W (list PathLib.Path) :=
  modify_task task (set_status CONVERTING) ;;
  modify_task task (set_progress f0) ;;
  let size_presets :=
    match size_presets with
    | None | Some [] => [original]
    | Some l => l
    end in
  let total := Z.of_nat (length out_formats)
               * Z.of_nat (length size_presets) in
  let total := if total =? 0 then 1 else total in
  quality <- lift (derive_quality cfg web_optimized
                     size_reduction_percent) ;;
  let effort := derive_effort cfg web_optimized aggressive_compression in
  rgb_fill <-
    match fill_color with
    | None => ret Resize.default_gray
    | Some c => if bool_decide (c = "") then ret Resize.default_gray
                else lift (Resize.hex_to_rgb c)
    end ;;
  try_except
    (img <- call_r (image_open src) ;;
     let base_img := base_image img out_formats in
     base_img <- lift (apply_crop crop base_img) ;;
     looped <-
       for_fold size_presets (0, [])
         (image_preset_step src task base_img out_formats fill_mode
            rgb_fill total quality effort web_optimized strip_metadata
            progressive aggressive_compression) ;;
     let outputs := looped.2 in
     modify_task task (set_status COMPLETED) ;;
     modify_task task (set_progress PyFloat.f100) ;;
     ret outputs)
    (fun e =>
       modify_task task (set_status FAILED) ;;
       modify_task task (set_error (Some (exc_str e))) ;;
       raise e).

(** The body of the loop [for i, fmt in enumerate(out_formats)] of
    [_convert_video]. *)
Definition video_format_step (src : PathLib.Path) (task : string)
    (web_optimized : bool) (total : Z) (qscale : string)
    (item : nat * string) (outputs : list PathLib.Path)
  : M W (list PathLib.Path) :=
  let '(i, fmt) := item in
  let fmt := PyStr.lower fmt in
  if negb (bool_decide (fmt ∈ Config.VIDEO_OUTPUT_FORMATS))
  then ret outputs
  else
    let out_path :=
      PathLib.joinpath (Config.OUTPUT_DIR cfg)
        (video_out_name src task fmt) in
    match video_cmd fmt src out_path qscale web_optimized with
    | None => ret outputs
    | Some cmd =>
        outputs <-
          try_except
            (res <- call_r (subprocess_run cmd) ;;
             (if negb (returncode res =? 0) then
                raise (mkExc RuntimeError
                         (if negb (bool_decide (stderr res = ""))
                          then stderr res
                          else if negb (bool_decide (stdout res = ""))
                          then stdout res else "ffmpeg failed"))
              else ret tt) ;;
             let outputs := outputs ++ [out_path] in
             modify_task task (append_output_path out_path) ;;
             modify_task task (append_output_format fmt) ;;
             sz <- call_r (path_stat_size out_path) ;;
             modify_task task (append_output_size sz) ;;
             ret outputs)
            (fun e =>
               match exc_class e with
               | FileNotFoundError =>
                   modify_task task (set_status FAILED) ;;
                   modify_task task
                     (set_error (Some "ffmpeg not installed")) ;;
                   raise e
               | _ =>
                   modify_task task (set_status FAILED) ;;
                   modify_task task (set_error (Some (exc_str e))) ;;
                   raise e
               end) ;;
        p <- lift (progress_of (Z.of_nat i + 1) total) ;;
        modify_task task (set_progress p) ;;
        ret outputs
    end.

(** [_convert_video] *)
Definition _convert_video (src : PathLib.Path)
    (out_formats : list string) (task : string) (web_optimized : bool)
  : M W (list PathLib.Path) :=
  modify_task task (set_status CONVERTING) ;;
  modify_task task (set_progress f0) ;;
  let total := Z.max 1 (Z.of_nat (length out_formats)) in
  let qscale := if web_optimized then "18" else "23" in
  outputs <-
    for_fold (imap (fun i fmt => (i, fmt)) out_formats) []
      (video_format_step src task web_optimized total qscale) ;;
  modify_task task (set_status COMPLETED) ;;
  modify_task task (set_progress PyFloat.f100) ;;
  ret outputs.

Definition notify (on_progress : option Callback) (task : string)
    (p : PyFloat.float) : M W unit :=
  match on_progress with
  | Some cb => call_r (cb task p)
  | None => ret tt
  end.

(** The [try] block of [convert]. *)
Definition convert_body (file_path : PathLib.Path)
    (media_type : MediaType) (task : string)
    (output_formats : list string) (web_optimized : bool)
    (on_progress : option Callback) (size_presets : option (list string))
    (fill_mode : string) (fill_color : option string)
    (size_reduction_percent : option Z)
    (strip_metadata progressive aggressive_compression : bool)
    (crop : option Crop) : M W unit :=
  is_file <- call (path_is_file file_path) ;;
  (if is_file then
     sz <- call_r (path_stat_size file_path) ;;
     modify_task task (set_input_size (Some sz))
   else ret tt) ;;
  parsed_sizes <- lift (_parse_size_presets size_presets) ;;
  match media_type with
  | IMAGE =>
      _convert_image file_path output_formats task web_optimized
        (Some parsed_sizes) fill_mode fill_color size_reduction_percent
        strip_metadata progressive aggressive_compression crop ;;
      ret tt
  | VIDEO =>
      _convert_video file_path output_formats task web_optimized ;;
      ret tt
  end ;;
  notify on_progress task PyFloat.f100.

(** The [except Exception as e] block of [convert]. *)
Definition convert_handler (task : string)
    (on_progress : option Callback) (e : PyExc) : M W unit :=
  modify_task task (set_status FAILED) ;;
  modify_task task (set_error (Some (exc_str e))) ;;
  p <- task_progress task ;;
  notify on_progress task p.

(** [convert]; the returned task object is given by its key. *)
Definition convert (file_path : PathLib.Path)
    (output_formats : list string) (web_optimized : bool)
    (on_progress : option Callback) (size_presets : option (list string))
    (fill_mode : string) (fill_color : option string)
    (size_reduction_percent : option Z)
    (strip_metadata progressive aggressive_compression : bool)
    (crop : option Crop) : M W string :=
  match get_media_type file_path with
  | None =>
      raise (mkExc ValueError
               ("Unsupported file type: " +:+ PathLib.suffix file_path))
  | Some media_type =>
      task <- _create_task (PathLib.name file_path) media_type ;;
      modify_task task (set_status CONVERTING) ;;
      try_except
        (convert_body file_path media_type task output_formats
           web_optimized on_progress size_presets fill_mode fill_color
           size_reduction_percent strip_metadata progressive
           aggressive_compression crop)
        (convert_handler task on_progress) ;;
      ret task
  end.

(** The task object behind a key, as a value. *)
Definition read_task (task : string) : M W ConversionTask :=
  t <- get_tasks ;;
  ret (default (new_task task "" IMAGE) (t !! task)).

(** [convert_many] under the schedule in which the pool runs the
    conversions one after the other, in the order of submission, and they
    complete in that order. The tasks are returned as values: nothing
    changes them once [convert_many] has returned. *)
Definition convert_many_in_order (file_paths : list PathLib.Path)
    (output_formats : list string) (web_optimized : bool)
    (on_progress : option Callback) (size_presets : option (list string))
    (fill_mode : string) (fill_color : option string)
    (size_reduction_percent : option Z)
    (strip_metadata progressive aggressive_compression : bool)
    (crop : option Crop) : M W (list ConversionTask) :=
  let valid_paths :=
    filter (fun p => is_Some (get_media_type p)) file_paths in
  for_fold valid_paths [] (fun path tasks =>
    try_except
      (task <- convert path output_formats web_optimized on_progress
                 size_presets fill_mode fill_color size_reduction_percent
                 strip_metadata progressive aggressive_compression crop ;;
       t <- read_task task ;;
       ret (tasks ++ [t]))
      (fun e =>
         task <- _create_task (PathLib.name path)
                   (default IMAGE (get_media_type path)) ;;
         modify_task task (set_status FAILED) ;;
         modify_task task (set_error (Some (exc_str e))) ;;
         t <- read_task task ;;
         ret (tasks ++ [t]))).

End WithWorld.
End Service.

(** ** api/routes.py: the batch runner *)

Module Routes.
Import Models.

(** [TaskStatus.value] *)
Definition status_value (s : TaskStatus) : string :=
  match s with
  | PENDING => "pending"
  | UPLOADING => "uploading"
  | CONVERTING => "converting"
  | COMPLETED => "completed"
  | FAILED => "failed"
  end.

(** The arguments of [record_activity] for one task. *)
Definition activity_of (session_id batch_id : string) (t : ConversionTask)
  : ActivityRow :=
  mkActivity session_id (task_id t) (filename t) (status_value (status t))
    (Some batch_id) (input_size t)
    (match output_sizes t with
     | [] => None
     | l => Some (foldr Z.add 0 l)
     end)
    (Z.of_nat (length (output_paths t))).

(** [[(t.task_id, t.output_paths) for t in tasks if t.output_paths]] *)
Definition task_id_to_paths_of (tasks : list ConversionTask)
  : list (string * list string) :=
  map (fun t => (task_id t, output_paths t))
    (filter (fun t => output_paths t ≠ []) tasks).

(** [{t.task_id: t.filename for t in tasks}]: a later task wins. *)
Definition task_id_to_filename_of (tasks : list ConversionTask)
  : gmap string string :=
  fold_left (fun m t => <[task_id t := filename t]> m) tasks ∅.

Definition is_OSError (c : ExcClass) : bool :=
  match c with OSError | FileNotFoundError => true | _ => false end.

Section WithWorld.
Context {W : Type} `{World W} (cfg : Config.Settings).

(** The [finally] block: the uploaded sources are removed. *)
Definition cleanup_uploads (uploaded : list PathLib.Path) : M W unit :=
  for_each uploaded (fun d =>
    there <- call (path_exists d) ;;
    if there then
      try_except (call_r (path_unlink d))
        (fun e => if is_OSError (exc_class e) then ret tt else raise e)
    else ret tt).

(** The [try] block of [_run_batch_and_zip]. The call
    [svc.convert_many(...)], which fans the conversions out over the thread
    pool, is the computation [convert_many]: it yields the task objects as
    they are once every conversion has resolved, or raises. *)
Definition run_batch_body (convert_many : M W (list ConversionTask))
    (batch_id zip_folder_structure : string) (session_id : option string)
  : M W unit :=
  tasks <- convert_many ;;
  match session_id with
  | Some sid =>
      if bool_decide (sid = "") then ret tt
      else for_each tasks (fun t =>
             call_r (db_record_activity (activity_of sid batch_id t)))
  | None => ret tt
  end ;;
  let task_id_to_paths := task_id_to_paths_of tasks in
  match task_id_to_paths with
  | _ :: _ =>
      let task_id_to_filename := task_id_to_filename_of tasks in
      zip_name <-
        Batch.create_zip_from_task_outputs cfg batch_id task_id_to_paths
          (if bool_decide (zip_folder_structure = "") then "flat"
           else zip_folder_structure)
          (Some task_id_to_filename) ;;
      Batch.set_batch_completed batch_id zip_name
        (Some (map fst task_id_to_paths))
  | [] => Batch.set_batch_failed batch_id "No outputs produced"
  end.

(** [_run_batch_and_zip] *)
Definition _run_batch_and_zip (convert_many : M W (list ConversionTask))
    (batch_id : string) (uploaded : list PathLib.Path)
    (zip_folder_structure : string) (session_id : option string)
  : M W unit :=
  try_finally
    (try_except
       (run_batch_body convert_many batch_id zip_folder_structure session_id)
       (fun e => Batch.set_batch_failed batch_id (exc_str e)))
    (cleanup_uploads uploaded).

End WithWorld.
End Routes.

(** ** The upload handlers, before a file is stored (api/routes.py) *)

Module Uploads.

(** [HTTPException(status_code, detail)] *)
Record HTTPException := mkHTTP {
  status_code : Z;
  detail : string
}.

(** The limits read from the environment; [MAX_VIDEOS_PER_UPLOAD] is the
    constant 1. *)
Record Limits := mkLimits {
  MAX_IMAGES_PER_UPLOAD : Z;
  MAX_IMAGE_SIZE_BYTES : Z;
  MAX_VIDEO_SIZE_BYTES : Z
}.

Definition MAX_VIDEOS_PER_UPLOAD : Z := 1.

(** [IMAGE_EXTENSIONS | VIDEO_EXTENSIONS] *)
Definition ALL_EXTENSIONS : list string :=
  Config.IMAGE_EXTENSIONS ++ Config.VIDEO_EXTENSIONS.

(** [_is_image_ext] *)
Definition _is_image_ext (ext : string) : bool :=
  bool_decide (PyStr.lower ext ∈ Config.IMAGE_EXTENSIONS).

(** [_max_upload_bytes_for_ext] *)
Definition _max_upload_bytes_for_ext (lim : Limits) (ext : string) : Z :=
  if _is_image_ext ext then MAX_IMAGE_SIZE_BYTES lim
  else MAX_VIDEO_SIZE_BYTES lim.

(** [text.split(c)], on the characters. *)
Fixpoint split_l (c : ascii) (l : list ascii) : list (list ascii) :=
  match l with
  | [] => [[]]
  | d :: l' =>
      if bool_decide (d = c) then [] :: split_l c l'
      else match split_l c l' with
           | w :: ws => (d :: w) :: ws
           | [] => [[d]]
           end
  end.

(** The components [PurePosixPath] keeps: [x and x != '.']. *)
Definition kept (w : list ascii) : bool :=
  negb (bool_decide (w = [])) && negb (bool_decide (w = ["."%char])).

Definition parts_l (l : list ascii) : list (list ascii) :=
  List.filter kept (split_l "/" l).

Definition parts (text : string) : list string :=
  map PyStr.str (parts_l (PyStr.chars text)).

(** The root, as [posixpath.splitroot] finds it: one slash, or two when the
    text starts with exactly two. *)
Definition root (text : string) : string :=
  let p := PyStr.chars text in
  if negb (bool_decide (p !! 0%nat = Some "/"%char)) then ""
  else if negb (bool_decide (p !! 1%nat = Some "/"%char))
          || bool_decide (p !! 2%nat = Some "/"%char)
  then "/"
  else "//".

Fixpoint join (sep : string) (l : list string) : string :=
  match l with
  | [] => ""
  | [x] => x
  | x :: l' => x +:+ sep +:+ join sep l'
  end.

(** [Path(text).name]: the last component, if any. *)
Definition name_l (l : list ascii) : list ascii := List.last (parts_l l) [].

Definition name_of (text : string) : string :=
  PyStr.str (name_l (PyStr.chars text)).

(** [Path(text)] as its text in normal form: empty components, [.]
    components and a trailing slash are gone. *)
Definition path_of (text : string) : PathLib.Path :=
  let tail := parts text in
  if bool_decide (root text = "") && bool_decide (tail = []) then "."
  else root text +:+ join "/" tail.

(** [posixpath.join(a, b)] *)
Definition posix_join (a b : string) : string :=
  if PathLib.is_absolute b then b
  else if bool_decide (a = "")
          || bool_decide (last (PyStr.chars a) = Some "/"%char)
  then a +:+ b
  else a +:+ "/" +:+ b.

(** [Path(file.filename or "").suffix.lower()] *)
Definition ext_of (filename : option string) : string :=
  PyStr.lower (PathLib.suffix (path_of (default "" filename))).

(** The list [to_upload]: the files with a supported extension, each with
    its extension. *)
Definition to_upload_of (filenames : list (option string))
  : list (option string * string) :=
  omap (fun fn => if bool_decide (ext_of fn ∈ ALL_EXTENSIONS)
                  then Some (fn, ext_of fn) else None) filenames.

Definition mb (bytes : Z) : Z := bytes `div` (1024 * 1024).

(** The checks of [upload_multiple] and [upload_batch] between reading the
    file names and storing the first file. *)
Definition check_uploads (lim : Limits) (filenames : list (option string))
  : HTTPException + list (option string * string) :=
  let to_upload := to_upload_of filenames in
  match to_upload with
  | [] => inl (mkHTTP 400 "No valid files uploaded")
  | _ =>
      let has_video :=
        existsb (fun item => negb (_is_image_ext item.2)) to_upload in
      if has_video then
        if MAX_VIDEOS_PER_UPLOAD <? Z.of_nat (length to_upload) then
          inl (mkHTTP 400
                 ("Only " +:+ pretty MAX_VIDEOS_PER_UPLOAD
                  +:+ " video at a time (max "
                  +:+ pretty (mb (MAX_VIDEO_SIZE_BYTES lim)) +:+ " MB)"))
        else inr to_upload
      else
        if MAX_IMAGES_PER_UPLOAD lim <? Z.of_nat (length to_upload) then
          inl (mkHTTP 400
                 ("Max " +:+ pretty (MAX_IMAGES_PER_UPLOAD lim)
                  +:+ " images per upload (max "
                  +:+ pretty (mb (MAX_IMAGE_SIZE_BYTES lim))
                  +:+ " MB each)"))
        else inr to_upload
  end.

(** The path an upload is stored under: [UPLOAD_DIR / f"{prefix}{name}"],
    where the prefix is [f"{task_id}_"] in [upload_multiple] and
    [f"{batch_id}_{uuid4().hex[:8]}_"] in [upload_batch]. *)
Definition stored_path (cfg : Config.Settings) (prefix : string)
    (filename : option string) : PathLib.Path :=
  path_of (posix_join (Config.UPLOAD_DIR cfg)
             (prefix +:+ default "None" filename)).

End Uploads.

(** ** The crop form fields (api/routes.py, [_parse_crop]) *)

Module CropForm.
Import PyFloat.

(** The [int] literals [0] and [1] as the binary64 values they compare
    equal to, and the literal [1.001]. *)
Definition f0 : float := S754_zero false.
Definition f1 : float := S754_finite false 4503599627370496 (-52).
Definition f1_001 : float := S754_finite false 4508103226997866 (-52).

(** [_parse_crop]: the form fields arrive as optional floats, on which
    [float(...)] is the identity. *)
Definition _parse_crop (crop_x crop_y crop_width crop_height : option float)
  : option Service.Crop :=
  match crop_x, crop_y, crop_width, crop_height with
  | Some x, Some y, Some w, Some h =>
      if negb (SFleb f0 x && SFleb x f1 && (SFleb f0 y && SFleb y f1)
               && (SFltb f0 w && SFleb w f1) && (SFltb f0 h && SFleb h f1)
               && SFleb (add x w) f1_001 && SFleb (add y h) f1_001)
      then None
      else Some (x, y, w, h)
  | _, _, _, _ => None
  end.

End CropForm.

(** ** Downloading an output (api/routes.py, [download_output]) *)

Module Downloads.
Import Models Uploads.

Section WithWorld.
Context {W : Type} `{World W} (cfg : Config.Settings).

(** [download_output]: the [HTTPException] it raises, or the path handed to
    [FileResponse]. *)
Definition download_output (task_id filename : string)
  : M W (HTTPException + PathLib.Path) :=
  ts <- get_tasks ;;
  match ts !! task_id with
  | None => ret (inl (mkHTTP 404 "Task not found"))
  | Some task =>
      let path := path_of (posix_join (Config.OUTPUT_DIR cfg) filename) in
      (is_file <- call (path_is_file path) ;;
       if negb is_file then ret (inl (mkHTTP 404 "File not found"))
       else if negb (bool_decide
                       (filename ∈ map name_of (output_paths task)))
       then ret (inl (mkHTTP 403 "File not part of this task"))
       else ret (inr path))
  end.

End WithWorld.
End Downloads.


(** ** A simulated world

    One instance of [World], used to run the engine on concrete inputs: a
    disk of files with sizes, of which some decode as images, a queue of
    identifiers for [uuid4], a budget of writes after which the disk is full,
    switches for ffmpeg and the archive directory, a number of calls the
    database still answers, and a sweeper that, when on, removes every
    output file as soon as it is written. *)

Module Sim.

Record Disk := mkDisk {
  uuids : list string;
  files : gmap string Z;
  images : gmap string (string * Z * Z);
  writes_left : nat;
  ffmpeg : bool;
  zip_writable : bool;
  db_calls_left : nat;
  sweeper : bool;
  archive : list (string * string)
}.

Definition with_uuids (u : list string) (d : Disk) : Disk :=
  mkDisk u (files d) (images d) (writes_left d) (ffmpeg d) (zip_writable d)
    (db_calls_left d) (sweeper d) (archive d).
Definition with_files (f : gmap string Z) (d : Disk) : Disk :=
  mkDisk (uuids d) f (images d) (writes_left d) (ffmpeg d) (zip_writable d)
    (db_calls_left d) (sweeper d) (archive d).
Definition with_writes_left (n : nat) (d : Disk) : Disk :=
  mkDisk (uuids d) (files d) (images d) n (ffmpeg d) (zip_writable d)
    (db_calls_left d) (sweeper d) (archive d).
Definition with_archive (a : list (string * string)) (d : Disk) : Disk :=
  mkDisk (uuids d) (files d) (images d) (writes_left d) (ffmpeg d)
    (zip_writable d) (db_calls_left d) (sweeper d) a.

Definition no_such_file (p : string) : PyExc :=
  mkExc FileNotFoundError
    ("[Errno 2] No such file or directory: '" +:+ p +:+ "'").

Definition sim_uuid4 (d : Disk) : string * Disk :=
  match uuids d with
  | u :: r => (u, with_uuids r d)
  | [] => ("00000000-0000-4000-8000-000000000000", d)
  end.

Definition sim_is_file (p : string) (d : Disk) : bool * Disk :=
  (bool_decide (is_Some (files d !! p)), d).

Definition sim_stat_size (p : string) (d : Disk) : result Z * Disk :=
  match files d !! p with
  | Some n => (Ok n, d)
  | None => (Raise (no_such_file p), d)
  end.

Definition sim_unlink (p : string) (d : Disk) : result unit * Disk :=
  match files d !! p with
  | Some _ => (Ok tt, with_files (delete p (files d)) d)
  | None => (Raise (no_such_file p), d)
  end.

Definition sim_image_open (p : string) (d : Disk) : result PIL.Image * Disk :=
  match files d !! p, images d !! p with
  | Some _, Some (m, w, h) => (Ok (PIL.mkImage m w h (PIL.PxFile p)), d)
  | Some _, None =>
      (Raise (mkExc OtherException
                ("cannot identify image file '" +:+ p +:+ "'")), d)
  | None, _ => (Raise (no_such_file p), d)
  end.

Definition sim_write (p : string) (n : Z) (d : Disk) : result unit * Disk :=
  match writes_left d with
  | O => (Raise (mkExc OSError "[Errno 28] No space left on device"), d)
  | S k =>
      if sweeper d then (Ok tt, with_writes_left k d)
      else (Ok tt, with_writes_left k (with_files (<[p := n]> (files d)) d))
  end.

Definition sim_image_save (img : PIL.Image) (p : string) (kw : SaveKw)
    (d : Disk) : result unit * Disk :=
  sim_write p (PIL.width img * PIL.height img) d.

Definition sim_subprocess_run (cmd : list string) (d : Disk)
  : result CompletedProcess * Disk :=
  if ffmpeg d then
    match sim_write (List.last cmd "") 1000 d with
    | (Ok _, d') => (Ok (mkCompleted 0 "" ""), d')
    | (Raise _, d') => (Ok (mkCompleted 1 "" "No space left on device"), d')
    end
  else (Raise (no_such_file "ffmpeg"), d).

Definition sim_zip_create (p : string) (d : Disk) : result unit * Disk :=
  if zip_writable d then (Ok tt, with_archive [] d)
  else (Raise (mkExc OSError
                 ("[Errno 13] Permission denied: '" +:+ p +:+ "'")), d).

Definition sim_zip_write (zp p arc : string) (d : Disk)
  : result unit * Disk :=
  (Ok tt, with_archive (archive d ++ [(p, arc)]) d).

Definition with_db_calls_left (n : nat) (d : Disk) : Disk :=
  mkDisk (uuids d) (files d) (images d) (writes_left d) (ffmpeg d)
    (zip_writable d) n (sweeper d) (archive d).

Definition sim_db {A} (_ : A) (d : Disk) : result unit * Disk :=
  match db_calls_left d with
  | O => (Raise (mkExc OtherException "database is locked"), d)
  | S k => (Ok tt, with_db_calls_left k d)
  end.

#[global] Instance sim_world : World Disk := {|
  uuid4 := sim_uuid4;
  path_is_file := sim_is_file;
  path_exists := sim_is_file;
  path_stat_size := sim_stat_size;
  path_unlink := sim_unlink;
  image_open := sim_image_open;
  image_save := sim_image_save;
  subprocess_run := sim_subprocess_run;
  zip_create := sim_zip_create;
  zip_write := sim_zip_write;
  zip_close := fun _ d => (Ok tt, d);
  db_save_batch := fun a b c e => sim_db (a, b, c, e);
  db_update_batch_status := fun a b c e f => sim_db (a, b, c, e, f);
  db_record_activity := fun a => sim_db a
|}.

(** A healthy machine holding the upload [/up/photo.png], an 800x600 RGB
    image of 5000 bytes, and the video [/up/clip.mp4]. *)
Definition disk0 : Disk :=
  mkDisk ["3f2a9c1e-7b4d-4e21-9a55-0c1d2e3f4a5b";
          "8d77e0aa-1c2b-4f3e-8a9b-112233445566"]
    (list_to_map [("/up/photo.png", 5000); ("/up/clip.mp4", 90000)])
    (list_to_map [("/up/photo.png", ("RGB", 800, 600))])
    100 true true 100 false [].

(** The same machine with the archive directory read-only, with the sweeper
    running, and with room for one more file. *)
Definition disk_no_zip : Disk :=
  mkDisk (uuids disk0) (files disk0) (images disk0) 100 true false 100
    false [].

Definition state0 (d : Disk) : State Disk := mkState ∅ ∅ d.


End Sim.

Module SimStore.
Import Sim BatchLookup.

(** A database that holds the one batch [batch-7], completed. *)
Definition stored_row : BatchRow :=
  mkBatchRow "batch-7" "completed" ["t1"; "t2"] None (Some "batch-7.zip").

#[global] Instance sim_store : BatchStore Disk := {|
  db_get_batch := fun id d =>
    (Ok (if bool_decide (id = "batch-7") then Some stored_row else None), d)
|}.

End SimStore.


(** * Properties *)

(** ** Quality derivation (conversion/service.py, [_convert_image]) *)

Module QualityProps.
Import Service.

(** [int(p * 0.9)] as the source computes it. *)
Definition int_scaled (p : Z) : result Z :=
  let? f := PyFloat.int_mul p PyFloat.f0_9 in PyFloat.to_int f.

(** The same map in exact integer arithmetic. *)
Definition quality_of_percent (p : Z) : Z :=
  Z.max 25 (Z.min 95 (95 - 9 * p / 10)).

Definition percents : list Z := map Z.of_nat (seq 0 81).

Lemma percents_spec (p : Z) : 0 <= p <= 80 -> p ∈ percents.
Proof.
  intros Hp. unfold percents.
  apply list_elem_of_fmap. exists (Z.to_nat p). split; [lia|].
  apply list_elem_of_In, in_seq. lia.
Qed.

(** The binary64 product [p * 0.9] truncates to [9p/10] on the whole range:
    the rounding of [0.9] and of the product never crosses an integer. *)
Lemma int_scaled_exact (p : Z) :
  0 <= p <= 80 -> int_scaled p = Ok (9 * p / 10).
Proof.
  intros Hp.
  assert (Hall : forallb (fun p => match int_scaled p with
                                   | Ok i => i =? 9 * p / 10
                                   | Raise _ => false
                                   end) percents = true)
    by (vm_compute; reflexivity).
  rewrite forallb_forall in Hall.
  specialize (Hall p (proj1 (list_elem_of_In _ _) (percents_spec p Hp))).
  destruct (int_scaled p) as [i|e]; [|discriminate].
  f_equal. lia.
Qed.

Lemma derive_quality_in_range cfg web (p : Z) :
  0 <= p <= 80 ->
  derive_quality cfg web (Some p) = Ok (quality_of_percent p).
Proof.
  intros Hp. unfold derive_quality.
  replace ((0 <=? p) && (p <=? 80)) with true
    by (symmetry; apply andb_true_intro; split; lia).
  pose proof (int_scaled_exact p Hp) as Hi. unfold int_scaled in Hi.
  destruct (PyFloat.int_mul p PyFloat.f0_9) as [f|e]; simpl in *;
    [|discriminate].
  rewrite Hi. reflexivity.
Qed.

Lemma quality_of_percent_antitone (p q : Z) :
  p <= q -> quality_of_percent q <= quality_of_percent p.
Proof.
  intros Hpq. unfold quality_of_percent.
  assert (9 * p / 10 <= 9 * q / 10) by (apply Z.div_le_mono; lia).
  lia.
Qed.

(** C5. For a size-reduction percent [p] in [0, 80] the quality handed to the
    encoders is [max(25, min(95, 95 - int(p * 0.9)))], where the float product
    truncates to [9p/10]; the quality does not increase when the percent grows
    from [p] to [q]; for an absent percent or one outside [0, 80] the quality
    is the web-optimized setting when [web_optimized] holds and the default
    setting otherwise. *)
Theorem quality_mapping (cfg : Config.Settings) (web_optimized : bool)
    (p q : Z) (Hp : 0 <= p) (Hpq : p <= q) (Hq : q <= 80) :
  let base := if web_optimized then Config.WEB_OPTIMIZED_QUALITY cfg
              else Config.DEFAULT_QUALITY cfg in
  (exists i, int_scaled p = Ok i /\
     derive_quality cfg web_optimized (Some p)
     = Ok (Z.max 25 (Z.min 95 (95 - i)))) /\
  (exists a b,
     derive_quality cfg web_optimized (Some p) = Ok a /\
     derive_quality cfg web_optimized (Some q) = Ok b /\ b <= a) /\
  (forall r, ~ (0 <= r <= 80) ->
     derive_quality cfg web_optimized (Some r) = Ok base) /\
  derive_quality cfg web_optimized None = Ok base.
Proof.
  intros base. repeat split.
  - exists (9 * p / 10). split; [apply int_scaled_exact; lia|].
    apply derive_quality_in_range. lia.
  - exists (quality_of_percent p), (quality_of_percent q).
    repeat split; try (apply derive_quality_in_range; lia).
    apply quality_of_percent_antitone, Hpq.
  - intros r Hr. unfold derive_quality.
    replace ((0 <=? r) && (r <=? 80)) with false; [reflexivity|].
    symmetry. apply andb_false_iff. lia.
Qed.

Lemma quality_mapping_witness :
  derive_quality Config.default_settings false (Some 10) = Ok 86 /\
  derive_quality Config.default_settings false (Some 80) = Ok 25 /\
  derive_quality Config.default_settings false (Some 81) = Ok 90.
Proof.
  pose proof (quality_mapping Config.default_settings false 10 80
                ltac:(lia) ltac:(lia) ltac:(lia)) as (_ & _ & Hout & _).
  split; [reflexivity | split; [reflexivity | apply Hout; lia]].
Defined.

End QualityProps.

(** ** Exact-size resizing (conversion/resize.py) *)

Module ResizeProps.
Import PIL Resize.

Ltac inv_rbind :=
  repeat match goal with
  | H : rbind ?r _ = Ok _ |- _ =>
      let x := fresh "x" in
      let E := fresh "E" in
      destruct r as [x|?] eqn:E; simpl in H; [|discriminate H]
  | H : (let '(_, _) := ?p in _) = Ok _ |- _ => destruct p; simpl in H
  | H : match ?p with (_, _) => _ end = Ok _ |- _ => destruct p; simpl in H
  end.

Ltac case_if_in H :=
  match type of H with
  | context [if ?b then _ else _] => destruct b eqn:?
  end.

Lemma crop_box_size img l t w h out :
  crop img l t (l + w) (t + h) = Ok out -> size out = (w, h).
Proof.
  unfold crop. repeat case_match; intros [= <-]. unfold size; simpl.
  f_equal; lia.
Qed.

Lemma new_size m w h c out : new m w h c = Ok out -> size out = (w, h).
Proof. unfold new. case_match; intros [= <-]. reflexivity. Qed.

Lemma paste_size out img x y : size (paste out img x y) = size out.
Proof. reflexivity. Qed.

Lemma resize_to_fit_rec_size fuel img tw th fill_mode fill_color out :
  resize_to_fit_rec fuel img tw th fill_mode fill_color = Some (Ok out) ->
  size out = (tw, th).
Proof.
  revert img fill_mode fill_color out.
  induction fuel as [|fuel IH]; intros img fill_mode fill_color out;
    [discriminate|].
  cbn -[resize crop new PyFloat.int_truediv PyFloat.int_mul PyFloat.to_int
        PyFloat.max PyFloat.min Z.div].
  destruct ((width img =? tw) && (height img =? th)) eqn:Esame.
  { intros [= <-]. apply andb_prop in Esame as [Hw Hh].
    apply Z.eqb_eq in Hw, Hh. unfold copy, size.
    case_bool_decide; simpl; congruence. }
  destruct (rbind (PyFloat.int_truediv tw (width img)) _) as [[cover fit]|e];
    [|discriminate].
  repeat case_bool_decide.
  all: try apply IH.
  all: intros [= Hres]; inv_rbind; try case_if_in Hres; inv_rbind.
  all: first [ eapply crop_box_size, Hres
             | eapply new_size, Hres
             | injection Hres as <-; rewrite paste_size;
               eapply new_size; eassumption ].
Qed.

(** X1. Whatever [resize_to_fit] returns has exactly the target size, in
    every fill mode. *)
Lemma resize_to_fit_size img tw th fill_mode fill_color out :
  resize_to_fit img tw th fill_mode fill_color = Ok out ->
  size out = (tw, th).
Proof.
  unfold resize_to_fit.
  destruct (resize_to_fit_rec 2 img tw th fill_mode fill_color)
    as [[o|e]|] eqn:E; simpl; intros [= <-].
  eapply resize_to_fit_rec_size, E.
Qed.

(** Two levels of the body always suffice: the fall-back call is made
    with the mode ["crop"]. *)
Lemma resize_to_fit_rec_fuel n img tw th fill_mode fill_color :
  is_Some (resize_to_fit_rec 2 img tw th fill_mode fill_color) /\
  resize_to_fit_rec (S (S n)) img tw th fill_mode fill_color
  = resize_to_fit_rec 2 img tw th fill_mode fill_color.
Proof.
  cbn -[resize crop new PyFloat.int_truediv PyFloat.int_mul PyFloat.to_int
        PyFloat.max PyFloat.min Z.div].
  destruct ((width img =? tw) && (height img =? th)); [eauto|].
  destruct (rbind (PyFloat.int_truediv tw (width img)) _) as [[cover fit]|e];
    [|eauto].
  repeat case_bool_decide; try done; (split; [|reflexivity]).
  all: repeat match goal with
       | |- is_Some (if ?b then _ else _) => destruct b
       | |- is_Some (match ?r with Ok _ => _ | Raise _ => _ end) =>
           destruct r as [[? ?]|?]
       | |- is_Some (Some _) => eauto
       end.
Qed.

(** A landscape photograph of 800 by 600 pixels. *)
Definition img800 : Image := mkImage "RGB" 800 600 (PxFile "/up/photo.jpg").

Lemma resize_to_fit_size_witness :
  exists out, resize_to_fit img800 1080 1080 "blur" None = Ok out /\
              size out = (1080, 1080).
Proof.
  eexists. split; [vm_compute; reflexivity|].
  apply (resize_to_fit_size img800 1080 1080 "blur" None).
  vm_compute. reflexivity.
Defined.

(** The 800x600 photograph and the square target 1080x1080. Mode ["crop"]
    scales by 1.8 to 1440x1080 and cuts the middle 1080 columns; mode
    ["color"] with black scales by 1.35 to 1080x810 and pastes that 135
    rows down a black 1080x1080 canvas. *)
Lemma resize_to_fit_square_target :
  resize_to_fit img800 1080 1080 "crop" None
  = Ok (mkImage "RGB" 1080 1080
          (PxCrop 180 0 1260 1080
             (PxResize 1440 1080 (PxFile "/up/photo.jpg")))) /\
  hex_to_rgb "#000000" = Ok (0, 0, 0) /\
  resize_to_fit img800 1080 1080 "color" (Some (0, 0, 0))
  = Ok (mkImage "RGB" 1080 1080
          (PxPaste (PxSolid (0, 0, 0))
             (PxResize 1080 810 (PxFile "/up/photo.jpg")) 0 135)).
Proof. vm_compute. repeat split; reflexivity. Qed.

(** Mode ["crop"] makes no use of the fill colour. *)
Lemma resize_to_fit_crop_ignores_fill img tw th (c1 c2 : option Color) :
  resize_to_fit img tw th "crop" c1 = resize_to_fit img tw th "crop" c2.
Proof.
  unfold resize_to_fit.
  cbn -[resize crop new PyFloat.int_truediv PyFloat.int_mul PyFloat.to_int
        PyFloat.max PyFloat.min Z.div].
  destruct ((width img =? tw) && (height img =? th)); [reflexivity|].
  destruct (rbind (PyFloat.int_truediv tw (width img)) _) as [[cover fit]|e];
    reflexivity.
Qed.

(** Mode ["color"], when the image has not the target size already,
    returns a canvas of the fill colour, with or without the scaled image
    pasted on it. *)
Lemma resize_to_fit_color_canvas img tw th (fill : option Color) out :
  size img <> (tw, th) ->
  resize_to_fit img tw th "color" fill = Ok out ->
  pixels out = PxSolid (default default_gray fill) \/
  exists pasted x y,
    pixels out = PxPaste (PxSolid (default default_gray fill)) pasted x y.
Proof.
  intros Hsize. unfold resize_to_fit.
  cbn -[resize crop new PyFloat.int_truediv PyFloat.int_mul PyFloat.to_int
        PyFloat.max PyFloat.min Z.div].
  destruct ((width img =? tw) && (height img =? th)) eqn:Esame.
  { apply andb_prop in Esame as [Hw%Z.eqb_eq Hh%Z.eqb_eq].
    contradiction Hsize. unfold size. congruence. }
  destruct (rbind (PyFloat.int_truediv tw (width img)) _) as [[cover fit]|e];
    [|discriminate].
  simpl. intros Hres. inv_rbind. case_if_in Hres.
  - left. unfold new in Hres. case_if_in Hres; [discriminate|].
    injection Hres as <-. reflexivity.
  - right. inv_rbind. injection Hres as <-.
    match goal with E : new _ _ _ _ = Ok _ |- _ =>
      unfold new in E; case_if_in E; [discriminate|]; injection E as <- end.
    simpl. eauto.
Qed.

Lemma resize_to_fit_color_canvas_witness :
  exists out, resize_to_fit img800 1080 1080 "color" (Some (0, 0, 0)) = Ok out
    /\ (pixels out = PxSolid (0, 0, 0) \/
        exists pasted x y,
          pixels out = PxPaste (PxSolid (0, 0, 0)) pasted x y).
Proof.
  eexists. split; [vm_compute; reflexivity|].
  apply (resize_to_fit_color_canvas img800 1080 1080 (Some (0, 0, 0)));
    [vm_compute; congruence|vm_compute; reflexivity].
Defined.

(** The source image of the failing run: 49 by 49 pixels, RGB. *)
Definition img49 : Image := mkImage "RGB" 49 49 (PxFile "/up/icon.png").

(** C1. A 49x49 image and the target 1x1: [1 / 49] rounds down, so
    [49 * (1 / 49)] is the float just below 1 and [int] makes it 0. Mode
    ["crop"] (and an unknown mode, which falls back to it) hands the empty
    size to [resize], which raises; the modes ["blur"] and ["color"] test for
    the empty size and return a 1x1 image. *)
Theorem resize_to_fit_crop_empty_size :
  PyFloat.int_truediv 1 49 = Ok (S754_finite false 5882252574524729 (-58)) /\
  rbind (PyFloat.int_mul 49 (S754_finite false 5882252574524729 (-58)))
    PyFloat.to_int = Ok 0 /\
  resize_to_fit img49 1 1 "crop" None
  = Raise (mkExc ValueError "height and width must be > 0") /\
  resize_to_fit img49 1 1 "fit" None
  = Raise (mkExc ValueError "height and width must be > 0") /\
  size <$> (match resize_to_fit img49 1 1 "blur" None with
            | Ok out => Some out | Raise _ => None end) = Some (1, 1) /\
  size <$> (match resize_to_fit img49 1 1 "color" None with
            | Ok out => Some out | Raise _ => None end) = Some (1, 1).
Proof. vm_compute. repeat split; reflexivity. Qed.

End ResizeProps.

(** ** Mode and least size of resized images (conversion/resize.py) *)

Module AspectProps.
Import PIL Resize ResizeProps.

Lemma resize_mode img w h out : resize img w h = Ok out -> mode out = mode img.
Proof.
  unfold resize. repeat case_match; intros [= <-]; reflexivity.
Qed.

Lemma resize_dims img w h out :
  resize img w h = Ok out -> width out = w /\ height out = h.
Proof.
  unfold resize. destruct ((w =? width img) && (h =? height img)) eqn:E.
  - apply andb_prop in E as [Hw%Z.eqb_eq Hh%Z.eqb_eq].
    intros [= <-]. unfold copy. auto.
  - case_match; intros [= <-]. auto.
Qed.

Lemma crop_mode img l t r b out :
  crop img l t r b = Ok out -> mode out = mode img.
Proof. unfold crop. repeat case_match; intros [= <-]; reflexivity. Qed.

Lemma new_mode m w h c out : new m w h c = Ok out -> mode out = m.
Proof. unfold new. case_match; intros [= <-]. reflexivity. Qed.

Lemma rgb_mode img :
  mode (if bool_decide (mode img = "RGB") then img else convert "RGB" img)
  = "RGB".
Proof. case_bool_decide; [assumption|reflexivity]. Qed.

(** X2. [resize_keep_aspect] returns an RGB image. With no target it has the
    size of the source; with a target it has at least one pixel each way,
    so that Pillow is never handed an empty size. *)
Theorem resize_keep_aspect_result (img : Image) (tw th : option Z)
    (out : Image) :
  resize_keep_aspect img tw th = Ok out ->
  mode out = "RGB" /\
  (tw = None -> th = None -> size out = size img) /\
  (is_Some tw \/ is_Some th -> 1 <= width out /\ 1 <= height out).
Proof.
  unfold resize_keep_aspect, size. simpl.
  set (rgb := if bool_decide (mode img = "RGB") then img
              else convert "RGB" img).
  assert (Hrgb : mode rgb = "RGB") by apply rgb_mode.
  assert (Hsz : width rgb = width img /\ height rgb = height img)
    by (unfold rgb; case_bool_decide; auto).
  destruct tw as [w|], th as [h|]; intros Hres.
  4: { injection Hres as <-. unfold copy. destruct Hsz as [-> ->].
       split; [exact Hrgb|]. split; [reflexivity|].
       intros [[? [=]]|[? [=]]]. }
  all: inv_rbind; pose proof (resize_mode _ _ _ _ Hres) as Hm;
    apply resize_dims in Hres as [Hw Hh];
    (split; [congruence|]); (split; [discriminate|]); intros _; lia.
Qed.

Lemma resize_keep_aspect_result_witness :
  exists out, resize_keep_aspect img800 (Some 400) None = Ok out /\
              mode out = "RGB" /\ 1 <= width out /\ 1 <= height out.
Proof.
  eexists. split; [vm_compute; reflexivity|].
  destruct (resize_keep_aspect_result img800 (Some 400) None _ eq_refl)
    as (Hm & _ & Hsz).
  split; [exact Hm|]. apply Hsz. left. eauto.
Defined.

(** [resize_to_fit] returns an RGB image, whatever the mode of the source. *)
Lemma resize_to_fit_rgb (img : Image) (tw th : Z) (fill_mode : string)
    (fill_color : option Color) (out : Image) :
  resize_to_fit img tw th fill_mode fill_color = Ok out -> mode out = "RGB".
Proof.
  unfold resize_to_fit.
  destruct (resize_to_fit_rec 2 img tw th fill_mode fill_color)
    as [[o|e]|] eqn:E; simpl; intros [= <-].
  revert E. generalize 2%nat as fuel. intros fuel.
  revert img fill_mode fill_color o.
  induction fuel as [|fuel IH]; intros img fill_mode fill_color o;
    [discriminate|].
  cbn -[resize crop new PyFloat.int_truediv PyFloat.int_mul PyFloat.to_int
        PyFloat.max PyFloat.min Z.div].
  pose proof (rgb_mode img) as Hrgb.
  destruct ((width img =? tw) && (height img =? th)).
  { intros [= <-]. exact Hrgb. }
  destruct (rbind (PyFloat.int_truediv tw (width img)) _) as [[cover fit]|e];
    [|discriminate].
  repeat case_bool_decide.
  all: try apply IH.
  all: intros [= Hres]; inv_rbind; try case_if_in Hres; inv_rbind.
  all: repeat match goal with
       | H : resize _ _ _ = Ok _ |- _ => apply resize_mode in H
       | H : crop _ _ _ _ _ = Ok _ |- _ => apply crop_mode in H
       | H : new _ _ _ _ = Ok _ |- _ => apply new_mode in H
       end.
  all: try (injection Hres as <-); simpl in *; congruence.
Qed.

Lemma resize_keep_aspect_rgb (img : Image) (tw th : option Z) (out : Image) :
  resize_keep_aspect img tw th = Ok out -> mode out = "RGB".
Proof.
  unfold resize_keep_aspect. simpl. pose proof (rgb_mode img) as Hrgb.
  destruct tw as [w|], th as [h|]; intros Hres.
  4: { injection Hres as <-. exact Hrgb. }
  all: inv_rbind; apply resize_mode in Hres; congruence.
Qed.

End AspectProps.

(** ** Characters and strings *)

Module CharProps.

(** Every character, to settle a property of single characters by cases. *)
Definition all_chars : list ascii := map ascii_of_nat (seq 0 256).

Lemma all_chars_spec (P : ascii -> bool) :
  forallb P all_chars = true -> forall c, P c = true.
Proof.
  intros H c. rewrite forallb_forall in H. apply H.
  unfold all_chars. rewrite <- (ascii_nat_embedding c).
  apply in_map, in_seq. pose proof (nat_ascii_bounded c). lia.
Qed.

Lemma chars_str (l : list ascii) : PyStr.chars (PyStr.str l) = l.
Proof. apply list_ascii_of_string_of_list_ascii. Qed.

Lemma str_nonempty l : l <> [] -> PyStr.str l <> "".
Proof. destruct l; [congruence|discriminate]. Qed.

(** What holds of every character of a text holds of every character of
    the text stripped. *)
Lemma Forall_drop_while (P : ascii -> Prop) p l :
  Forall P l -> Forall P (PyStr.drop_while p l).
Proof.
  induction 1 as [|c l Hc Hl IH]; simpl; [constructor|].
  destruct (p c); [exact IH|constructor; assumption].
Qed.

Lemma Forall_strip (P : ascii -> Prop) s :
  Forall P (PyStr.chars s) -> Forall P (PyStr.chars (PyStr.strip s)).
Proof.
  intros H. unfold PyStr.strip, PyStr.rstrip_l, PyStr.lstrip_l.
  rewrite chars_str.
  apply Forall_rev, Forall_drop_while, Forall_rev, Forall_drop_while, H.
Qed.

End CharProps.

(** ** Hex colours (conversion/resize.py, [hex_to_rgb]) *)

Module HexProps.
Import Resize CharProps.

(** A hexadecimal digit and its value. *)
Definition hex_digit (c : ascii) : bool :=
  match PyStr.digit_in 16 c with Some _ => true | None => false end.

Definition hex_value (c : ascii) : Z := default 0 (PyStr.digit_in 16 c).

Definition pair_value (c1 c2 : ascii) : Z := 16 * hex_value c1 + hex_value c2.

Definition pair_parses (c1 c2 : ascii) : bool :=
  implb (hex_digit c1 && hex_digit c2)
    (match PyStr.parse_int 16 (PyStr.str [c1; c2]) with
     | Some v => (v =? pair_value c1 c2) && (0 <=? v) && (v <=? 255)
     | None => false
     end).

Lemma pairs_parse :
  forallb (fun c1 => forallb (pair_parses c1) all_chars) all_chars = true.
Proof. vm_compute. reflexivity. Qed.

(** [int(x, 16)] on two hexadecimal digits gives their byte. *)
Lemma int_hex_pair c1 c2 :
  hex_digit c1 = true -> hex_digit c2 = true ->
  PyStr.int 16 (PyStr.str [c1; c2]) = Ok (pair_value c1 c2) /\
  0 <= pair_value c1 c2 <= 255.
Proof.
  intros H1 H2.
  pose proof (all_chars_spec _ (all_chars_spec _ pairs_parse c1) c2) as H.
  unfold pair_parses in H. rewrite H1, H2 in H. cbn [implb andb] in H.
  unfold PyStr.int.
  destruct (PyStr.parse_int 16 (PyStr.str [c1; c2])) as [v|]; [|discriminate].
  apply andb_prop in H as [H Hhi]. apply andb_prop in H as [Hv Hlo].
  apply Z.eqb_eq in Hv. subst v. split; [reflexivity|lia].
Qed.

(** X3. Six hexadecimal digits, after the white space around them and the
    leading [#] are removed, parse to their three bytes. *)
Lemma hex_to_rgb_six_digits (s : string) (c1 c2 c3 c4 c5 c6 : ascii) :
  PyStr.chars (PyStr.lstrip_chars "#" (PyStr.strip s))
  = [c1; c2; c3; c4; c5; c6] ->
  Forall (fun c => hex_digit c = true) [c1; c2; c3; c4; c5; c6] ->
  hex_to_rgb s = Ok (pair_value c1 c2, pair_value c3 c4, pair_value c5 c6) /\
  0 <= pair_value c1 c2 <= 255 /\ 0 <= pair_value c3 c4 <= 255 /\
  0 <= pair_value c5 c6 <= 255.
Proof.
  intros Hs Hd.
  repeat match goal with H : Forall _ (_ :: _) |- _ =>
    apply Forall_cons in H as [? H] end.
  destruct (int_hex_pair c1 c2) as [E1 B1]; [done..|].
  destruct (int_hex_pair c3 c4) as [E2 B2]; [done..|].
  destruct (int_hex_pair c5 c6) as [E3 B3]; [done..|].
  split; [|done].
  unfold hex_to_rgb. cbv zeta. unfold PyStr.len, PyStr.slice. rewrite Hs.
  cbn [length take drop Nat.sub].
  rewrite bool_decide_eq_true_2 by reflexivity.
  rewrite E1; cbn [rbind]. rewrite E2; cbn [rbind]. rewrite E3. reflexivity.
Qed.

Lemma hex_to_rgb_six_digits_witness :
  hex_to_rgb " #Ff8000" = Ok (255, 128, 0).
Proof.
  exact (proj1 (hex_to_rgb_six_digits " #Ff8000" "F" "f" "8" "0" "0" "0"
                  eq_refl ltac:(repeat constructor))).
Defined.

(** Text of another length, once trimmed, yields the default gray. *)
Lemma hex_to_rgb_other_length (s : string) :
  PyStr.len (PyStr.lstrip_chars "#" (PyStr.strip s)) <> 6%nat ->
  hex_to_rgb s = Ok (128, 128, 128).
Proof.
  intros Hlen. unfold hex_to_rgb. rewrite bool_decide_eq_false_2 by done.
  reflexivity.
Qed.

Lemma hex_to_rgb_other_length_witness :
  hex_to_rgb "#fff" = Ok (128, 128, 128).
Proof. apply hex_to_rgb_other_length. vm_compute. discriminate. Defined.

(** [int] raises nothing but [ValueError]. *)
Lemma int_raises_ValueError base s e :
  PyStr.int base s = Raise e -> exc_class e = ValueError.
Proof.
  unfold PyStr.int. destruct (PyStr.parse_int base s); intros [= <-].
  reflexivity.
Qed.

(** X4. [hex_to_rgb] returns on every input. *)
Lemma hex_to_rgb_returns (s : string) : exists c, hex_to_rgb s = Ok c.
Proof.
  unfold hex_to_rgb. case_bool_decide; [|eauto].
  set (h := PyStr.lstrip_chars "#" (PyStr.strip s)).
  destruct (PyStr.int 16 (PyStr.slice 0 2 h)) as [r|e] eqn:Er; simpl.
  2: { rewrite (int_raises_ValueError _ _ _ Er). eauto. }
  destruct (PyStr.int 16 (PyStr.slice 2 4 h)) as [g|e] eqn:Eg; simpl.
  2: { rewrite (int_raises_ValueError _ _ _ Eg). eauto. }
  destruct (PyStr.int 16 (PyStr.slice 4 6 h)) as [b|e] eqn:Eb; simpl.
  2: { rewrite (int_raises_ValueError _ _ _ Eb). eauto. }
  eauto.
Qed.

(** C9. Six characters that are no hexadecimal digits, yet no default gray:
    [int(x, 16)] accepts a sign and surrounding white space, so signed and
    spaced pairs parse, to components that need not even be bytes. A well
    formed colour parses as expected and text that [int] refuses yields the
    gray. *)
Theorem hex_to_rgb_accepts_signed_pairs :
  hex_to_rgb "-1-2-3" = Ok (-1, -2, -3) /\
  hex_to_rgb "+1+2+3" = Ok (1, 2, 3) /\
  hex_to_rgb "#a b c1" = Ok (10, 11, 193) /\
  hex_to_rgb " #ff8000 " = Ok (255, 128, 0) /\
  hex_to_rgb "#ggg000" = Ok (128, 128, 128).
Proof. vm_compute. repeat split; reflexivity. Qed.

End HexProps.

(** ** Size presets (conversion/service.py, [_parse_size_presets]) *)

Module PresetProps.
Import Service CharProps.


















(** The label [²x]: superscript two (U+00B2), then [x]. *)
Definition superscript_two_x : string := String (PyStr.chr 178) "x".

(** C6. [str.isdigit] holds of the superscript two, [int] refuses it: the
    label [²x] passes the test [a.isdigit() and b == ""] and then raises
    [ValueError] out of [_parse_size_presets] instead of being dropped; the
    same list without it resolves label by label. *)
Theorem parse_size_presets_superscript_digit :
  PyStr.isdigit (String (PyStr.chr 178) "") = true /\
  is_ok (PyStr.int 10 (String (PyStr.chr 178) "")) = false /\
  exc_class <$> (match _parse_size_presets
                         (Some ["original"; superscript_two_x]) with
                 | Ok _ => None | Raise e => Some e end) = Some ValueError /\
  _parse_size_presets (Some ["original"; "nonsense"; "5000x10"; "10x20"])
  = Ok [(None, None, "original"); (Some 10, Some 20, "10x20")] /\
  _parse_size_presets (Some ["nonsense"; "0x0"]) = Ok [original].
Proof. vm_compute. repeat split; reflexivity. Qed.

End PresetProps.

(** ** The crop region (conversion/service.py, [_convert_image]) *)

Module CropProps.
Import PIL Service ResizeProps.

(** X6. The crop block leaves at least one pixel each way and stays within
    the image. *)
Lemma apply_crop_size (c : Crop) (img out : Image) :
  1 <= width img -> 1 <= height img ->
  apply_crop (Some c) img = Ok out ->
  1 <= width out <= width img /\ 1 <= height out <= height img.
Proof.
  intros Hw Hh. destruct c as [[[cx cy] cw] ch]. unfold apply_crop, size.
  intros Hres. inv_rbind. unfold crop in Hres.
  repeat case_if_in Hres; try discriminate Hres.
  injection Hres as <-. simpl. lia.
Qed.

(** One quarter and one half, as floats. *)
Definition quarter : PyFloat.float := S754_finite false 4503599627370496 (-54).
Definition half : PyFloat.float := S754_finite false 4503599627370496 (-53).

Lemma apply_crop_size_witness :
  exists out, apply_crop (Some (quarter, quarter, half, half)) img800 = Ok out
              /\ 1 <= width out <= 800 /\ 1 <= height out <= 600.
Proof.
  eexists. split; [vm_compute; reflexivity|].
  apply (apply_crop_size (quarter, quarter, half, half) img800);
    [vm_compute; discriminate..|vm_compute; reflexivity].
Defined.

(** The region (0.25, 0.25, 0.5, 0.5) of the 800x600 photograph is the
    box from (200, 150) to (600, 450): 400 by 300 pixels. *)
Lemma apply_crop_center_region :
  PyFloat.int_truediv 1 4 = Ok quarter /\ PyFloat.int_truediv 1 2 = Ok half /\
  apply_crop (Some (quarter, quarter, half, half)) img800
  = Ok (mkImage "RGB" 400 300
          (PxCrop 200 150 600 450 (PxFile "/up/photo.jpg"))).
Proof. vm_compute. repeat split; reflexivity. Qed.

End CropProps.

(** ** The mode of the images that are saved (conversion/service.py) *)

Module ModeProps.
Import PIL Resize Service ResizeProps AspectProps.

Lemma base_image_mode (img : Image) (out_formats : list string) :
  (mode (base_image img out_formats) = "RGB" \/
   mode (base_image img out_formats) = "RGBA") /\
  ("jpeg" ∈ out_formats -> mode (base_image img out_formats) = "RGB").
Proof.
  unfold base_image.
  destruct (bool_decide (mode img ∈ ["RGBA"; "P"])) eqn:Ea;
    destruct (bool_decide ("jpeg" ∈ out_formats)) eqn:Ej; simpl;
    try (split; [left; reflexivity|reflexivity]).
  all: destruct (bool_decide (mode img ∈ ["RGB"; "RGBA"])) eqn:Eb; simpl;
    try (split; [left; reflexivity|reflexivity]).
  all: apply bool_decide_eq_true in Eb;
    rewrite !elem_of_cons, elem_of_nil in Eb.
  - apply bool_decide_eq_false in Ej. split; [tauto|contradiction].
  - apply bool_decide_eq_false in Ea.
    rewrite !elem_of_cons, elem_of_nil in Ea. split; [tauto|]. intros _.
    destruct Eb as [Hm|[Hm|[]]]; [exact Hm|]. contradiction Ea. auto.
  - apply bool_decide_eq_false in Ej. split; [tauto|contradiction].
Qed.

Lemma apply_crop_mode (c : option Crop) (img out : Image) :
  apply_crop c img = Ok out -> mode out = mode img.
Proof.
  destruct c as [[[[cx cy] cw] ch]|]; [|intros [= <-]; reflexivity].
  unfold apply_crop, size. intros Hres. inv_rbind.
  eapply crop_mode, Hres.
Qed.

(** X7. The image handed to the encoders is RGB or RGBA; it is RGB whenever
    [jpeg] is among the requested formats, and whenever the size preset names
    a width or a height: the mode is settled when the source is opened, the
    crop keeps it, and resizing turns it into RGB, so that an alpha channel
    survives only at the original size. *)
Theorem work_image_mode (img : Image) (out_formats : list string)
    (crop : option Crop) (base : Image) (tw th : option Z)
    (fill_mode : string) (rgb_fill : Color) (work : Image) :
  apply_crop crop (base_image img out_formats) = Ok base ->
  preset_work base tw th fill_mode rgb_fill = Ok work ->
  (mode work = "RGB" \/ mode work = "RGBA") /\
  ("jpeg" ∈ out_formats -> mode work = "RGB") /\
  (is_Some tw \/ is_Some th -> mode work = "RGB").
Proof.
  intros Hcrop%apply_crop_mode Hwork.
  destruct (base_image_mode img out_formats) as [Hm Hj].
  rewrite <- Hcrop in Hm, Hj.
  unfold preset_work in Hwork. destruct tw as [w|], th as [h|].
  - apply resize_to_fit_rgb in Hwork. auto.
  - apply resize_keep_aspect_rgb in Hwork. auto.
  - apply resize_keep_aspect_rgb in Hwork. auto.
  - injection Hwork as <-. split; [exact Hm|]. split; [exact Hj|].
    intros [[? [=]]|[? [=]]].
Qed.

Lemma work_image_mode_witness :
  exists base work,
    apply_crop None
      (base_image (mkImage "P" 800 600 (PxFile "/up/logo.gif"))
         ["webp"; "jpeg"]) = Ok base /\
    preset_work base None None "crop" (0, 0, 0) = Ok work /\
    mode work = "RGB".
Proof.
  eexists. eexists. split; [reflexivity|]. split; [reflexivity|].
  eapply (proj1 (proj2
            (work_image_mode (mkImage "P" 800 600 (PxFile "/up/logo.gif"))
               ["webp"; "jpeg"] None _ None None "crop" (0, 0, 0)
               _ eq_refl eq_refl))).
  apply (bool_decide_unpack _). vm_compute. exact I.
Defined.

End ModeProps.

(** ** Bounds on binary64 products and sums *)

Module FloatBounds.
(** The number of binary digits bounds the number, and a bound on the
    number bounds the digits. *)
Lemma digits2_size (p : positive) : digits2_pos p = Pos.size p.
Proof. induction p; simpl; congruence. Qed.

Lemma digits_gt (p : positive) : Zpos p < 2 ^ Zpos (digits2_pos p).
Proof.
  rewrite digits2_size. pose proof (Pos.size_gt p) as H.
  apply Pos2Z.pos_lt_pos in H. rewrite Pos2Z.inj_pow in H. exact H.
Qed.

Lemma digits_le (p : positive) (k : Z) :
  0 <= k -> Zpos p < 2 ^ k -> Zpos (digits2_pos p) <= k.
Proof.
  intros Hk Hp. rewrite digits2_size.
  pose proof (Pos.size_le p) as H. apply Pos2Z.pos_le_pos in H.
  rewrite Pos2Z.inj_pow in H. change (Zpos p~0) with (2 * Zpos p) in H.
  destruct (Z_le_gt_dec (Zpos (Pos.size p)) k) as [Hle|Hgt]; [exact Hle|].
  exfalso.
  assert (2 ^ (k + 1) <= 2 ^ Zpos (Pos.size p))
    by (apply Z.pow_le_mono_r; lia).
  rewrite Z.pow_add_r, Z.pow_1_r in * by lia. lia.
Qed.

Lemma Zdigits2_le (m k : Z) :
  0 <= m -> 0 <= k -> m < 2 ^ k -> Zdigits2 m <= k.
Proof.
  intros Hm Hk Hlt. destruct m as [|p|p]; [exact Hk| |lia].
  apply digits_le; assumption.
Qed.

Lemma Zdigits2_gt (m : Z) : 0 <= m -> m < 2 ^ Zdigits2 m.
Proof.
  intros Hm. destruct m as [|p|p]; [reflexivity| |lia]. apply digits_gt.
Qed.

Lemma Zdigits2_nonneg (m : Z) : 0 <= Zdigits2 m.
Proof. destruct m; simpl; lia. Qed.

(** Shifting right divides by a power of two. *)
Lemma shr_1_m (r : shr_record) :
  0 <= shr_m r -> shr_m (shr_1 r) = shr_m r / 2.
Proof.
  destruct r as [m b s]. simpl. intros Hm.
  destruct m as [|[p|p|]|p]; try lia; cbn [shr_m].
  - reflexivity.
  - apply Z.div_unique with 1; lia.
  - apply Z.div_unique with 0; lia.
  - reflexivity.
Qed.

Lemma iter_shr_1_m (p : positive) (r : shr_record) :
  0 <= shr_m r ->
  shr_m (SpecFloat.iter_pos shr_1 p r) = shr_m r / 2 ^ Zpos p.
Proof.
  revert r. induction p as [p IH|p IH|]; intros r Hr; cbn [SpecFloat.iter_pos].
  - assert (H1 : 0 <= shr_m (shr_1 r))
      by (rewrite shr_1_m by exact Hr; apply Z.div_pos; lia).
    assert (H2 : 0 <= shr_m (SpecFloat.iter_pos shr_1 p (shr_1 r)))
      by (rewrite IH by exact H1; apply Z.div_pos; lia).
    rewrite IH by exact H2. rewrite IH by exact H1.
    rewrite shr_1_m by exact Hr.
    rewrite !Z.div_div by lia. f_equal.
    replace (Zpos p~1) with (1 + Zpos p + Zpos p) by lia.
    rewrite !Z.pow_add_r, Z.pow_1_r by lia. ring.
  - assert (H1 : 0 <= shr_m (SpecFloat.iter_pos shr_1 p r))
      by (rewrite IH by exact Hr; apply Z.div_pos; lia).
    rewrite IH by exact H1. rewrite IH by exact Hr.
    rewrite Z.div_div by lia. f_equal.
    replace (Zpos p~0) with (Zpos p + Zpos p) by lia.
    rewrite Z.pow_add_r by lia. ring.
  - rewrite shr_1_m by exact Hr. reflexivity.
Qed.

Lemma Zdigits2_abs (m k : Z) : 0 <= k -> Z.abs m < 2 ^ k -> Zdigits2 m <= k.
Proof.
  destruct m as [|p|p]; simpl; intros Hk Hm;
    [lia | apply digits_le; lia | apply digits_le; lia].
Qed.

Lemma Zdigits2_abs_gt (m : Z) : Z.abs m < 2 ^ Zdigits2 m.
Proof. destruct m as [|p|p]; simpl; [lia | apply digits_gt..]. Qed.

Lemma Zdigits2_mul (a b : positive) :
  Zdigits2 (Zpos (a * b)) <= Zdigits2 (Zpos a) + Zdigits2 (Zpos b).
Proof.
  pose proof (Zdigits2_gt (Zpos a) ltac:(lia)) as Ha.
  pose proof (Zdigits2_gt (Zpos b) ltac:(lia)) as Hb.
  pose proof (Zdigits2_nonneg (Zpos a)). pose proof (Zdigits2_nonneg (Zpos b)).
  apply Zdigits2_le; [lia..|].
  rewrite Pos2Z.inj_mul, Z.pow_add_r by lia. nia.
Qed.

Lemma Zdigits2_div (m n : Z) :
  0 <= m -> 0 <= n -> Zdigits2 (m / 2 ^ n) <= Z.max 0 (Zdigits2 m - n).
Proof.
  intros Hm Hn. pose proof (Zdigits2_gt m Hm) as Hgt.
  destruct (Z_lt_le_dec (Zdigits2 m) n) as [Hlt|Hle].
  - assert (2 ^ Zdigits2 m <= 2 ^ n) by (apply Z.pow_le_mono_r; lia).
    rewrite Z.div_small by lia. simpl. lia.
  - apply Zdigits2_le; [apply Z.div_pos; lia | lia |].
    rewrite Z.max_r by lia. apply Z.div_lt_upper_bound; [lia|].
    rewrite <- Z.pow_add_r by lia.
    replace (n + (Zdigits2 m - n)) with (Zdigits2 m) by lia. exact Hgt.
Qed.

Lemma Zdigits2_succ (m m' : Z) :
  0 <= m -> 0 <= m' <= m + 1 -> Zdigits2 m' <= Zdigits2 m + 1.
Proof.
  intros Hm Hm'. pose proof (Zdigits2_gt m Hm).
  pose proof (Zdigits2_nonneg m).
  apply Zdigits2_le; [lia..|]. rewrite Z.pow_add_r, Z.pow_1_r by lia. lia.
Qed.

Lemma shr_spec (r : shr_record) (e n : Z) :
  0 <= shr_m r ->
  shr_m (shr r e n).1 = shr_m r / 2 ^ Z.max 0 n /\
  (shr r e n).2 = e + Z.max 0 n.
Proof.
  intros Hr. destruct n as [|p|p]; simpl.
  - rewrite Z.div_1_r. lia.
  - rewrite iter_shr_1_m by exact Hr. split; reflexivity.
  - rewrite Z.div_1_r. lia.
Qed.

Lemma round_nearest_even_bounds (m : Z) (l : location) :
  m <= round_nearest_even m l <= m + 1.
Proof. destruct l as [|[]]; simpl; try lia. destruct (Z.even m); lia. Qed.

(** A value below [2 ^ B] with exponent at most [E]. *)
Definition within (B E : Z) (f : PyFloat.float) : Prop :=
  match f with
  | S754_zero _ => True
  | S754_finite _ m e => Zdigits2 (Zpos m) + e <= B /\ e <= E
  | _ => False
  end.

(** One shift of the rounding: the exponent becomes the one the format
    asks for, and the bound on the value stays. *)
Lemma shr_fexp_spec (m e B E : Z) (l : location) :
  0 <= m -> Zdigits2 m + e <= B -> e <= B -> e <= E -> -1021 <= B ->
  let r := shr_fexp PyFloat.prec PyFloat.emax m e l in
  0 <= shr_m r.1 /\ Zdigits2 (shr_m r.1) + r.2 <= B /\ r.2 <= B /\
  r.2 <= Z.max E (B - 53).
Proof.
  intros Hm Hd HeB HeE HB r. subst r. unfold shr_fexp.
  set (n := fexp PyFloat.prec PyFloat.emax (Zdigits2 m + e) - e).
  assert (Hn : n <= Z.max (Zdigits2 m - 53) (-1074 - e))
    by (subst n; unfold fexp, emin, PyFloat.prec, PyFloat.emax; lia).
  assert (Hr : 0 <= shr_m (shr_record_of_loc m l))
    by (destruct l as [|[]]; exact Hm).
  assert (Hrm : shr_m (shr_record_of_loc m l) = m)
    by (destruct l as [|[]]; reflexivity).
  destruct (shr_spec (shr_record_of_loc m l) e n Hr) as [Hsm He].
  rewrite Hsm, He, Hrm.
  pose proof (Zdigits2_div m (Z.max 0 n) Hm ltac:(lia)) as Hdiv.
  pose proof (Zdigits2_nonneg m).
  split; [apply Z.div_pos; [exact Hm | apply Z.pow_pos_nonneg; lia]|].
  lia.
Qed.

Lemma round_aux_within (s : bool) (m : positive) (e B E : Z) :
  Zdigits2 (Zpos m) + e <= B -> e <= E -> -1021 <= B -> B <= 1023 ->
  E <= 971 ->
  within (B + 1) (Z.max E (B - 52))
    (binary_round_aux PyFloat.prec PyFloat.emax s (Zpos m) e loc_Exact).
Proof.
  intros Hd HE HB HB' HE'. unfold binary_round_aux.
  pose proof (Zdigits2_nonneg (Zpos m)) as Hd0.
  assert (Hd1 : 1 <= Zdigits2 (Zpos m)) by (simpl; lia).
  pose proof (shr_fexp_spec (Zpos m) e B E loc_Exact ltac:(lia) Hd
                ltac:(lia) HE HB) as H1.
  destruct (shr_fexp PyFloat.prec PyFloat.emax (Zpos m) e loc_Exact)
    as [r1 e1]. cbv zeta in H1. simpl in H1.
  destruct H1 as (Hr1 & Hd1' & He1 & He1').
  pose proof (round_nearest_even_bounds (shr_m r1) (loc_of_shr_record r1))
    as Hrne.
  set (m2 := round_nearest_even (shr_m r1) (loc_of_shr_record r1)) in *.
  pose proof (Zdigits2_succ (shr_m r1) m2 Hr1 ltac:(lia)) as Hd2.
  pose proof (shr_fexp_spec m2 e1 (B + 1) (Z.max E (B - 53)) loc_Exact
                ltac:(lia) ltac:(lia) ltac:(lia) ltac:(lia) ltac:(lia))
    as H2.
  destruct (shr_fexp PyFloat.prec PyFloat.emax m2 e1 loc_Exact) as [r2 e2].
  cbv zeta in H2. simpl in H2. destruct H2 as (Hr2 & Hd3 & He2 & He2').
  destruct (shr_m r2) as [|p|p]; [exact I| |lia].
  replace (e2 <=? PyFloat.emax - PyFloat.prec) with true
    by (symmetry; apply Z.leb_le; unfold PyFloat.emax, PyFloat.prec; lia).
  cbn [Zdigits2] in Hd3. simpl. lia.
Qed.

Lemma iter_xO (m d : positive) : Zpos (Pos.iter xO m d) = Zpos m * 2 ^ Zpos d.
Proof.
  induction d as [|d IH] using Pos.peano_ind.
  - simpl. lia.
  - rewrite Pos.iter_succ, Pos2Z.inj_xO, IH, Pos2Z.inj_succ,
      Z.pow_succ_r by lia. lia.
Qed.

Lemma digits_iter_xO (m d : positive) :
  digits2_pos (Pos.iter xO m d) = (digits2_pos m + d)%positive.
Proof.
  induction d as [|d IH] using Pos.peano_ind.
  - simpl. lia.
  - rewrite Pos.iter_succ. simpl. rewrite IH. lia.
Qed.

Lemma shl_align_spec (m : positive) (e e' : Z) :
  let r := shl_align m e e' in
  Zdigits2 (Zpos r.1) + r.2 = Zdigits2 (Zpos m) + e /\ r.2 = Z.min e e' /\
  Zpos r.1 = Zpos m * 2 ^ (e - r.2).
Proof.
  unfold shl_align. destruct (e' - e) as [|d|d] eqn:Hd; simpl.
  - rewrite Z.sub_diag. lia.
  - rewrite Z.sub_diag. lia.
  - rewrite digits_iter_xO, iter_xO. replace (e - e') with (Zpos d) by lia.
    lia.
Qed.

Lemma binary_round_within (s : bool) (m : positive) (e B E : Z) :
  Zdigits2 (Zpos m) + e <= B -> e <= E -> -1021 <= B -> B <= 1023 ->
  E <= 971 ->
  within (B + 1) (Z.max E (B - 52))
    (binary_round PyFloat.prec PyFloat.emax s m e).
Proof.
  intros Hd HE HB HB' HE'. unfold binary_round.
  pose proof (shl_align_spec m e
                (fexp PyFloat.prec PyFloat.emax (Zpos (digits2_pos m) + e)))
    as Hal.
  destruct (shl_align m e _) as [mz ez]. cbv zeta in Hal. simpl in Hal.
  destruct Hal as (Hal1 & Hal2 & _). simpl in Hd.
  apply round_aux_within; simpl; lia.
Qed.

Lemma binary_normalize_within (m e B E : Z) (z : bool) :
  Zdigits2 m + e <= B -> e <= E -> -1021 <= B -> B <= 1023 -> E <= 971 ->
  within (B + 1) (Z.max E (B - 52))
    (binary_normalize PyFloat.prec PyFloat.emax m e z).
Proof.
  intros Hd HE HB HB' HE'.
  destruct m as [|p|p]; simpl;
    [exact I | apply binary_round_within; assumption..].
Qed.

Lemma mul_within (B1 E1 B2 E2 : Z) (a b : PyFloat.float) :
  within B1 E1 a -> within B2 E2 b ->
  -1021 <= B1 + B2 -> B1 + B2 <= 1023 -> E1 + E2 <= 971 ->
  within (B1 + B2 + 1) (Z.max (E1 + E2) (B1 + B2 - 52)) (PyFloat.mul a b).
Proof.
  intros Ha Hb HB HB' HE.
  destruct a as [sa|sa| |sa ma ea], b as [sb|sb| |sb mb eb];
    simpl in Ha, Hb; try contradiction; try exact I.
  unfold PyFloat.mul, SFmul.
  pose proof (Zdigits2_mul ma mb).
  cbn [Zdigits2] in *. apply round_aux_within; cbn [Zdigits2]; lia.
Qed.

Lemma add_within (B E : Z) (a b : PyFloat.float) :
  within B E a -> within B E b ->
  -1022 <= B -> B <= 1022 -> E <= 971 ->
  within (B + 2) (Z.max E (B - 51)) (PyFloat.add a b).
Proof.
  intros Ha Hb HB HB' HE.
  destruct a as [sa|sa| |sa ma ea], b as [sb|sb| |sb mb eb];
    simpl in Ha, Hb; try contradiction.
  - destruct sa, sb; exact I.
  - simpl. lia.
  - simpl. lia.
  - unfold PyFloat.add, SFadd. cbv zeta.
    set (ez := Z.min ea eb).
    pose proof (shl_align_spec ma ea ez) as Hma.
    pose proof (shl_align_spec mb eb ez) as Hmb.
    destruct (shl_align ma ea ez) as [ma' ea'].
    destruct (shl_align mb eb ez) as [mb' eb'].
    cbv zeta in Hma, Hmb. simpl in Hma, Hmb. simpl fst.
    destruct Hma as (Hma1 & Hma2 & _), Hmb as (Hmb1 & Hmb2 & _).
    set (sum := cond_Zopp sa (Zpos ma') + cond_Zopp sb (Zpos mb')).
    pose proof (Zdigits2_gt (Zpos ma') ltac:(lia)) as Hga.
    pose proof (Zdigits2_gt (Zpos mb') ltac:(lia)) as Hgb.
    cbn [Zdigits2] in Hga, Hgb.
    assert (Hez : 0 <= B - ez) by (subst ez; lia).
    assert (Hsum : Zdigits2 sum <= B + 1 - ez).
    { apply Zdigits2_abs; [lia|].
      assert (2 ^ Zpos (digits2_pos ma') <= 2 ^ (B - ez))
        by (apply Z.pow_le_mono_r; subst ez; lia).
      assert (2 ^ Zpos (digits2_pos mb') <= 2 ^ (B - ez))
        by (apply Z.pow_le_mono_r; subst ez; lia).
      replace (B + 1 - ez) with (B - ez + 1) by lia.
      rewrite Z.pow_add_r, Z.pow_1_r by lia.
      subst sum. destruct sa, sb; simpl cond_Zopp; lia. }
    replace (B + 2) with (B + 1 + 1) by lia.
    replace (B - 51) with (B + 1 - 52) by lia.
    apply binary_normalize_within; subst ez; lia.
Qed.

Lemma of_int_within (z K : Z) :
  0 <= z < 2 ^ K -> 0 <= K <= 1022 ->
  exists g, PyFloat.of_int z = Ok g /\ within (K + 1) (Z.max 0 (K - 52)) g.
Proof.
  intros Hz HK. unfold PyFloat.of_int.
  pose proof (binary_normalize_within z 0 K 0 false
                ltac:(pose proof (Zdigits2_le z K); lia)
                ltac:(lia) ltac:(lia) ltac:(lia) ltac:(lia)) as Hw.
  destruct (binary_normalize PyFloat.prec PyFloat.emax z 0 false)
    as [s|s| |s m e] eqn:Hg; simpl in Hw; try contradiction; simpl;
    eexists; (split; [reflexivity|]); simpl; auto.
Qed.

Lemma to_int_within (B E : Z) (f : PyFloat.float) :
  within B E f -> exists z, PyFloat.to_int f = Ok z.
Proof. destruct f; simpl; intros Hf; try contradiction; eauto. Qed.

(** What [_parse_crop] lets through. *)
Lemma unit_within (f : PyFloat.float) :
  valid_binary PyFloat.prec PyFloat.emax f = true ->
  SFleb CropForm.f0 f = true -> SFleb f CropForm.f1 = true ->
  within 1 (-52) f.
Proof.
  destruct f as [s|[]| |[] m e]; simpl; try discriminate; auto.
  unfold bounded, canonical_mantissa, fexp, emin. intros Hv H0 H1.
  apply andb_true_iff in Hv as [Hc _]. apply Z.eqb_eq in Hc.
  unfold SFleb, SFcompare, CropForm.f0, CropForm.f1 in H0, H1.
  destruct (Z.compare_spec e (-52)); try discriminate;
    unfold PyFloat.prec, PyFloat.emax in *; lia.
Qed.

End FloatBounds.

(** ** Accepted crops (api/routes.py, [_parse_crop]; conversion/service.py,
    [_convert_image]) *)

Module CropAccept.
Import PIL Service FloatBounds CropForm ResizeProps CropProps.

Lemma SFltb_leb (a b : PyFloat.float) : SFltb a b = true -> SFleb a b = true.
Proof.
  unfold SFltb, SFleb. destruct (SFcompare a b) as [[]|]; congruence.
Qed.

(** A side of the image times a bounded factor is a float [int] accepts. *)
Lemma int_mul_to_int (z B E : Z) (f : PyFloat.float) :
  0 <= z < 2 ^ 64 -> within B E f -> -1000 <= B <= 900 -> E <= 900 ->
  exists fl i, PyFloat.int_mul z f = Ok fl /\ PyFloat.to_int fl = Ok i.
Proof.
  intros Hz Hf HB HE. unfold PyFloat.int_mul.
  destruct (of_int_within z 64 Hz ltac:(lia)) as (g & -> & Hg).
  simpl rbind.
  pose proof (mul_within _ _ _ _ g f Hg Hf ltac:(lia) ltac:(lia) ltac:(lia))
    as Hm.
  destruct (to_int_within _ _ _ Hm) as [i Hi]. eauto.
Qed.

(** X8. A crop that [_parse_crop] accepts never makes the crop block of
    [_convert_image] raise: for binary64 fractions and an image whose sides
    are below [2 ^ 64], the four products are finite, [int] truncates them,
    and the clamped box is one that [Image.crop] takes. *)
Theorem accepted_crop_applies
    (crop_x crop_y crop_width crop_height : option PyFloat.float)
    (x y w h : PyFloat.float) (img : Image)
    (Hparse : _parse_crop crop_x crop_y crop_width crop_height
              = Some (x, y, w, h))
    (Hx : valid_binary PyFloat.prec PyFloat.emax x = true)
    (Hy : valid_binary PyFloat.prec PyFloat.emax y = true)
    (Hw : valid_binary PyFloat.prec PyFloat.emax w = true)
    (Hh : valid_binary PyFloat.prec PyFloat.emax h = true)
    (Hwidth : 0 <= width img < 2 ^ 64)
    (Hheight : 0 <= height img < 2 ^ 64) :
  exists out, apply_crop (Some (x, y, w, h)) img = Ok out.
Proof.
  unfold _parse_crop in Hparse.
  destruct crop_x as [x'|], crop_y as [y'|], crop_width as [w'|],
    crop_height as [h'|]; try discriminate.
  destruct (negb _) eqn:Hok in Hparse; [discriminate|].
  injection Hparse as -> -> -> ->.
  apply negb_false_iff in Hok.
  repeat match goal with
         | H : _ && _ = true |- _ => apply andb_true_iff in H as [? ?]
         end.
  assert (Wx : within 1 (-52) x) by (apply unit_within; assumption).
  assert (Wy : within 1 (-52) y) by (apply unit_within; assumption).
  assert (Ww : within 1 (-52) w)
    by (apply unit_within; [| apply SFltb_leb |]; assumption).
  assert (Wh : within 1 (-52) h)
    by (apply unit_within; [| apply SFltb_leb |]; assumption).
  pose proof (add_within 1 (-52) x w Wx Ww ltac:(lia) ltac:(lia) ltac:(lia))
    as Wxw.
  pose proof (add_within 1 (-52) y h Wy Wh ltac:(lia) ltac:(lia) ltac:(lia))
    as Wyh.
  destruct (int_mul_to_int (width img) _ _ x Hwidth Wx ltac:(lia) ltac:(lia))
    as (fl & left & Hfl & Hleft).
  destruct (int_mul_to_int (height img) _ _ y Hheight Wy ltac:(lia)
              ltac:(lia)) as (ft & top & Hft & Htop).
  destruct (int_mul_to_int (width img) _ _ _ Hwidth Wxw ltac:(lia)
              ltac:(lia)) as (fr & right & Hfr & Hright).
  destruct (int_mul_to_int (height img) _ _ _ Hheight Wyh ltac:(lia)
              ltac:(lia)) as (fb & bottom & Hfb & Hbottom).
  unfold apply_crop, size.
  rewrite Hfl. cbn [rbind]. rewrite Hleft. cbn [rbind].
  rewrite Hft. cbn [rbind]. rewrite Htop. cbn [rbind].
  rewrite Hfr. cbn [rbind]. rewrite Hright. cbn [rbind].
  rewrite Hfb. cbn [rbind]. rewrite Hbottom. cbn [rbind].
  unfold crop.
  replace (_ <? _) with false by (symmetry; apply Z.ltb_ge; lia).
  replace (_ <? _) with false by (symmetry; apply Z.ltb_ge; lia).
  eauto.
Qed.

(** The literals are the values Python gives them. *)
Lemma crop_literals :
  PyFloat.of_int 0 = Ok f0 /\ PyFloat.of_int 1 = Ok f1 /\
  PyFloat.int_truediv 1001 1000 = Ok f1_001.
Proof. vm_compute. auto. Qed.

Lemma accepted_crop_applies_witness :
  exists out, apply_crop (Some (quarter, quarter, half, half)) img800 = Ok out.
Proof.
  apply (accepted_crop_applies (Some quarter) (Some quarter) (Some half)
           (Some half));
    [vm_compute; reflexivity..| simpl; lia | simpl; lia].
Defined.

End CropAccept.

(** ** Archive folder and member names (batch.py) *)

Module SanitizeProps.
Import Batch CharProps.

(** The characters [_sanitize_folder_name] keeps. *)
Definition kept_c (c : ascii) : bool :=
  PyStr.isalnum_c c || bool_decide (c ∈ PyStr.chars "._- ").

Lemma contains_kept c s :
  kept_c c = false -> Forall (fun d => kept_c d = true) (PyStr.chars s) ->
  PyStr.contains c s = false.
Proof.
  intros Hc Hs. unfold PyStr.contains.
  induction Hs as [|d l Hd Hl IH]; [reflexivity|]. simpl.
  rewrite IH, orb_false_r. apply bool_decide_eq_false_2. congruence.
Qed.

(** X9. A sanitized name is not empty, has at most 64 characters, all of
    them letters, digits, [.], [_], [-] or spaces: neither a slash nor a
    backslash (code point 92). *)
Lemma sanitize_folder_name_safe (name : string) :
  _sanitize_folder_name name <> "" /\
  (PyStr.len (_sanitize_folder_name name) <= 64)%nat /\
  Forall (fun c => kept_c c = true)
    (PyStr.chars (_sanitize_folder_name name)) /\
  PyStr.contains "/" (_sanitize_folder_name name) = false /\
  PyStr.contains (PyStr.chr 92) (_sanitize_folder_name name) = false.
Proof.
  unfold _sanitize_folder_name.
  set (kept := PyStr.str (filter _ (PyStr.chars name))).
  assert (Hkept : Forall (fun c => kept_c c = true) (PyStr.chars kept)).
  { unfold kept. rewrite chars_str. apply Forall_forall.
    intros c [Hc _]%list_elem_of_filter. apply Is_true_true_1, Hc. }
  apply (Forall_strip _ _) in Hkept.
  set (s := if bool_decide (PyStr.strip kept = "") then "file"
            else PyStr.strip kept).
  assert (Hs : s <> "" /\ Forall (fun c => kept_c c = true) (PyStr.chars s)).
  { unfold s. case_bool_decide; [|done].
    split; [discriminate|repeat constructor]. }
  destruct Hs as [Hne Hall].
  assert (Hpre : Forall (fun c => kept_c c = true)
                   (PyStr.chars (PyStr.prefix 64 s))).
  { unfold PyStr.prefix. rewrite chars_str. apply Forall_take, Hall. }
  repeat split.
  - unfold PyStr.prefix. apply str_nonempty.
    destruct (PyStr.chars s) as [|c l] eqn:E; [|discriminate].
    contradiction Hne. rewrite <- (string_of_list_ascii_of_string s).
    unfold PyStr.chars in E. rewrite E. reflexivity.
  - unfold PyStr.len, PyStr.prefix. rewrite chars_str, length_take. lia.
  - exact Hpre.
  - apply contains_kept; [reflexivity|exact Hpre].
  - apply contains_kept; [reflexivity|exact Hpre].
Qed.

(** A folder structure other than ["by_file"] and ["by_format"] names
    the members as ["flat"] does. *)
Lemma arcname_other_structure (folder_structure task_id folder_name : string)
    (path : PathLib.Path) :
  folder_structure <> "by_file" -> folder_structure <> "by_format" ->
  arcname folder_structure task_id folder_name path
  = arcname "flat" task_id folder_name path.
Proof.
  intros H1 H2. unfold arcname.
  rewrite !(bool_decide_eq_false_2 (folder_structure = _)) by assumption.
  reflexivity.
Qed.

Lemma arcname_other_structure_witness :
  arcname "tree" "0123456789ab" "photo" "/out/photo_01234567_original.webp"
  = "01234567_photo_01234567_original.webp".
Proof.
  rewrite arcname_other_structure by discriminate. reflexivity.
Defined.

(** The folder of ["by_format"] is the lowered extension, or [bin] for
    a file without one; the folder of ["by_file"] is the folder name. *)
Lemma arcname_folders :
  arcname "by_format" "0123456789ab" "photo" "/out/photo_01234567.WebP"
  = "webp/photo_01234567.WebP" /\
  arcname "by_format" "0123456789ab" "photo" "/out/README"
  = "bin/README" /\
  arcname "by_file" "0123456789ab" "photo" "/out/photo_01234567.webp"
  = "photo/photo_01234567.webp".
Proof. vm_compute. repeat split; reflexivity. Qed.

End SanitizeProps.

(** ** A program logic for [M]

    [hoare P m Q R]: started in a state whose registries satisfy [P], the
    computation [m] either returns [a] with registries satisfying [Q a] or
    raises [e] with registries satisfying [R e]. The assertions speak about
    the two registries only, so calls into the world leave them standing. *)

Module Logic.

Section Rules.
Context {W : Type} `{World W}.

Definition Mem : Type :=
  (gmap string Models.ConversionTask * gmap string BatchModel.BatchJob)%type.

Definition mem (st : State W) : Mem := (tasks st, batches st).

Definition hoare {A} (P : Mem -> Prop) (m : M W A)
    (Q : A -> Mem -> Prop) (R : PyExc -> Mem -> Prop) : Prop :=
  forall st, P (mem st) ->
    match m st with
    | (Ok a, st') => Q a (mem st')
    | (Raise e, st') => R e (mem st')
    end.

Lemma hoare_conseq {A} (P P' : Mem -> Prop) (m : M W A) Q Q' R R' :
  hoare P' m Q' R' ->
  (forall s, P s -> P' s) ->
  (forall a s, Q' a s -> Q a s) ->
  (forall e s, R' e s -> R e s) ->
  hoare P m Q R.
Proof.
  intros Hm HP HQ HR st Hst. specialize (Hm st (HP _ Hst)).
  destruct (m st) as [[a|e] st']; auto.
Qed.

Lemma hoare_ret {A} (a : A) (P : Mem -> Prop) R :
  hoare P (ret a) (fun b s => b = a /\ P s) R.
Proof. intros st Hst. simpl. auto. Qed.

Lemma hoare_raise {A} (e : PyExc) (P : Mem -> Prop) (Q : A -> Mem -> Prop) :
  hoare P (raise e) Q (fun e' s => e' = e /\ P s).
Proof. intros st Hst. simpl. auto. Qed.

Lemma hoare_bind {A B} (m : M W A) (k : A -> M W B) P Q' Q R :
  hoare P m Q' R ->
  (forall a, hoare (Q' a) (k a) Q R) ->
  hoare P (bind m k) Q R.
Proof.
  intros Hm Hk st Hst. unfold bind. specialize (Hm st Hst).
  destruct (m st) as [[a|e] st']; [apply Hk, Hm|exact Hm].
Qed.

Lemma hoare_lift {A} (r : result A) (P : Mem -> Prop) :
  hoare P (lift r) (fun a s => r = Ok a /\ P s)
    (fun e s => r = Raise e /\ P s).
Proof. intros st Hst. destruct r; simpl; auto. Qed.

Lemma hoare_call {A} (op : W -> A * W) (P : Mem -> Prop) R :
  hoare P (call op) (fun _ s => P s) R.
Proof.
  intros st Hst. unfold call. destruct (op (world st)). exact Hst.
Qed.

Lemma hoare_call_r {A} (op : W -> result A * W) (P : Mem -> Prop) :
  hoare P (call_r op) (fun _ s => P s)
    (fun e s => P s /\ exists w, (op w).1 = Raise e).
Proof.
  intros st Hst. unfold call_r. destruct (op (world st)) as [[a|e] w] eqn:E.
  - exact Hst.
  - split; [exact Hst|]. exists (world st). rewrite E. reflexivity.
Qed.

Lemma hoare_try_except {A} (m : M W A) (h : PyExc -> M W A) P Q R R' :
  hoare P m Q R' ->
  (forall e, hoare (R' e) (h e) Q R) ->
  hoare P (try_except m h) Q R.
Proof.
  intros Hm Hh st Hst. unfold try_except. specialize (Hm st Hst).
  destruct (m st) as [[a|e] st']; [exact Hm|apply Hh, Hm].
Qed.

Lemma hoare_try_finally {A} (m : M W A) (f : M W unit) P Q R
    (I : Mem -> Prop) :
  hoare P m (fun _ => I) (fun _ => I) ->
  hoare I f (fun _ => I) (fun _ => I) ->
  (forall a s, I s -> Q a s) -> (forall e s, I s -> R e s) ->
  hoare P (try_finally m f) Q R.
Proof.
  intros Hm Hf HQ HR st Hst. unfold try_finally. specialize (Hm st Hst).
  destruct (m st) as [r st'].
  assert (HI : I (mem st')) by (destruct r; exact Hm).
  specialize (Hf st' HI). destruct (f st') as [[[]|e] st''].
  - destruct r; auto.
  - auto.
Qed.

(** The loop rule: the invariant is indexed by the items already handled
    and the loop-carried value. *)
Lemma hoare_for_fold {A S} (body : A -> S -> M W S)
    (Inv : list A -> S -> Mem -> Prop) R (l : list A) :
  forall (done : list A) (acc : S),
  (forall d x acc', (exists rest, done ++ l = d ++ x :: rest) ->
     hoare (Inv d acc') (body x acc')
       (fun acc'' => Inv (d ++ [x]) acc'') R) ->
  hoare (Inv done acc) (for_fold l acc body)
    (fun acc' => Inv (done ++ l) acc') R.
Proof.
  induction l as [|x l IH]; intros done acc Hbody.
  - rewrite app_nil_r. intros st Hst. exact Hst.
  - simpl. eapply hoare_bind.
    + apply Hbody. exists l. reflexivity.
    + intros acc'. replace (done ++ x :: l) with ((done ++ [x]) ++ l)
        by (rewrite <- app_assoc; reflexivity).
      apply IH. intros d y acc'' [rest Hrest]. apply Hbody.
      exists rest. rewrite <- Hrest, <- app_assoc. reflexivity.
Qed.

(** Reading and writing the task registry. *)
Lemma hoare_get_tasks (P : Mem -> Prop) R :
  hoare P get_tasks (fun t s => t = s.1 /\ P s) R.
Proof. intros st Hst. simpl. auto. Qed.

Lemma hoare_put_tasks (t : gmap string Models.ConversionTask)
    (P : Mem -> Prop) R :
  hoare (fun s => P (t, s.2)) (put_tasks t) (fun _ s => P s) R.
Proof. intros st Hst. exact Hst. Qed.

End Rules.

End Logic.

(** ** Reasoning about one task object *)

Module TaskLogic.
Import Models Logic.

Section Rules.
Context {W : Type} `{World W}.
Variable tid : string.

(** The registry holds the task [tid] and the task satisfies [P]. *)
Definition on_task (P : ConversionTask -> Prop) : Mem -> Prop :=
  fun s => exists t, s.1 !! tid = Some t /\ P t.

Definition thoare {A} (P : ConversionTask -> Prop) (m : M W A)
    (Q : A -> ConversionTask -> Prop) (R : PyExc -> ConversionTask -> Prop)
  : Prop :=
  hoare (on_task P) m (fun a => on_task (Q a)) (fun e => on_task (R e)).

Lemma on_task_mono (P Q : ConversionTask -> Prop) s :
  (forall t, P t -> Q t) -> on_task P s -> on_task Q s.
Proof. intros HPQ (t & Ht & HP). exists t. auto. Qed.

Lemma t_conseq {A} (m : M W A) P P' Q Q' R R' :
  thoare P' m Q' R' ->
  (forall t, P t -> P' t) ->
  (forall a t, Q' a t -> Q a t) ->
  (forall e t, R' e t -> R e t) ->
  thoare P m Q R.
Proof.
  intros Hm HP HQ HR st (t & Ht & Hpre).
  assert (Hst : on_task P' (mem st)) by (exists t; auto).
  specialize (Hm st Hst). destruct (m st) as [[a|e] st'];
    destruct Hm as (t' & Ht' & Hpost); exists t'; auto.
Qed.

Lemma t_post {A} (m : M W A) P Q Q' R :
  thoare P m Q' R -> (forall a t, Q' a t -> Q a t) -> thoare P m Q R.
Proof. intros Hm HQ. eapply t_conseq; eauto. Qed.

Lemma t_pre {A} (m : M W A) P P' Q R :
  thoare P' m Q R -> (forall t, P t -> P' t) -> thoare P m Q R.
Proof. intros Hm HP. eapply t_conseq; eauto. Qed.

Lemma t_bind {A B} (m : M W A) (k : A -> M W B) P Q' Q R :
  thoare P m Q' R -> (forall a, thoare (Q' a) (k a) Q R) ->
  thoare P (bind m k) Q R.
Proof. intros Hm Hk. eapply hoare_bind; [exact Hm|exact Hk]. Qed.

Lemma t_ret {A} (a : A) P R : thoare P (ret a) (fun b t => b = a /\ P t) R.
Proof.
  intros st (t & Ht & HP). simpl. exists t. auto.
Qed.

Lemma t_raise {A} (e : PyExc) P (Q : A -> ConversionTask -> Prop)
    (R : PyExc -> ConversionTask -> Prop) :
  (forall t, P t -> R e t) -> thoare P (raise e) Q R.
Proof. intros HR st (t & Ht & HP). simpl. exists t. auto. Qed.

Lemma t_lift {A} (r : result A) P R :
  (forall e t, r = Raise e -> P t -> R e t) ->
  thoare P (lift r) (fun a t => r = Ok a /\ P t) R.
Proof.
  intros HR st (t & Ht & HP). destruct r; simpl; exists t; auto.
Qed.

Lemma t_call {A} (op : W -> A * W) P R :
  thoare P (call op) (fun _ t => P t) R.
Proof.
  intros st Hst. unfold call. destruct (op (world st)). exact Hst.
Qed.

Lemma t_call_r {A} (op : W -> result A * W) P R :
  (forall e t, (exists w, (op w).1 = Raise e) -> P t -> R e t) ->
  thoare P (call_r op) (fun _ t => P t) R.
Proof.
  intros HR st (t & Ht & HP). unfold call_r.
  destruct (op (world st)) as [[a|e] w] eqn:E; exists t; split; auto.
  apply HR; [|exact HP]. exists (world st). rewrite E. reflexivity.
Qed.

Lemma t_modify (f : ConversionTask -> ConversionTask) P R :
  thoare P (Service.modify_task tid f)
    (fun _ t' => exists t, P t /\ t' = f t) R.
Proof.
  intros st (t & Ht & HP). simpl in *. exists (f t). split; [|eauto].
  unfold mem; simpl. rewrite lookup_alter_eq, Ht. reflexivity.
Qed.

(** Invariant forms of the rules, for commands that leave [P] standing. *)
Lemma t_modify_inv (f : ConversionTask -> ConversionTask)
    (P : ConversionTask -> Prop) R :
  (forall t, P t -> P (f t)) ->
  thoare P (Service.modify_task tid f) (fun _ t => P t) R.
Proof.
  intros Hf. eapply t_post; [apply t_modify|].
  intros _ t (t0 & HP & ->). auto.
Qed.

Lemma t_lift_inv {A} (r : result A) (P : ConversionTask -> Prop) R :
  (forall e t, r = Raise e -> P t -> R e t) ->
  thoare P (lift r) (fun _ t => P t) R.
Proof.
  intros HR. eapply t_post; [apply t_lift, HR|]. intros a t [_ HP]. exact HP.
Qed.

Lemma t_ret_inv {A} (a : A) (P : ConversionTask -> Prop) R :
  thoare P (ret a) (fun _ t => P t) R.
Proof. eapply t_post; [apply t_ret|]. intros b t [_ HP]. exact HP. Qed.

(** A fact that does not speak about the task moves to the context. *)
Lemma t_pure {A} (phi : Prop) (m : M W A) (P : ConversionTask -> Prop) Q R :
  (phi -> thoare P m Q R) -> thoare (fun t => phi /\ P t) m Q R.
Proof.
  intros Hm st (t & Ht & Hphi & HP). apply (Hm Hphi). exists t. auto.
Qed.

Lemma t_task_progress P R :
  thoare P (Service.task_progress tid) (fun _ t => P t) R.
Proof. intros st Hst. exact Hst. Qed.

Lemma t_try_except {A} (m : M W A) (h : PyExc -> M W A) P Q R R' :
  thoare P m Q R' -> (forall e, thoare (R' e) (h e) Q R) ->
  thoare P (try_except m h) Q R.
Proof. intros Hm Hh. eapply hoare_try_except; [exact Hm|exact Hh]. Qed.

Lemma t_for_fold {A S} (body : A -> S -> M W S)
    (Inv : list A -> S -> ConversionTask -> Prop) R (l : list A) (acc : S) :
  (forall d x rest acc', l = d ++ x :: rest ->
     thoare (Inv d acc') (body x acc') (fun acc'' => Inv (d ++ [x]) acc'') R)
  ->
  thoare (Inv [] acc) (for_fold l acc body) (fun acc' => Inv l acc') R.
Proof.
  intros Hbody.
  apply (hoare_for_fold body (fun d a => on_task (Inv d a))
           (fun e => on_task (R e)) l [] acc).
  intros d x acc' [rest Hrest]. eapply Hbody, Hrest.
Qed.

End Rules.

(** One step of a sequence: the first command by [tac], then the rest. *)
Ltac t_step tac := eapply t_bind; [tac|intros ?].

End TaskLogic.

(** ** The output lists of a task (conversion/service.py) *)

Module OutputProps.
Import Models Service Logic TaskLogic.

(** The paths one requested format adds: one file when the lowered format
    is accepted, none otherwise. *)
Definition produced (ok : string -> bool) (mk : string -> PathLib.Path)
    (fmt : string) : list PathLib.Path :=
  if ok (PyStr.lower fmt) then [mk (PyStr.lower fmt)] else [].

Definition image_ok (f : string) : bool :=
  bool_decide (f ∈ Config.IMAGE_OUTPUT_FORMATS).
Definition video_ok (f : string) : bool :=
  bool_decide (f ∈ Config.VIDEO_OUTPUT_FORMATS).

Definition image_path (cfg : Config.Settings) (src : PathLib.Path)
    (task suffix f : string) : PathLib.Path :=
  PathLib.joinpath (Config.OUTPUT_DIR cfg) (image_out_name src task suffix f).
Definition video_path (cfg : Config.Settings) (src : PathLib.Path)
    (task f : string) : PathLib.Path :=
  PathLib.joinpath (Config.OUTPUT_DIR cfg) (video_out_name src task f).

Definition suffix_of (p : SizePreset) : string := size_suffix p.1.1 p.1.2.

(** The paths a complete image conversion records, in order. *)
Definition image_expected (cfg : Config.Settings) (src : PathLib.Path)
    (task : string) (presets : list SizePreset) (fmts : list string)
  : list PathLib.Path :=
  presets ≫= (fun p =>
    fmts ≫= produced image_ok (image_path cfg src task (suffix_of p))).

(** The paths a complete video conversion records, in order. *)
Definition video_expected (cfg : Config.Settings) (src : PathLib.Path)
    (task : string) (fmts : list string) : list PathLib.Path :=
  fmts ≫= produced video_ok (video_path cfg src task).

Definition lens_eq (t : ConversionTask) : Prop :=
  length (output_formats t) = length (output_paths t) /\
  length (output_sizes t) = length (output_paths t).

Section WithWorld.
Context {W : Type} `{World W} (cfg : Config.Settings).

(** Reading the size of a file never fails in this world. *)
Definition stat_reliable : Prop :=
  forall p w, is_ok (path_stat_size p w).1 = true.

(** What holds of the lists wherever a conversion stops. *)
Definition lens_weak (t : ConversionTask) : Prop :=
  length (output_formats t) = length (output_paths t) /\
  (length (output_sizes t) = length (output_paths t) \/
   S (length (output_sizes t)) = length (output_paths t)) /\
  (stat_reliable -> length (output_sizes t) = length (output_paths t)).

Lemma lens_eq_weak t : lens_eq t -> lens_weak t.
Proof. intros [Hf Hs]. repeat split; auto. Qed.

Variable tid : string.

Lemma image_format_step_spec src work suffix total quality effort
    web strip progressive aggressive fmt acc cur :
  thoare tid (fun t => output_paths t = cur /\ lens_eq t)
    (image_format_step cfg src tid work suffix total quality effort web
       strip progressive aggressive fmt acc)
    (fun _ t =>
       output_paths t
       = cur ++ produced image_ok (image_path cfg src tid suffix) fmt /\
       lens_eq t)
    (fun _ t =>
       output_paths t
       `prefix_of` cur ++ produced image_ok (image_path cfg src tid suffix)
                            fmt /\
       lens_weak t).
Proof.
  unfold image_format_step, produced, image_ok. destruct acc as [step outs].
  case_bool_decide; simpl.
  - fold (image_path cfg src tid suffix (PyStr.lower fmt)).
    set (p := image_path cfg src tid suffix (PyStr.lower fmt)).
    t_step ltac:(apply t_call_r).
    { intros e t _ [-> Hl]. split; [apply prefix_app_r; reflexivity|].
      apply lens_eq_weak, Hl. }
    t_step ltac:(apply t_lift).
    { intros e t _ [-> Hl]. split; [apply prefix_app_r; reflexivity|].
      apply lens_eq_weak, Hl. }
    t_step ltac:(apply t_modify).
    t_step ltac:(apply t_modify).
    t_step ltac:(apply t_modify).
    t_step ltac:(apply t_call_r).
    { intros e t [w Hw] (t3 & (t2 & (t1 & (_ & Hc & Hf & Hs) & ->) & ->) & ->).
      unfold lens_weak; simpl. rewrite !List.length_app, Hf, Hs, Hc; simpl.
      split; [reflexivity|]. split; [lia|split; [lia|]].
      intros Hrel. specialize (Hrel p w). rewrite Hw in Hrel. discriminate. }
    t_step ltac:(apply t_modify).
    eapply t_post; [apply t_ret|].
    intros ? t [_ (t4 & (t3 & (t2 & (t1 & (_ & Hc & Hf & Hs) & ->) & ->) & ->)
                   & ->)].
    unfold lens_eq; simpl. rewrite !List.length_app, Hf, Hs, Hc; simpl.
    split; [reflexivity|]. split; lia.
  - eapply t_post; [apply t_ret|].
    intros ? t [_ [-> Hl]]. rewrite app_nil_r. auto.
Qed.

(** A loop whose every turn appends the paths [f x] appends them all. *)
Lemma loop_paths {A S} (items : list A) (body : A -> S -> M W S)
    (f : A -> list PathLib.Path) (cur : list PathLib.Path) (acc : S) :
  (forall x acc' c,
     thoare tid (fun t => output_paths t = c /\ lens_eq t) (body x acc')
       (fun _ t => output_paths t = c ++ f x /\ lens_eq t)
       (fun _ t => output_paths t `prefix_of` c ++ f x /\ lens_weak t)) ->
  thoare tid (fun t => output_paths t = cur /\ lens_eq t)
    (for_fold items acc body)
    (fun _ t => output_paths t = cur ++ (items ≫= f) /\ lens_eq t)
    (fun _ t => output_paths t `prefix_of` cur ++ (items ≫= f) /\
                lens_weak t).
Proof.
  intros Hbody.
  eapply t_conseq.
  - apply (t_for_fold tid body
             (fun d _ t => output_paths t = cur ++ (d ≫= f) /\ lens_eq t)
             (fun _ t => output_paths t `prefix_of` cur ++ (items ≫= f) /\
                         lens_weak t) items acc).
    intros d x rest acc' ->. eapply t_conseq; [apply Hbody|..].
    + intros t Ht. exact Ht.
    + intros _ t [-> Hl]. split; [|exact Hl].
      rewrite bind_app, bind_cons, app_assoc. simpl.
      rewrite app_nil_r. reflexivity.
    + intros _ t [Hp Hl]. split; [|exact Hl].
      rewrite bind_app, bind_cons, (app_assoc cur), (app_assoc (cur ++ _)).
      apply prefix_app_r. exact Hp.
  - intros t [-> Hl]. simpl. rewrite app_nil_r. auto.
  - intros ? t Ht. exact Ht.
  - intros ? t Ht. exact Ht.
Qed.

Lemma image_preset_step_spec src base fmts fill_mode rgb total quality effort
    web strip progressive aggressive preset acc cur :
  thoare tid (fun t => output_paths t = cur /\ lens_eq t)
    (image_preset_step cfg src tid base fmts fill_mode rgb total quality
       effort web strip progressive aggressive preset acc)
    (fun _ t =>
       output_paths t
       = cur ++ (fmts ≫= produced image_ok
                           (image_path cfg src tid (suffix_of preset))) /\
       lens_eq t)
    (fun _ t =>
       output_paths t
       `prefix_of` cur ++ (fmts ≫= produced image_ok
                             (image_path cfg src tid (suffix_of preset))) /\
       lens_weak t).
Proof.
  unfold image_preset_step. destruct preset as [[tw th] label].
  t_step ltac:(apply t_lift).
  { intros e t _ [-> Hl]. split; [apply prefix_app_r; reflexivity|].
    apply lens_eq_weak, Hl. }
  eapply t_pre; [apply loop_paths|].
  - intros x acc' c. apply image_format_step_spec.
  - intros t [_ Ht]. exact Ht.
Qed.

Definition norm_presets (size_presets : option (list SizePreset))
  : list SizePreset :=
  match size_presets with
  | None | Some [] => [original]
  | Some l => l
  end.

Lemma fresh_lists_ok (t : ConversionTask) (E : list PathLib.Path) :
  output_paths t = [] /\ lens_eq t ->
  output_paths t `prefix_of` E /\ lens_weak t.
Proof.
  intros [Hp Hl]. split; [rewrite Hp; apply prefix_nil|].
  apply lens_eq_weak, Hl.
Qed.

Ltac keep := intros ? Hkeep; exact Hkeep.

Lemma convert_image_spec src fmts web sp fill_mode fill_color srp strip
    progressive aggressive crop :
  thoare tid (fun t => output_paths t = [] /\ lens_eq t)
    (_convert_image cfg src fmts tid web sp fill_mode fill_color srp strip
       progressive aggressive crop)
    (fun _ t =>
       output_paths t = image_expected cfg src tid (norm_presets sp) fmts /\
       lens_eq t)
    (fun _ t =>
       output_paths t
       `prefix_of` image_expected cfg src tid (norm_presets sp) fmts /\
       lens_weak t).
Proof.
  unfold _convert_image. fold (norm_presets sp).
  set (E := image_expected cfg src tid (norm_presets sp) fmts).
  t_step ltac:(apply t_modify_inv; keep).
  t_step ltac:(apply t_modify_inv; keep).
  t_step ltac:(apply t_lift_inv).
  { intros e t _ Ht. apply fresh_lists_ok, Ht. }
  eapply t_bind with (Q' := fun _ t => output_paths t = [] /\ lens_eq t).
  { destruct fill_color as [c|]; [case_bool_decide|].
    - apply t_ret_inv.
    - apply t_lift_inv. intros e t _ Ht. apply fresh_lists_ok, Ht.
    - apply t_ret_inv. }
  intros rgb_fill.
  eapply t_try_except
    with (R' := fun _ t => output_paths t `prefix_of` E /\ lens_weak t).
  - t_step ltac:(apply t_call_r).
    { intros e t _ Ht. apply fresh_lists_ok, Ht. }
    t_step ltac:(apply t_lift_inv).
    { intros e t _ Ht. apply fresh_lists_ok, Ht. }
    t_step ltac:(apply (loop_paths _ _
                          (fun p => fmts ≫= produced image_ok
                                      (image_path cfg src tid (suffix_of p)))
                          [])).
    { intros x acc' c. apply image_preset_step_spec. }
    t_step ltac:(apply t_modify_inv; keep).
    t_step ltac:(apply t_modify_inv; keep).
    apply t_ret_inv.
  - intros e.
    t_step ltac:(apply t_modify_inv; keep).
    t_step ltac:(apply t_modify_inv; keep).
    apply t_raise. auto.
Qed.

Lemma video_cmd_accepted f src out qscale web :
  f ∈ Config.VIDEO_OUTPUT_FORMATS ->
  is_Some (video_cmd f src out qscale web).
Proof.
  unfold Config.VIDEO_OUTPUT_FORMATS. rewrite !elem_of_cons, elem_of_nil.
  intros [->|[->|[->|[]]]]; vm_compute; eauto.
Qed.

Lemma lens_eq_prefix (t : ConversionTask) (l : list PathLib.Path) :
  output_paths t = l /\ lens_eq t ->
  output_paths t `prefix_of` l /\ lens_weak t.
Proof.
  intros [-> Hl]. split; [reflexivity|]. apply lens_eq_weak, Hl.
Qed.

Lemma lens_eq_prefix_app (t : ConversionTask) (l k : list PathLib.Path) :
  output_paths t = l /\ lens_eq t ->
  output_paths t `prefix_of` l ++ k /\ lens_weak t.
Proof.
  intros [-> Hl]. split; [apply prefix_app_r; reflexivity|].
  apply lens_eq_weak, Hl.
Qed.

Lemma video_format_step_spec src web total qscale item outputs cur :
  thoare tid (fun t => output_paths t = cur /\ lens_eq t)
    (video_format_step cfg src tid web total qscale item outputs)
    (fun _ t =>
       output_paths t
       = cur ++ produced video_ok (video_path cfg src tid) item.2 /\
       lens_eq t)
    (fun _ t =>
       output_paths t
       `prefix_of` cur ++ produced video_ok (video_path cfg src tid) item.2
       /\ lens_weak t).
Proof.
  unfold video_format_step, produced, video_ok. destruct item as [i fmt].
  simpl. case_bool_decide as Hmem; simpl.
  2: { eapply t_post; [apply t_ret|].
       intros ? t [_ [-> Hl]]. rewrite app_nil_r. auto. }
  fold (video_path cfg src tid (PyStr.lower fmt)).
  set (p := video_path cfg src tid (PyStr.lower fmt)).
  destruct (video_cmd_accepted _ src p qscale web Hmem) as [cmd ->].
  eapply t_bind with (Q' := fun _ t => output_paths t = cur ++ [p] /\
                                       lens_eq t).
  - eapply t_try_except
      with (R' := fun _ t => output_paths t `prefix_of` cur ++ [p] /\
                             lens_weak t).
    + t_step ltac:(apply t_call_r).
      { intros e t _ Ht. apply lens_eq_prefix_app, Ht. }
      eapply t_bind with (Q' := fun _ t => output_paths t = cur /\ lens_eq t).
      { case_match.
        - apply t_raise. intros t Ht. apply lens_eq_prefix_app, Ht.
        - apply t_ret_inv. }
      intros _.
      t_step ltac:(apply t_modify).
      t_step ltac:(apply t_modify).
      t_step ltac:(apply t_call_r).
      { intros e t [w Hw] (t2 & (t1 & (Hc & Hf & Hs) & ->) & ->).
        unfold lens_weak; simpl.
        rewrite !List.length_app, Hf, Hs, Hc; simpl.
        split; [reflexivity|]. split; [lia|split; [lia|]].
        intros Hrel. specialize (Hrel p w). rewrite Hw in Hrel.
        discriminate. }
      t_step ltac:(apply t_modify).
      eapply t_post; [apply t_ret|].
      intros ? t [_ (t3 & (t2 & (t1 & (Hc & Hf & Hs) & ->) & ->) & ->)].
      unfold lens_eq; simpl. rewrite !List.length_app, Hf, Hs, Hc; simpl.
      split; [reflexivity|]. split; lia.
    + intros e. destruct (exc_class e);
        (t_step ltac:(apply t_modify_inv; keep));
        (t_step ltac:(apply t_modify_inv; keep));
        apply t_raise; auto.
  - intros outs.
    t_step ltac:(apply t_lift_inv).
    { intros e t _ Ht. apply lens_eq_prefix, Ht. }
    t_step ltac:(apply t_modify_inv; keep).
    apply t_ret_inv.
Qed.

Lemma bind_imap_snd {A} (f : A -> list PathLib.Path) (l : list A)
    (g : nat -> A -> nat * A) :
  (forall i x, (g i x).2 = x) ->
  imap g l ≫= (fun item => f item.2) = l ≫= f.
Proof.
  revert g. induction l as [|x l IH]; intros g Hg; [reflexivity|].
  rewrite imap_cons, !bind_cons, Hg. f_equal. apply IH.
  intros i y. apply Hg.
Qed.

Lemma convert_video_spec src fmts web :
  thoare tid (fun t => output_paths t = [] /\ lens_eq t)
    (_convert_video cfg src fmts tid web)
    (fun _ t =>
       output_paths t = video_expected cfg src tid fmts /\ lens_eq t)
    (fun _ t =>
       output_paths t `prefix_of` video_expected cfg src tid fmts /\
       lens_weak t).
Proof.
  unfold _convert_video, video_expected.
  rewrite <- (bind_imap_snd _ fmts (fun i fmt => (i, fmt)))
    by reflexivity.
  t_step ltac:(apply t_modify_inv; keep).
  t_step ltac:(apply t_modify_inv; keep).
  t_step ltac:(apply (loop_paths _ _
                        (fun item => produced video_ok
                                       (video_path cfg src tid) item.2) [])).
  { intros x acc' c. apply video_format_step_spec. }
  t_step ltac:(apply t_modify_inv; keep).
  t_step ltac:(apply t_modify_inv; keep).
  apply t_ret_inv.
Qed.

(** The paths a complete run of [convert] records. *)
Definition convert_expected (file_path : PathLib.Path)
    (media_type : MediaType) (fmts : list string)
    (size_presets : option (list string)) : list PathLib.Path :=
  match media_type with
  | IMAGE =>
      match _parse_size_presets size_presets with
      | Ok ps => image_expected cfg file_path tid (norm_presets (Some ps)) fmts
      | Raise _ => []
      end
  | VIDEO => video_expected cfg file_path tid fmts
  end.


Lemma notify_spec (on_progress : option (Callback (W := W))) p
    (P : ConversionTask -> Prop) :
  thoare tid P (notify on_progress tid p) (fun _ t => P t) (fun _ t => P t).
Proof.
  destruct on_progress as [cb|]; simpl.
  - apply t_call_r. auto.
  - apply t_ret_inv.
Qed.



End WithWorld.

Section Convert.
Context {W : Type} `{World W} (cfg : Config.Settings).

(** The state in which the [try] block of [convert] starts: a fresh
    identifier is drawn, the new task is registered under it and set to
    [CONVERTING]. *)
Definition started (file_path : PathLib.Path) (media_type : MediaType)
    (st : State W) : string * State W :=
  let '(task_id, w) := uuid4 (world st) in
  (task_id,
   mkState
     (<[task_id := set_status CONVERTING
                     (new_task task_id (PathLib.name file_path) media_type)]>
        (tasks st))
     (batches st) w).

Lemma convert_unfold file_path media_type fmts web on_progress size_presets
    fill_mode fill_color srp strip progressive aggressive crop st :
  get_media_type file_path = Some media_type ->
  convert cfg file_path fmts web on_progress size_presets fill_mode
    fill_color srp strip progressive aggressive crop st
  = (let '(task, st0) := started file_path media_type st in
     (try_except
        (convert_body cfg file_path media_type task fmts web on_progress
           size_presets fill_mode fill_color srp strip progressive
           aggressive crop)
        (convert_handler task on_progress) ;;
      ret task) st0).
Proof.
  intros Hmt. unfold convert, started. rewrite Hmt.
  unfold _create_task, modify_task, bind, call, get_tasks, put_tasks, ret.
  destruct (uuid4 (world st)) as [task w]. simpl.
  rewrite alter_insert_eq. reflexivity.
Qed.



End Convert.
End OutputProps.

(** ** Output file names are told apart by suffix and format *)

Module NameProps.
Import Service OutputProps.

Lemma chars_app (a b : string) :
  PyStr.chars (a +:+ b) = PyStr.chars a ++ PyStr.chars b.
Proof.
  unfold PyStr.chars. induction a as [|c a IH]; simpl; [reflexivity|].
  rewrite IH. reflexivity.
Qed.


Lemma append_assoc (a b c : string) : (a +:+ b) +:+ c = a +:+ b +:+ c.
Proof.
  induction a as [|x a IH]; [reflexivity|].
  change (String x ((a +:+ b) +:+ c) = String x (a +:+ b +:+ c)).
  f_equal. exact IH.
Qed.






Lemma elem_of_produced ok mk fmt (y : PathLib.Path) :
  y ∈ produced ok mk fmt <->
  ok (PyStr.lower fmt) = true /\ y = mk (PyStr.lower fmt).
Proof.
  unfold produced. destruct (ok (PyStr.lower fmt)).
  - rewrite list_elem_of_singleton. intuition.
  - rewrite elem_of_nil. intuition discriminate.
Qed.





End NameProps.

(** ** [convert] (conversion/service.py) *)

Module ConvertProps.
Import Models Service Logic TaskLogic OutputProps NameProps.

Section WithWorld.
Context {W : Type} `{World W} (cfg : Config.Settings).

(** C8. A path whose lowered extension is neither an image nor a video
    extension makes [convert] raise [ValueError] at once: the state, and with
    it the task registry, is the one before the call, and the world was not
    touched. *)
Theorem convert_unsupported_raises (file_path : PathLib.Path)
    (output_formats : list string) (web_optimized : bool)
    (on_progress : option Callback) (size_presets : option (list string))
    (fill_mode : string) (fill_color : option string)
    (size_reduction_percent : option Z)
    (strip_metadata progressive aggressive_compression : bool)
    (crop : option Crop) (st : State W)
    (Himg : PyStr.lower (PathLib.suffix file_path) ∉ Config.IMAGE_EXTENSIONS)
    (Hvid : PyStr.lower (PathLib.suffix file_path) ∉ Config.VIDEO_EXTENSIONS) :
  convert cfg file_path output_formats web_optimized on_progress size_presets
    fill_mode fill_color size_reduction_percent strip_metadata progressive
    aggressive_compression crop st
  = (Raise (mkExc ValueError
              ("Unsupported file type: " +:+ PathLib.suffix file_path)), st).
Proof.
  unfold convert, get_media_type.
  rewrite !bool_decide_eq_false_2 by assumption. reflexivity.
Qed.



End WithWorld.
End ConvertProps.

(** ** Runs of [convert] in the simulated world *)

Module ConvertRuns.
Import Models Service Sim OutputProps ConvertProps.

Lemma convert_unsupported_raises_witness :
  convert Config.default_settings "/up/notes.txt" ["webp"] false None None
    "crop" None None false false false None (state0 disk0)
  = (Raise (mkExc ValueError "Unsupported file type: .txt"), state0 disk0).
Proof.
  apply (convert_unsupported_raises Config.default_settings "/up/notes.txt");
    apply (bool_decide_unpack _); vm_compute; exact I.
Defined.

(** The identifier the first call of [uuid4] yields on [disk0]. *)
Definition first_id : string := "3f2a9c1e-7b4d-4e21-9a55-0c1d2e3f4a5b".

(** [convert] on the upload [photo.png] with the given formats and size
    labels. *)
Definition convert_photo (formats : list string)
    (sizes : option (list string)) (on_progress : option Callback)
    (d : Disk) : result string * State Disk :=
  convert Config.default_settings "/up/photo.png" formats false on_progress
    sizes "crop" None None false false false None (state0 d).





End ConvertRuns.

(** ** How [convert] leaves its task (conversion/service.py) *)

Module OutcomeProps.
Import Models Service Logic TaskLogic OutputProps.

(** The task of a conversion that ran to its end. *)
Definition done (t : ConversionTask) : Prop :=
  status t = COMPLETED /\ progress t = PyFloat.f100 /\ error t = None.

(** The task of a conversion that was given up. *)
Definition given_up (t : ConversionTask) : Prop :=
  status t = FAILED /\ is_Some (error t).

Definition unfailed (t : ConversionTask) : Prop := error t = None.

Ltac keep := intros ? Hkeep; exact Hkeep.
Ltac whatever := intros; exact I.

Section WithWorld.
Context {W : Type} `{World W} (cfg : Config.Settings).
Variable tid : string.


(** Two specifications of one computation hold together. *)
Lemma t_conj {A} (m : M W A) P1 P2 Q1 Q2 R1 R2 :
  thoare tid P1 m Q1 R1 -> thoare tid P2 m Q2 R2 ->
  thoare tid (fun t => P1 t /\ P2 t) m
    (fun a t => Q1 a t /\ Q2 a t) (fun e t => R1 e t /\ R2 e t).
Proof.
  intros H1 H2 st (t & Ht & HP1 & HP2).
  specialize (H1 st (ex_intro _ t (conj Ht HP1))).
  specialize (H2 st (ex_intro _ t (conj Ht HP2))).
  destruct (m st) as [[a|e] st'];
    destruct H1 as (t1 & Ht1 & HQ1); destruct H2 as (t2 & Ht2 & HQ2);
    rewrite Ht1 in Ht2; injection Ht2 as <-; exists t1; auto.
Qed.

Lemma image_format_step_unfailed src work suffix total quality effort
    web strip progressive aggressive fmt acc :
  thoare tid unfailed
    (image_format_step cfg src tid work suffix total quality effort web
       strip progressive aggressive fmt acc)
    (fun _ => unfailed) (fun _ _ => True).
Proof.
  unfold image_format_step. destruct acc as [step outs].
  destruct (negb _); [apply t_ret_inv|].
  t_step ltac:(apply t_call_r; whatever).
  t_step ltac:(apply t_lift_inv; whatever).
  t_step ltac:(apply t_modify_inv; keep).
  t_step ltac:(apply t_modify_inv; keep).
  t_step ltac:(apply t_modify_inv; keep).
  t_step ltac:(apply t_call_r; whatever).
  t_step ltac:(apply t_modify_inv; keep).
  apply t_ret_inv.
Qed.

Lemma image_preset_step_unfailed src base fmts fill_mode rgb total quality
    effort web strip progressive aggressive preset acc :
  thoare tid unfailed
    (image_preset_step cfg src tid base fmts fill_mode rgb total quality
       effort web strip progressive aggressive preset acc)
    (fun _ => unfailed) (fun _ _ => True).
Proof.
  unfold image_preset_step. destruct preset as [[tw th] label].
  t_step ltac:(apply t_lift_inv; whatever).
  apply (t_for_fold tid _ (fun _ _ => unfailed)).
  intros d x rest acc' _. apply image_format_step_unfailed.
Qed.

Lemma finish_done {A} (a : A) :
  thoare tid unfailed
    (modify_task (W := W) tid (set_status COMPLETED) ;;
     modify_task tid (set_progress PyFloat.f100) ;; ret a)
    (fun _ => done) (fun _ _ => True).
Proof.
  t_step ltac:(apply t_modify).
  t_step ltac:(apply t_modify).
  eapply t_post; [apply t_ret|].
  intros ? t [_ (t2 & (t1 & He & ->) & ->)]. repeat split. exact He.
Qed.

Lemma give_up_any {A} (s : option string) e
    (Q : A -> ConversionTask -> Prop) :
  thoare tid (fun _ => True)
    (modify_task (W := W) tid (set_status FAILED) ;;
     modify_task tid (set_error s) ;; raise (A := A) e)
    Q (fun _ _ => True).
Proof.
  t_step ltac:(apply t_modify_inv; whatever).
  t_step ltac:(apply t_modify_inv; whatever).
  apply t_raise. whatever.
Qed.

Lemma convert_image_done src fmts web sp fill_mode fill_color srp strip
    progressive aggressive crop :
  thoare tid unfailed
    (_convert_image cfg src fmts tid web sp fill_mode fill_color srp strip
       progressive aggressive crop)
    (fun _ => done) (fun _ _ => True).
Proof.
  unfold _convert_image.
  t_step ltac:(apply t_modify_inv; keep).
  t_step ltac:(apply t_modify_inv; keep).
  t_step ltac:(apply t_lift_inv; whatever).
  eapply t_bind with (Q' := fun _ => unfailed).
  { destruct fill_color as [c|]; [case_bool_decide|].
    - apply t_ret_inv.
    - apply t_lift_inv. whatever.
    - apply t_ret_inv. }
  intros rgb_fill.
  eapply t_try_except with (R' := fun _ _ => True).
  - t_step ltac:(apply t_call_r; whatever).
    t_step ltac:(apply t_lift_inv; whatever).
    t_step ltac:(apply (t_for_fold tid _ (fun _ _ => unfailed))).
    { intros d x rest acc' _. apply image_preset_step_unfailed. }
    apply finish_done.
  - intros e. apply give_up_any.
Qed.

Lemma video_format_step_unfailed src web total qscale item outputs :
  thoare tid unfailed
    (video_format_step cfg src tid web total qscale item outputs)
    (fun _ => unfailed) (fun _ _ => True).
Proof.
  unfold video_format_step. destruct item as [i fmt].
  destruct (negb _); [apply t_ret_inv|].
  destruct (video_cmd _ _ _ _ _) as [cmd|]; [|apply t_ret_inv].
  eapply t_bind with (Q' := fun _ => unfailed).
  - eapply t_try_except with (R' := fun _ _ => True).
    + t_step ltac:(apply t_call_r; whatever).
      eapply t_bind with (Q' := fun _ => unfailed).
      { destruct (negb _); [apply t_raise; whatever|apply t_ret_inv]. }
      intros _.
      t_step ltac:(apply t_modify_inv; keep).
      t_step ltac:(apply t_modify_inv; keep).
      t_step ltac:(apply t_call_r; whatever).
      t_step ltac:(apply t_modify_inv; keep).
      apply t_ret_inv.
    + intros e. destruct (exc_class e); apply give_up_any.
  - intros outs.
    t_step ltac:(apply t_lift_inv; whatever).
    t_step ltac:(apply t_modify_inv; keep).
    apply t_ret_inv.
Qed.

Lemma convert_video_done src fmts web :
  thoare tid unfailed (_convert_video cfg src fmts tid web)
    (fun _ => done) (fun _ _ => True).
Proof.
  unfold _convert_video.
  t_step ltac:(apply t_modify_inv; keep).
  t_step ltac:(apply t_modify_inv; keep).
  t_step ltac:(apply (t_for_fold tid _ (fun _ _ => unfailed))).
  { intros d x rest acc' _. apply video_format_step_unfailed. }
  apply finish_done.
Qed.

(** The [try] block of [convert], when it returns, leaves the task done. *)
Lemma convert_body_done file_path media_type fmts web on_progress
    size_presets fill_mode fill_color srp strip progressive aggressive crop :
  thoare tid unfailed
    (convert_body cfg file_path media_type tid fmts web on_progress
       size_presets fill_mode fill_color srp strip progressive aggressive
       crop)
    (fun _ => done) (fun _ _ => True).
Proof.
  unfold convert_body.
  t_step ltac:(apply t_call).
  eapply t_bind with (Q' := fun _ => unfailed).
  { case_match.
    - t_step ltac:(apply t_call_r; whatever).
      apply t_modify_inv. keep.
    - apply t_ret_inv. }
  intros _.
  t_step ltac:(apply t_lift_inv; whatever).
  eapply t_bind with (Q' := fun _ => done).
  - destruct media_type.
    + eapply t_bind; [apply convert_image_done|intros ?; apply t_ret_inv].
    + eapply t_bind; [apply convert_video_done|intros ?; apply t_ret_inv].
  - intros _. eapply t_conseq; [apply notify_spec|..].
    + intros t Ht. exact Ht.
    + intros ? t Ht. exact Ht.
    + whatever.
Qed.

(** The same block with the lists in view: when it returns, every expected
    path is recorded. *)
Lemma convert_body_paths file_path media_type fmts web on_progress
    size_presets fill_mode fill_color srp strip progressive aggressive crop :
  let E := convert_expected cfg tid file_path media_type fmts size_presets in
  thoare tid (fun t => output_paths t = [] /\ lens_eq t)
    (convert_body cfg file_path media_type tid fmts web on_progress
       size_presets fill_mode fill_color srp strip progressive aggressive
       crop)
    (fun _ t => output_paths t = E /\ lens_eq t) (fun _ _ => True).
Proof.
  intros E. unfold convert_body.
  t_step ltac:(apply t_call).
  eapply t_bind with (Q' := fun _ t => output_paths t = [] /\ lens_eq t).
  { case_match.
    - t_step ltac:(apply t_call_r; whatever).
      apply t_modify_inv. keep.
    - apply t_ret_inv. }
  intros _. unfold E, convert_expected.
  destruct (_parse_size_presets size_presets) as [ps|e] eqn:Eparse; simpl.
  2: { eapply t_bind with (Q' := fun _ _ => False).
       - apply t_raise. whatever.
       - intros ? st (t & ? & []). }
  t_step ltac:(apply t_ret). apply t_pure. intros ->.
  eapply t_bind
    with (Q' := fun _ t =>
                  output_paths t
                  = match media_type with
                    | IMAGE => image_expected cfg file_path tid
                                 (norm_presets (Some ps)) fmts
                    | VIDEO => video_expected cfg file_path tid fmts
                    end /\ lens_eq t).
  - destruct media_type.
    + eapply t_bind; [|intros ?; apply t_ret_inv].
      eapply t_conseq; [apply convert_image_spec|..].
      * intros t Ht. exact Ht.
      * intros ? t Ht. exact Ht.
      * whatever.
    + eapply t_bind; [|intros ?; apply t_ret_inv].
      eapply t_conseq; [apply convert_video_spec|..].
      * intros t Ht. exact Ht.
      * intros ? t Ht. exact Ht.
      * whatever.
  - intros _. eapply t_conseq; [apply notify_spec|..].
    + intros t Ht. exact Ht.
    + intros ? t Ht. exact Ht.
    + whatever.
Qed.

Lemma convert_handler_given_up (on_progress : option (Callback (W := W))) e :
  thoare tid (fun _ => True) (convert_handler tid on_progress e)
    (fun _ => given_up) (fun _ => given_up).
Proof.
  unfold convert_handler.
  t_step ltac:(apply t_modify).
  t_step ltac:(apply t_modify).
  eapply t_bind with (Q' := fun _ => given_up).
  - eapply t_conseq; [apply (t_task_progress tid given_up)|..].
    + intros t Ht. cbv beta in Ht. destruct Ht as (t1 & (t0 & _ & ->) & ->).
      split; [reflexivity|]. simpl. eauto.
    + intros ? t Ht. exact Ht.
    + intros ? t Ht. exact Ht.
  - intros p. apply notify_spec.
Qed.


End WithWorld.

Section Convert.
Context {W : Type} `{World W} (cfg : Config.Settings).

(** X10. After [convert] on a supported path, whether it returns or lets an
    exception of the callback out, the task it registered is in one of two
    states. Either it is [COMPLETED] with progress 100 and no error, and its
    output paths are exactly the expected ones, one per size preset and
    accepted format, with as many formats and sizes; or it is [FAILED] with
    an error text. *)
Theorem convert_outcome (file_path : PathLib.Path) (media_type : MediaType)
    (output_formats : list string) (web_optimized : bool)
    (on_progress : option Callback) (size_presets : option (list string))
    (fill_mode : string) (fill_color : option string)
    (size_reduction_percent : option Z)
    (strip_metadata progressive aggressive_compression : bool)
    (crop : option Crop) (st : State W)
    (Hmt : get_media_type file_path = Some media_type) :
  exists t,
    tasks (convert cfg file_path output_formats web_optimized on_progress
             size_presets fill_mode fill_color size_reduction_percent
             strip_metadata progressive aggressive_compression crop st).2
    !! (uuid4 (world st)).1 = Some t /\
    ((done t /\
      output_paths t
      = convert_expected cfg (uuid4 (world st)).1 file_path media_type
          output_formats size_presets /\
      lens_eq t) \/
     given_up t).
Proof.
  rewrite (convert_unfold cfg _ media_type) by exact Hmt.
  unfold started. destruct (uuid4 (world st)) as [tk w]. simpl.
  set (t0 := set_status CONVERTING
               (new_task tk (PathLib.name file_path) media_type)).
  set (st0 := mkState (<[tk := t0]> (tasks st)) (batches st) w).
  set (E := convert_expected cfg tk file_path media_type output_formats
              size_presets).
  set (good := fun t : ConversionTask =>
                 (done t /\ output_paths t = E /\ lens_eq t) \/ given_up t).
  assert (Hrun : thoare tk
            (fun t => unfailed t /\ output_paths t = [] /\ lens_eq t)
            (try_except
               (convert_body cfg file_path media_type tk output_formats
                  web_optimized on_progress size_presets fill_mode
                  fill_color size_reduction_percent strip_metadata
                  progressive aggressive_compression crop)
               (convert_handler tk on_progress) ;; ret tk)
            (fun _ => good) (fun _ => good)).
  { eapply t_bind; [|intros ?; apply t_ret_inv].
    eapply t_try_except.
    - eapply t_post; [apply t_conj;
                        [apply convert_body_done|apply convert_body_paths]|].
      intros ? t [Hd Hp]. left. split; [exact Hd|exact Hp].
    - intros e. eapply t_conseq; [apply convert_handler_given_up|..].
      + whatever.
      + intros ? t Ht. right. exact Ht.
      + intros ? t Ht. right. exact Ht. }
  assert (Hpre : on_task tk
            (fun t => unfailed t /\ output_paths t = [] /\ lens_eq t)
            (mem st0)).
  { exists t0. split; [apply lookup_insert_eq|].
    split; [reflexivity|]. split; [reflexivity|]. split; reflexivity. }
  specialize (Hrun st0 Hpre).
  destruct ((try_except _ _ ;; ret tk) st0) as [[a|e] st']; exact Hrun.
Qed.

End Convert.
End OutcomeProps.

Module OutcomeRuns.
Import Models Service Sim OutputProps OutcomeProps ConvertRuns.

Lemma convert_outcome_witness :
  exists t,
    tasks (convert_photo ["webp"; "gif"; "PNG"] (Some ["original"; "64x"])
             None disk0).2 !! first_id = Some t /\
    status t = COMPLETED /\ length (output_paths t) = 4%nat.
Proof.
  destruct (convert_outcome Config.default_settings "/up/photo.png" IMAGE
              ["webp"; "gif"; "PNG"] false None (Some ["original"; "64x"])
              "crop" None None false false false None (state0 disk0)
              eq_refl) as (t & Ht & Hgood).
  exists t. split; [exact Ht|].
  pose proof Ht as Hrun. vm_compute in Hrun. injection Hrun as Hrun.
  rewrite <- Hrun. split; reflexivity.
Defined.

End OutcomeRuns.

(** ** Batch jobs (batch.py) *)

Module BatchProps.
Import BatchModel Batch.

(** A call of one of the three functions that write [_batches]. *)
Inductive BatchCall :=
  | CreateBatch (batch_id : string) (task_ids : list string)
      (session_id : option string)
  | SetCompleted (batch_id zip_filename : string)
      (task_ids : option (list string))
  | SetFailed (batch_id error : string).

(** The job a call touches. *)
Definition target (c : BatchCall) : string :=
  match c with
  | CreateBatch b _ _ | SetCompleted b _ _ | SetFailed b _ => b
  end.

(** Status [completed] comes with an archive name, [failed] with an error,
    [processing] with neither. *)
Definition status_backed (job : BatchJob) : Prop :=
  (status job = "processing" /\ zip_filename job = None /\ error job = None)
  \/ (status job = "completed" /\ is_Some (zip_filename job))
  \/ (status job = "failed" /\ is_Some (error job)).

(** The invariant of the specification. *)
Definition status_exact (job : BatchJob) : Prop :=
  (is_Some (zip_filename job) <-> status job = "completed") /\
  (is_Some (error job) <-> status job = "failed").

Section WithWorld.
Context {W : Type} `{World W}.

Definition exec (c : BatchCall) : M W unit :=
  match c with
  | CreateBatch b t s => create_batch b t s ;; ret tt
  | SetCompleted b z t => set_batch_completed b z t
  | SetFailed b e => set_batch_failed b e
  end.

(** The state a call leaves, whether the call returned or raised. *)
Definition after (c : BatchCall) (st : State W) : State W := (exec c st).2.

(** The states reached from an empty [_batches] by any calls. *)
Inductive reachable : State W -> Prop :=
  | reach_empty st : batches st = ∅ -> reachable st
  | reach_call st c : reachable st -> reachable (after c st).

(** A job leaves [processing] at most once: a setter is called only while
    its job, if registered, is still [processing]. *)
Definition first_transition (c : BatchCall) (st : State W) : Prop :=
  match c with
  | CreateBatch _ _ _ => True
  | SetCompleted b _ _ | SetFailed b _ =>
      forall job, batches st !! b = Some job -> status job = "processing"
  end.

Inductive reachable_once : State W -> Prop :=
  | once_empty st : batches st = ∅ -> reachable_once st
  | once_call st c :
      reachable_once st -> first_transition c st ->
      reachable_once (after c st).

(** What a call does to [_batches]. *)
Definition batches_after (c : BatchCall)
    (b : gmap string BatchJob) : gmap string BatchJob :=
  match c with
  | CreateBatch id t _ => <[id := mkBatchJob id "processing" t None None]> b
  | SetCompleted id z t =>
      match b !! id with
      | Some job =>
          <[id := mkBatchJob (batch_id job) "completed"
                    (default (task_ids job) t) (error job) (Some z)]> b
      | None => b
      end
  | SetFailed id e =>
      match b !! id with
      | Some job =>
          <[id := mkBatchJob (batch_id job) "failed" (task_ids job) (Some e)
                    (zip_filename job)]> b
      | None => b
      end
  end.

Lemma batches_exec c st :
  batches (after c st) = batches_after c (batches st).
Proof.
  unfold after, exec.
  destruct c as [b t s|b z t|b e]; simpl;
    unfold create_batch, set_batch_completed, set_batch_failed, bind,
      get_batches, put_batches, call_r, ret; simpl.
  - destruct (db_save_batch _ _ _ _ _) as [[[]|?] ?]; reflexivity.
  - destruct (batches st !! b); simpl;
      destruct (db_update_batch_status _ _ _ _ _ _) as [[[]|?] ?];
      reflexivity.
  - destruct (batches st !! b); simpl;
      destruct (db_update_batch_status _ _ _ _ _ _) as [[[]|?] ?];
      reflexivity.
Qed.

Lemma status_backed_after c b :
  (forall id job, b !! id = Some job -> status_backed job) ->
  forall id job, batches_after c b !! id = Some job -> status_backed job.
Proof.
  intros Hb id job. destruct c as [k t s|k z t|k e]; simpl.
  - rewrite lookup_insert. case_decide; [|apply Hb].
    intros [= <-]. left. auto.
  - destruct (b !! k) as [j|] eqn:Ej; [|apply Hb].
    rewrite lookup_insert. case_decide; [|apply Hb].
    intros [= <-]. right. left. simpl. eauto.
  - destruct (b !! k) as [j|] eqn:Ej; [|apply Hb].
    rewrite lookup_insert. case_decide; [|apply Hb].
    intros [= <-]. right. right. simpl. eauto.
Qed.

Lemma status_exact_after c b :
  (forall job, b !! target c = Some job ->
     match c with
     | CreateBatch _ _ _ => True
     | _ => status job = "processing"
     end) ->
  (forall id job, b !! id = Some job -> status_exact job /\ status_backed job)
  ->
  forall id job, batches_after c b !! id = Some job -> status_exact job.
Proof.
  intros Hfirst Hb id job. destruct c as [k t s|k z t|k e]; simpl in *.
  - rewrite lookup_insert. case_decide; [|apply Hb].
    intros [= <-]. split; simpl; split; try discriminate;
      intros []; discriminate.
  - destruct (b !! k) as [j|] eqn:Ej; [|apply Hb].
    rewrite lookup_insert. case_decide; [|apply Hb].
    intros [= <-]. specialize (Hfirst j eq_refl).
    destruct (Hb k j Ej) as [[_ Herr] _]. rewrite Hfirst in Herr.
    split; simpl; split; eauto; try discriminate.
    intros Hsome. apply Herr in Hsome. discriminate.
  - destruct (b !! k) as [j|] eqn:Ej; [|apply Hb].
    rewrite lookup_insert. case_decide; [|apply Hb].
    intros [= <-]. specialize (Hfirst j eq_refl).
    destruct (Hb k j Ej) as [[Hzip _] _]. rewrite Hfirst in Hzip.
    split; simpl; split; eauto; try discriminate.
    intros Hsome. apply Hzip in Hsome. discriminate.
Qed.

Lemma reachable_backed st :
  reachable st ->
  forall id job, batches st !! id = Some job -> status_backed job.
Proof.
  induction 1 as [st Hempty|st c Hst IH]; intros id job.
  - rewrite Hempty, lookup_empty. discriminate.
  - rewrite batches_exec. apply status_backed_after, IH.
Qed.

Lemma reachable_once_reachable st : reachable_once st -> reachable st.
Proof. induction 1; [apply reach_empty|apply reach_call]; assumption. Qed.

Lemma reachable_once_exact st :
  reachable_once st ->
  forall id job, batches st !! id = Some job -> status_exact job.
Proof.
  induction 1 as [st Hempty|st c Hst IH Hfirst]; intros id job.
  - rewrite Hempty, lookup_empty. discriminate.
  - rewrite batches_exec. apply status_exact_after.
    + intros j Hj. destruct c; simpl in *; auto.
    + intros k j Hj. split; [eapply IH, Hj|].
      eapply reachable_backed, Hj. apply reachable_once_reachable, Hst.
Qed.

(** C7, as the code has it. In every state reached by calls of
    [create_batch], [set_batch_completed] and [set_batch_failed], a job that
    is [completed] has an archive name, a job that is [failed] has an error
    and a job that is [processing] has neither; when every setter was
    called on a job still [processing], the archive name is set exactly for
    the [completed] jobs and the error exactly for the [failed] ones. *)
Theorem batch_status_fields (st : State W) (id : string) (job : BatchJob)
    (Hreach : reachable st) (Hjob : batches st !! id = Some job) :
  status_backed job /\ (reachable_once st -> status_exact job).
Proof.
  split.
  - eapply reachable_backed; eassumption.
  - intros Honce. eapply reachable_once_exact; eassumption.
Qed.

End WithWorld.
End BatchProps.

(** ** Archive member names (batch.py, [create_zip_from_task_outputs]) *)

Module ArchiveProps.
Import Batch NameProps CharProps.

Lemma existsb_is (c : ascii) (l : list ascii) :
  existsb (fun x => bool_decide (x = c)) l = true <-> c ∈ l.
Proof.
  rewrite existsb_exists. split.
  - intros (x & Hx & Heq). apply bool_decide_eq_true in Heq. subst x.
    apply list_elem_of_In, Hx.
  - intros Hc. exists c. split; [apply list_elem_of_In, Hc|].
    apply bool_decide_eq_true. reflexivity.
Qed.

(** The file name of a path holds no slash. *)
Lemma after_last_free (c : ascii) (l : list ascii) :
  c ∉ PathLib.after_last c l.
Proof.
  induction l as [|d l IH]; simpl; [apply not_elem_of_nil|].
  destruct (existsb _ l) eqn:E; [exact IH|].
  assert (Hl : c ∉ l).
  { intros Hc. apply existsb_is in Hc. congruence. }
  case_bool_decide; [exact Hl|].
  rewrite not_elem_of_cons. split; [congruence|exact Hl].
Qed.








End ArchiveProps.

(** ** Output names of different tasks (conversion/service.py) *)

Module TaskNameProps.
Import Service OutputProps NameProps CharProps ArchiveProps.









(** The stem of a path holds no slash. *)
Lemma stem_free (p : PathLib.Path) : "/"%char ∉ PyStr.chars (PathLib.stem p).
Proof.
  assert (Hname : "/"%char ∉ PyStr.chars (PathLib.name p)).
  { unfold PathLib.name. rewrite chars_str. apply after_last_free. }
  unfold PathLib.stem. destruct (PathLib.suffix_index _) as [i|];
    [|exact Hname].
  rewrite chars_str. intros Hin. apply Hname.
  eapply subseteq_take, Hin.
Qed.





End TaskNameProps.

(** ** Uploads that are let through (api/routes.py) *)

Module UploadProps.
Import Uploads Service Models NameProps CharProps ArchiveProps.

Lemma after_last_app_r (c : ascii) (x l : list ascii) :
  c ∈ l -> PathLib.after_last c (x ++ l) = PathLib.after_last c l.
Proof.
  intros Hc. induction x as [|d x IH]; [reflexivity|]. simpl.
  replace (existsb _ (x ++ l)) with true; [exact IH|].
  symmetry. apply existsb_is. apply elem_of_app. auto.
Qed.

Lemma after_last_app_l (c : ascii) (x l : list ascii) :
  c ∉ l -> PathLib.after_last c (x ++ l) = PathLib.after_last c x ++ l.
Proof.
  intros Hc. induction x as [|d x IH]; simpl.
  - destruct l as [|e l]; [reflexivity|]. simpl.
    apply not_elem_of_cons in Hc as [Hne Hl].
    replace (existsb _ l) with false.
    + rewrite bool_decide_eq_false_2 by congruence. reflexivity.
    + symmetry. apply not_true_is_false. intros Hex. apply existsb_is in Hex.
      contradiction.
  - assert (Hex : existsb (fun y => bool_decide (y = c)) (x ++ l)
                  = existsb (fun y => bool_decide (y = c)) x).
    { rewrite existsb_app. replace (existsb _ l) with false;
        [apply orb_false_r|].
      symmetry. apply not_true_is_false. intros Hex. apply existsb_is in Hex.
      contradiction. }
    rewrite Hex. destruct (existsb _ x); [exact IH|].
    case_bool_decide; reflexivity.
Qed.

Lemma rfind_app (c : ascii) (q l : list ascii) (i : nat) :
  PathLib.rfind c l = Some i ->
  PathLib.rfind c (q ++ l) = Some (length q + i)%nat.
Proof.
  intros Hi. induction q as [|d q IH]; [exact Hi|]. simpl.
  rewrite IH. reflexivity.
Qed.

(** Text put in front of a file name with an extension does not change the
    extension. *)
Lemma suffix_app (x fn : string) :
  PathLib.suffix fn <> "" -> PathLib.suffix (x +:+ fn) = PathLib.suffix fn.
Proof.
  intros Hsuf.
  destruct (decide ("/"%char ∈ PyStr.chars fn)) as [Hin|Hout].
  - assert (Hname : PathLib.name (x +:+ fn) = PathLib.name fn).
    { unfold PathLib.name. rewrite chars_app, after_last_app_r by exact Hin.
      reflexivity. }
    unfold PathLib.suffix. rewrite Hname. reflexivity.
  - assert (Hfn : PathLib.name fn = fn).
    { unfold PathLib.name.
      rewrite <- (app_nil_l (PyStr.chars fn)), after_last_app_l by exact Hout.
      simpl. apply string_of_list_ascii_of_string. }
    assert (Hname : PyStr.chars (PathLib.name (x +:+ fn))
                    = PathLib.after_last "/" (PyStr.chars x) ++ PyStr.chars fn).
    { unfold PathLib.name. rewrite chars_str, chars_app.
      apply after_last_app_l, Hout. }
    revert Hsuf. unfold PathLib.suffix, PathLib.suffix_index, PyStr.len.
    rewrite Hfn, Hname.
    set (q := PathLib.after_last "/" (PyStr.chars x)).
    destruct (PathLib.rfind "." (PyStr.chars fn)) as [i|] eqn:Ei;
      [|congruence].
    rewrite (rfind_app _ q _ _ Ei).
    case_bool_decide as Hi; [|congruence]. intros _.
    rewrite bool_decide_eq_true_2 by (rewrite length_app; lia).
    rewrite drop_app_add'; reflexivity.
Qed.

Lemma split_l_cons (c : ascii) (l : list ascii) :
  exists w ws, split_l c l = w :: ws.
Proof.
  induction l as [|d l (w & ws & IH)]; simpl; [eauto|].
  case_bool_decide; [eauto|]. rewrite IH. eauto.
Qed.

Lemma split_l_free (c : ascii) (l : list ascii) :
  Forall (fun w => c ∉ w) (split_l c l).
Proof.
  induction l as [|d l IH]; simpl.
  - constructor; [apply not_elem_of_nil|constructor].
  - case_bool_decide as Hd.
    + constructor; [apply not_elem_of_nil|exact IH].
    + destruct (split_l c l) as [|w ws].
      * constructor; [|constructor]. rewrite list_elem_of_singleton.
        congruence.
      * apply Forall_cons in IH as [Hw Hws]. constructor; [|exact Hws].
        rewrite not_elem_of_cons. split; [congruence|exact Hw].
Qed.

Lemma parts_l_free (l : list ascii) :
  Forall (fun w => "/"%char ∉ w) (parts_l l).
Proof.
  unfold parts_l. apply Forall_forall. intros w Hw%list_elem_of_In.
  apply filter_In in Hw as [Hw _].
  pose proof (split_l_free "/" l) as Hfree.
  rewrite Forall_forall in Hfree. apply Hfree, list_elem_of_In, Hw.
Qed.

Lemma name_l_kept (l : list ascii) : name_l l <> [] -> kept (name_l l) = true.
Proof.
  unfold name_l. intros Hne.
  destruct (parts_l l) as [|w ws] eqn:E; [contradiction Hne; reflexivity|].
  assert (Hin : In (List.last (w :: ws) []) (parts_l l)).
  { rewrite E. destruct (exists_last (l := w :: ws) ltac:(discriminate))
      as (l' & a & ->). rewrite last_last. apply in_or_app. right. left.
    reflexivity. }
  apply filter_In in Hin. tauto.
Qed.

(** One more character in front puts text in front of the name. *)
Lemma name_l_cons (d : ascii) (l : list ascii) :
  kept (name_l l) = true ->
  kept (name_l (d :: l)) = true /\ exists p, name_l (d :: l) = p ++ name_l l.
Proof.
  unfold name_l, parts_l. simpl split_l.
  destruct (split_l_cons "/" l) as (w & ws & ->).
  case_bool_decide as Hd.
  - simpl. intros Hk. split; [exact Hk|]. exists []. reflexivity.
  - cbn [List.filter].
    destruct (List.filter kept ws) as [|v vs] eqn:Ews.
    + destruct (kept w) eqn:Ew; [|discriminate]. intros _.
      assert (Hdw : kept (d :: w) = true).
      { unfold kept. rewrite !bool_decide_eq_false_2; [reflexivity| |].
        - intros [= -> ->]. discriminate Ew.
        - discriminate. }
      rewrite Hdw. simpl. split; [exact Hdw|]. exists [d]. reflexivity.
    + intros Hk.
      assert (Hlast : forall x, List.last (x ++ v :: vs) []
                                = List.last (v :: vs) []).
      { intros x. destruct (exists_last (l := v :: vs) ltac:(discriminate))
          as (l' & a & ->). rewrite app_assoc, !last_last. reflexivity. }
      pose proof (Hlast [w]) as H1. pose proof (Hlast [d :: w]) as H2.
      pose proof (Hlast []) as H0. simpl app in H0, H1, H2.
      assert (Hsame : forall x : list ascii,
                List.last ((if kept x then [x] else []) ++ v :: vs) []
                = List.last (v :: vs) []) by (intros x; apply Hlast).
      assert (Hw : List.last (if kept w then w :: v :: vs else v :: vs) []
                   = List.last (v :: vs) [])
        by (destruct (kept w); [exact H1|reflexivity]).
      assert (Hdw : List.last (if kept (d :: w) then (d :: w) :: v :: vs
                               else v :: vs) []
                    = List.last (v :: vs) [])
        by (destruct (kept (d :: w)); [exact H2|reflexivity]).
      rewrite Hw in Hk. rewrite Hdw. split; [exact Hk|].
      exists []. rewrite Hw. reflexivity.
Qed.

Lemma name_l_app (a l : list ascii) :
  kept (name_l l) = true ->
  kept (name_l (a ++ l)) = true /\ exists p, name_l (a ++ l) = p ++ name_l l.
Proof.
  intros Hk. induction a as [|d a [IHk [p IH]]]; simpl.
  - split; [exact Hk|]. exists []. reflexivity.
  - destruct (name_l_cons d (a ++ l) IHk) as [Hk' [q Hq]].
    split; [exact Hk'|]. exists (q ++ p). rewrite Hq, IH, app_assoc.
    reflexivity.
Qed.

Lemma after_last_id (c : ascii) (l : list ascii) :
  c ∉ l -> PathLib.after_last c l = l.
Proof.
  intros Hc. rewrite <- (app_nil_l l) at 1.
  rewrite after_last_app_l by exact Hc. reflexivity.
Qed.

Lemma after_last_join (r : list ascii) (ps : list (list ascii)) :
  PathLib.after_last "/" r = [] -> ps <> [] ->
  Forall (fun w => "/"%char ∉ w) ps ->
  PathLib.after_last "/" (r ++ PyStr.chars (join "/" (map PyStr.str ps)))
  = List.last ps [].
Proof.
  intros Hr Hne Hfree. revert r Hr.
  induction ps as [|w ps IH]; intros r Hr; [contradiction|].
  apply Forall_cons in Hfree as [Hw Hfree].
  destruct ps as [|v ps].
  - simpl. rewrite chars_str, after_last_app_l, Hr by exact Hw. reflexivity.
  - change (join "/" (map PyStr.str (w :: v :: ps)))
      with (PyStr.str w +:+ "/" +:+ join "/" (map PyStr.str (v :: ps))).
    rewrite !chars_app, chars_str.
    change (PyStr.chars "/") with ["/"%char].
    rewrite !app_assoc.
    rewrite (IH ltac:(discriminate) Hfree ((r ++ w) ++ ["/"%char])).
    + reflexivity.
    + rewrite after_last_app_r by (apply list_elem_of_singleton; reflexivity).
      reflexivity.
Qed.

Lemma suffix_of_name (p : PathLib.Path) (nm : list ascii) :
  PathLib.name p = PyStr.str nm -> "/"%char ∉ nm ->
  PathLib.suffix p = PathLib.suffix (PyStr.str nm).
Proof.
  intros Hp Hnm. unfold PathLib.suffix. rewrite Hp.
  replace (PathLib.name (PyStr.str nm)) with (PyStr.str nm); [reflexivity|].
  unfold PathLib.name. rewrite chars_str, after_last_id by exact Hnm.
  reflexivity.
Qed.

Lemma root_cases (text : string) :
  root text = "" \/ root text = "/" \/ root text = "//".
Proof.
  unfold root. repeat case_match; auto.
Qed.

(** The extension of [Path(text)] is the one of its last kept component. *)
Lemma suffix_path_of (text : string) :
  PathLib.suffix (path_of text)
  = PathLib.suffix (PyStr.str (name_l (PyStr.chars text))).
Proof.
  unfold path_of, parts, name_l.
  pose proof (parts_l_free (PyStr.chars text)) as Hfree.
  destruct (parts_l (PyStr.chars text)) as [|w ws] eqn:E.
  - destruct (root_cases text) as [->|[->| ->]]; reflexivity.
  - rewrite andb_false_r.
    assert (Hlast : "/"%char ∉ List.last (w :: ws) []).
    { rewrite Forall_forall in Hfree. apply Hfree.
      destruct (exists_last (l := w :: ws) ltac:(discriminate))
        as (l' & a & ->). rewrite last_last. apply elem_of_app. right.
      apply list_elem_of_singleton. reflexivity. }
    apply suffix_of_name; [|exact Hlast].
    unfold PathLib.name. f_equal. rewrite chars_app.
    apply after_last_join; [|discriminate|exact Hfree].
    destruct (root_cases text) as [->|[->| ->]]; reflexivity.
Qed.

Lemma str_app (a b : list ascii) :
  PyStr.str (a ++ b) = PyStr.str a +:+ PyStr.str b.
Proof.
  unfold PyStr.str. induction a as [|c a IH]; simpl; [reflexivity|].
  rewrite IH. reflexivity.
Qed.

(** Text put in front of a file name with an extension, be it a directory
    or a prefix of the name, does not change the extension of the path. *)
Lemma suffix_path_of_app (x fn : string) :
  PathLib.suffix (path_of fn) <> "" ->
  PathLib.suffix (path_of (x +:+ fn)) = PathLib.suffix (path_of fn).
Proof.
  rewrite !suffix_path_of, chars_app. intros Hsuf.
  assert (Hk : kept (name_l (PyStr.chars fn)) = true).
  { apply name_l_kept. intros Heq. rewrite Heq in Hsuf. contradiction Hsuf.
    reflexivity. }
  destruct (name_l_app (PyStr.chars x) _ Hk) as [_ [p ->]].
  rewrite str_app. apply suffix_app, Hsuf.
Qed.

Lemma suffix_stored (cfg : Config.Settings) (prefix fn : string) :
  PathLib.suffix (path_of fn) <> "" ->
  PathLib.suffix (stored_path cfg prefix (Some fn))
  = PathLib.suffix (path_of fn).
Proof.
  intros Hsuf. unfold stored_path, posix_join. simpl default.
  repeat case_match; rewrite <- ?append_assoc;
    apply suffix_path_of_app, Hsuf.
Qed.

Lemma image_ext_lower (ext : string) :
  ext ∈ Config.IMAGE_EXTENSIONS -> _is_image_ext ext = true.
Proof.
  unfold Config.IMAGE_EXTENSIONS. rewrite !elem_of_cons, elem_of_nil.
  intros H. repeat destruct H as [->|H]; try destruct H; vm_compute;
    reflexivity.
Qed.

Lemma accepted_has_name (fn : option string) :
  ext_of fn ∈ ALL_EXTENSIONS ->
  exists name, fn = Some name /\ PathLib.suffix (path_of name) <> "".
Proof.
  unfold ext_of. intros Hext.
  assert (Hne : PathLib.suffix (path_of (default "" fn)) <> "").
  { intros Heq. rewrite Heq in Hext.
    apply (bool_decide_pack _) in Hext. vm_compute in Hext. exact Hext. }
  destruct fn as [name|]; [eauto|]. contradiction Hne. reflexivity.
Qed.

Lemma elem_of_to_upload (filenames : list (option string)) fn ext :
  (fn, ext) ∈ to_upload_of filenames <->
  fn ∈ filenames /\ ext = ext_of fn /\ ext ∈ ALL_EXTENSIONS.
Proof.
  unfold to_upload_of. rewrite list_elem_of_omap. split.
  - intros (x & Hx & Hsome). case_bool_decide; [|discriminate].
    injection Hsome as <- <-. auto.
  - intros (Hfn & -> & Hext). exists fn. split; [exact Hfn|].
    rewrite bool_decide_eq_true_2 by exact Hext. reflexivity.
Qed.

Lemma check_uploads_inr (lim : Limits) (filenames : list (option string))
    (accepted : list (option string * string)) :
  check_uploads lim filenames = inr accepted ->
  accepted = to_upload_of filenames.
Proof.
  unfold check_uploads. destruct (to_upload_of filenames); [discriminate|].
  repeat case_match; intros [= <-]; reflexivity.
Qed.

(** X12. What [upload_multiple] and [upload_batch] let through: at least one
    file; every file has a supported extension; and either all are images,
    no more than [MAX_IMAGES_PER_UPLOAD], or there is exactly one file, a
    video. A video is never taken together with another file. *)
Theorem check_uploads_accepts (lim : Limits)
    (filenames : list (option string))
    (accepted : list (option string * string))
    (Hok : check_uploads lim filenames = inr accepted) :
  accepted = to_upload_of filenames /\ accepted <> [] /\
  (forall fn ext, (fn, ext) ∈ accepted ->
     fn ∈ filenames /\ ext = ext_of fn /\ ext ∈ ALL_EXTENSIONS) /\
  ((Forall (fun item => item.2 ∈ Config.IMAGE_EXTENSIONS) accepted /\
    Z.of_nat (length accepted) <= MAX_IMAGES_PER_UPLOAD lim) \/
   (exists fn ext, accepted = [(fn, ext)] /\
                   ext ∈ Config.VIDEO_EXTENSIONS)).
Proof.
  unfold check_uploads in Hok.
  assert (Hmem : forall fn ext, (fn, ext) ∈ to_upload_of filenames ->
            fn ∈ filenames /\ ext = ext_of fn /\ ext ∈ ALL_EXTENSIONS)
    by (intros fn ext; apply elem_of_to_upload).
  destruct (to_upload_of filenames) as [|item l] eqn:El; [discriminate|].
  destruct (existsb _ (item :: l)) eqn:Evideo.
  - destruct (MAX_VIDEOS_PER_UPLOAD <? _) eqn:Elen; [discriminate|].
    injection Hok as <-. split; [reflexivity|]. split; [discriminate|].
    split; [exact Hmem|]. right.
    apply Z.ltb_ge in Elen. unfold MAX_VIDEOS_PER_UPLOAD in Elen.
    destruct l as [|? ?]; [|simpl in Elen; lia].
    destruct item as [fn ext]. exists fn, ext. split; [reflexivity|].
    simpl in Evideo. rewrite orb_false_r in Evideo.
    apply negb_true_iff in Evideo.
    destruct (Hmem fn ext) as (_ & _ & Hext); [left|].
    apply elem_of_app in Hext as [Himg|Hvid]; [|exact Hvid].
    rewrite (image_ext_lower _ Himg) in Evideo. discriminate.
  - destruct (MAX_IMAGES_PER_UPLOAD lim <? _) eqn:Elen; [discriminate|].
    injection Hok as <-. split; [reflexivity|]. split; [discriminate|].
    split; [exact Hmem|]. left. apply Z.ltb_ge in Elen.
    split; [|exact Elen].
    apply Forall_forall. intros [fn ext] Hin.
    destruct (Hmem fn ext Hin) as (_ & _ & Hext).
    apply elem_of_app in Hext as [Himg|Hvid]; [exact Himg|].
    exfalso. assert (Hex : existsb (fun item => negb (_is_image_ext item.2))
                             (item :: l) = true); [|congruence].
    apply existsb_exists. exists (fn, ext).
    split; [apply list_elem_of_In, Hin|]. simpl.
    revert Hvid. unfold Config.VIDEO_EXTENSIONS.
    rewrite !elem_of_cons, elem_of_nil.
    intros Hv. repeat destruct Hv as [->|Hv]; try destruct Hv; vm_compute;
      reflexivity.
Qed.

(** X13. A file the upload handlers let through is stored under a path that
    [convert] accepts: prefixing the name with identifiers keeps the
    extension, so the stored file has the media type of its extension. *)
Theorem stored_upload_supported (cfg : Config.Settings) (lim : Limits)
    (filenames : list (option string))
    (accepted : list (option string * string)) (fn : option string)
    (ext prefix : string)
    (Hok : check_uploads lim filenames = inr accepted)
    (Hin : (fn, ext) ∈ accepted) :
  get_media_type (stored_path cfg prefix fn)
  = Some (if _is_image_ext ext then IMAGE else VIDEO).
Proof.
  rewrite (check_uploads_inr lim filenames accepted Hok) in Hin.
  apply elem_of_to_upload in Hin as (_ & Hext & Hall).
  destruct (accepted_has_name fn) as (name & -> & Hsuf);
    [rewrite <- Hext; exact Hall|].
  unfold get_media_type. rewrite (suffix_stored cfg prefix name Hsuf).
  change (PyStr.lower (PathLib.suffix (path_of name)))
    with (ext_of (Some name)).
  rewrite <- Hext.
  apply elem_of_app in Hall as [Himg|Hvid].
  - rewrite (image_ext_lower _ Himg).
    rewrite bool_decide_eq_true_2 by exact Himg. reflexivity.
  - assert (Hnot : _is_image_ext ext = false /\
                   ext ∉ Config.IMAGE_EXTENSIONS).
    { revert Hvid. unfold Config.VIDEO_EXTENSIONS.
      rewrite !elem_of_cons, elem_of_nil.
      intros Hv. repeat destruct Hv as [->|Hv]; try destruct Hv;
        (split; [vm_compute; reflexivity|]);
        apply (bool_decide_unpack _); vm_compute; exact I. }
    destruct Hnot as [-> Hnot].
    rewrite bool_decide_eq_false_2 by exact Hnot.
    rewrite bool_decide_eq_true_2 by exact Hvid. reflexivity.
Qed.

End UploadProps.

Module UploadRuns.
Import Uploads UploadProps Service Models.

Definition limits0 : Limits :=
  mkLimits 10 (20 * 1024 * 1024) (150 * 1024 * 1024).

(** [Path] on texts that are not in normal form. *)
Lemma path_of_examples :
  map path_of ["photo.jpg/"; "a//b/./c.png"; ""; "//x"; "///x"; "x/.jpg"]
  = ["photo.jpg"; "a/b/c.png"; "."; "//x"; "/x"; "x/.jpg"] /\
  map (fun fn => ext_of (Some fn)) ["Photo.JPG/."; "./.hidden"; "x/.jpg"]
  = [".jpg"; ""; ""].
Proof. vm_compute. auto. Qed.

Lemma check_uploads_accepts_witness :
  exists fn ext,
    to_upload_of [Some "notes.txt"; Some "Clip.MP4"; None] = [(fn, ext)] /\
    ext ∈ Config.VIDEO_EXTENSIONS.
Proof.
  destruct (check_uploads_accepts limits0
              [Some "notes.txt"; Some "Clip.MP4"; None]
              [(Some "Clip.MP4", ".mp4")] eq_refl)
    as (Heq & _ & _ & [[Himg _]|Hvideo]).
  - exfalso. apply Forall_cons in Himg as [Himg _]. revert Himg.
    apply (bool_decide_unpack _). vm_compute. exact I.
  - destruct Hvideo as (fn & ext & Hone & Hext). exists fn, ext.
    rewrite <- Heq. auto.
Defined.

Lemma stored_upload_supported_witness :
  get_media_type
    (stored_path Config.default_settings "b4c1-77e0_1f2e3d4c_"
       (Some "holiday.photo.JPG"))
  = Some IMAGE.
Proof.
  apply (stored_upload_supported Config.default_settings limits0
           [Some "holiday.photo.JPG"; Some "readme"]
           [(Some "holiday.photo.JPG", ".jpg")] (Some "holiday.photo.JPG")
           ".jpg" "b4c1-77e0_1f2e3d4c_" eq_refl).
  left.
Defined.

End UploadRuns.

(** ** What a download hands out (api/routes.py, [download_output]) *)

Module DownloadProps.
Import Models Service OutputProps Uploads UploadProps Downloads NameProps.
Import CharProps ArchiveProps TaskNameProps.

(** A file name: one component that [Path] keeps. *)
Definition file_name (n : string) : Prop :=
  ("/"%char ∉ PyStr.chars n) /\ kept (PyStr.chars n) = true.

(** A directory in normal form with at least one component. *)
Definition normal_dir (d : PathLib.Path) : Prop :=
  path_of d = d /\ parts d <> [].

Lemma split_l_sep (c : ascii) (a b : list ascii) :
  split_l c (a ++ c :: b) = split_l c a ++ split_l c b.
Proof.
  induction a as [|d a IH]; simpl.
  - rewrite bool_decide_eq_true_2 by reflexivity. reflexivity.
  - case_bool_decide; [rewrite IH; reflexivity|].
    rewrite IH. destruct (split_l_cons c a) as (w & ws & ->). reflexivity.
Qed.

Lemma split_l_one (c : ascii) (l : list ascii) : c ∉ l -> split_l c l = [l].
Proof.
  induction l as [|d l IH]; [reflexivity|]. intros [Hd Hl]%not_elem_of_cons.
  simpl. rewrite bool_decide_eq_false_2 by congruence.
  rewrite IH by exact Hl. reflexivity.
Qed.

Lemma parts_l_file (d n : list ascii) :
  "/"%char ∉ n -> kept n = true ->
  parts_l (d ++ "/"%char :: n) = parts_l d ++ [n].
Proof.
  intros Hn Hk. unfold parts_l.
  rewrite split_l_sep, List.filter_app, (split_l_one _ _ Hn). simpl.
  rewrite Hk. reflexivity.
Qed.

Lemma join_snoc (ps : list string) (n : string) :
  ps <> [] -> join "/" (ps ++ [n]) = join "/" ps +:+ "/" +:+ n.
Proof.
  induction ps as [|x ps IH]; [contradiction|]. intros _.
  destruct ps as [|y ps]; [reflexivity|].
  change (join "/" ((x :: y :: ps) ++ [n]))
    with (x +:+ "/" +:+ join "/" ((y :: ps) ++ [n])).
  rewrite IH by discriminate.
  change (join "/" (x :: y :: ps)) with (x +:+ "/" +:+ join "/" (y :: ps)).
  rewrite !append_assoc. reflexivity.
Qed.

Lemma parts_nonempty (d : string) :
  parts d <> [] -> PyStr.chars d <> [] /\ d <> "/" /\ d <> "//".
Proof.
  intros Hp. repeat split; intros Heq; apply Hp.
  - unfold parts. rewrite Heq. reflexivity.
  - rewrite Heq. reflexivity.
  - rewrite Heq. reflexivity.
Qed.

Lemma root_file (d n : string) :
  parts d <> [] -> root (d +:+ "/" +:+ n) = root d.
Proof.
  intros Hp. destruct (parts_nonempty d Hp) as (Hne & H1 & H2).
  unfold root. rewrite !chars_app. change (PyStr.chars "/") with ["/"%char].
  assert (Hd : d = PyStr.str (PyStr.chars d))
    by (symmetry; apply string_of_list_ascii_of_string).
  destruct (PyStr.chars d) as [|c1 [|c2 [|c3 l]]]; [contradiction| | |].
  - simpl. case_bool_decide as E1; [|reflexivity].
    injection E1 as ->. contradiction H1.
  - simpl. case_bool_decide as E1; [|reflexivity]. injection E1 as ->.
    case_bool_decide as E2; [|reflexivity]. injection E2 as ->.
    contradiction H2.
  - reflexivity.
Qed.

(** A file name under a directory in normal form is a path in normal form. *)
Lemma path_of_file (d n : string) :
  normal_dir d -> file_name n -> path_of (d +:+ "/" +:+ n) = d +:+ "/" +:+ n.
Proof.
  intros [Hd Hp] [Hn Hk].
  assert (Hparts : parts (d +:+ "/" +:+ n) = parts d ++ [n]).
  { unfold parts. rewrite !chars_app. change (PyStr.chars "/") with ["/"%char].
    simpl app. rewrite parts_l_file by assumption.
    rewrite map_app. simpl. unfold PyStr.str, PyStr.chars.
    rewrite string_of_list_ascii_of_string. reflexivity. }
  unfold path_of. cbv zeta. rewrite Hparts, root_file by exact Hp.
  replace (bool_decide (parts d ++ [n] = [])) with false
    by (symmetry; apply bool_decide_eq_false; destruct (parts d); discriminate).
  rewrite andb_false_r, join_snoc by exact Hp.
  rewrite <- Hd at 3. unfold path_of. cbv zeta.
  rewrite (bool_decide_eq_false_2 (parts d = [])) by exact Hp.
  rewrite andb_false_r, !append_assoc. reflexivity.
Qed.

Lemma name_of_file (d n : string) :
  file_name n -> name_of (d +:+ "/" +:+ n) = n.
Proof.
  intros [Hn Hk]. unfold name_of, name_l. rewrite !chars_app.
  change (PyStr.chars "/") with ["/"%char]. simpl app.
  rewrite parts_l_file, last_last by assumption.
  apply string_of_list_ascii_of_string.
Qed.


Lemma last_join (ps : list (list ascii)) (w : list ascii) :
  last ps = Some w -> w <> [] ->
  last (PyStr.chars (join "/" (map PyStr.str ps))) = last w.
Proof.
  intros Hlast Hw. induction ps as [|x ps IH]; [discriminate|].
  destruct ps as [|y ps].
  - injection Hlast as ->. simpl. rewrite chars_str. reflexivity.
  - change (join "/" (map PyStr.str (x :: y :: ps)))
      with (PyStr.str x +:+ "/" +:+ join "/" (map PyStr.str (y :: ps))).
    rewrite !chars_app, !last_app, IH by exact Hlast.
    destruct (last w) eqn:E; [reflexivity|].
    apply last_None in E. contradiction.
Qed.

(** A directory in normal form does not end in a slash. *)
Lemma normal_dir_end (d : string) :
  normal_dir d -> d <> "" /\ last (PyStr.chars d) <> Some "/"%char.
Proof.
  intros [Hd Hp]. split; [intros ->; apply Hp; reflexivity|].
  rewrite <- Hd. unfold path_of. cbv zeta.
  rewrite (bool_decide_eq_false_2 (parts d = [])), andb_false_r by exact Hp.
  unfold parts in *. pose proof (parts_l_free (PyStr.chars d)) as Hfree.
  destruct (parts_l (PyStr.chars d)) as [|x ps] eqn:E using rev_ind;
    [contradiction Hp; reflexivity|]. clear IHps.
  assert (Hk : kept x = true).
  { assert (Hin : In x (parts_l (PyStr.chars d)))
      by (rewrite E; apply in_or_app; right; left; reflexivity).
    apply filter_In in Hin. tauto. }
  apply Forall_app in Hfree as [_ Hx]. apply Forall_cons in Hx as [Hx _].
  assert (Hne : x <> []) by (intros ->; discriminate Hk).
  rewrite chars_app, last_app, (last_join _ x (last_snoc _ _) Hne).
  destruct (last x) as [c|] eqn:El; [|apply last_None in El; contradiction].
  intros [= ->]. apply Hx. apply list_elem_of_lookup.
  rewrite last_lookup in El. eauto.
Qed.

Lemma file_name_relative (n : string) :
  file_name n -> PathLib.is_absolute n = false.
Proof.
  intros [Hn Hk]. unfold PathLib.is_absolute.
  destruct (PyStr.chars n) as [|c l]; [reflexivity|].
  apply not_elem_of_cons in Hn as [Hc _].
  destruct c as [[] [] [] [] [] [] [] []]; try reflexivity.
  contradiction Hc. reflexivity.
Qed.

(** [OUTPUT_DIR / name] for a file name, by [pathlib] and as the conversion
    writes it. *)
Lemma posix_join_file (d n : string) :
  normal_dir d -> file_name n ->
  path_of (posix_join d n) = PathLib.joinpath d n /\
  name_of (PathLib.joinpath d n) = n.
Proof.
  intros Hd Hn. destruct (normal_dir_end d Hd) as [Hne Hend].
  unfold posix_join, PathLib.joinpath.
  rewrite (file_name_relative n Hn).
  rewrite (bool_decide_eq_false_2 (d = "")) by exact Hne.
  rewrite (bool_decide_eq_false_2 (last _ = _)) by exact Hend.
  simpl orb. cbv iota. split; [apply path_of_file|apply name_of_file];
    assumption.
Qed.

(** An output as the conversions record it: a file in [OUTPUT_DIR]. *)
Definition recorded_under (cfg : Config.Settings) (p : PathLib.Path) : Prop :=
  exists n, file_name n /\ p = PathLib.joinpath (Config.OUTPUT_DIR cfg) n.

Lemma pretty_N_go_slash (x : N) (s : string) :
  "/"%char ∉ PyStr.chars s -> "/"%char ∉ PyStr.chars (pretty_N_go x s).
Proof.
  revert s. induction (N.lt_wf_0 x) as [x _ IH]; intros s Hs.
  destruct (decide (x = 0)%N) as [->|Hx]; [exact Hs|].
  rewrite pretty_N_go_step by lia. apply IH; [apply N.div_lt; lia|].
  change (PyStr.chars (String ?c s)) with (c :: PyStr.chars s).
  apply not_elem_of_cons. split; [|exact Hs].
  unfold pretty_N_char. repeat case_match; discriminate.
Qed.

Lemma pretty_Z_slash (z : Z) : "/"%char ∉ PyStr.chars (pretty z).
Proof.
  assert (HN : forall n : N, "/"%char ∉ PyStr.chars (pretty n)).
  { intros n. unfold pretty, pretty_N. case_decide.
    - apply (bool_decide_unpack _). vm_compute. exact I.
    - apply pretty_N_go_slash, not_elem_of_nil. }
  destruct z as [|p|p]; unfold pretty, pretty_Z.
  - apply (bool_decide_unpack _). vm_compute. exact I.
  - apply HN.
  - rewrite chars_app, elem_of_app. intros [Hin|Hin]; [|exact (HN _ Hin)].
    revert Hin. apply (bool_decide_unpack _). vm_compute. exact I.
Qed.

Lemma size_suffix_slash (tw th : option Z) :
  "/"%char ∉ PyStr.chars (size_suffix tw th).
Proof.
  assert (Hx : "/"%char ∉ PyStr.chars "x")
    by (apply (bool_decide_unpack _); vm_compute; exact I).
  pose proof pretty_Z_slash as HZ.
  destruct tw as [w|], th as [h|]; unfold size_suffix;
    rewrite ?chars_app, ?elem_of_app; try (specialize (HZ w));
    try (pose proof (pretty_Z_slash h)); try tauto.
  apply (bool_decide_unpack _). vm_compute. exact I.
Qed.

Lemma format_slash (ok : string -> bool) (fmts : list string) (f : string) :
  (forall g, ok g = true -> g ∈ fmts) ->
  Forall (fun g => "/"%char ∉ PyStr.chars g) fmts ->
  ok f = true -> "/"%char ∉ PyStr.chars f.
Proof.
  intros Hok Hall Hf. rewrite Forall_forall in Hall. apply Hall, Hok, Hf.
Qed.

Lemma kept_underscore (l : list ascii) : "_"%char ∈ l -> kept l = true.
Proof.
  intros Hin. unfold kept.
  rewrite !bool_decide_eq_false_2; [reflexivity| |].
  - intros ->. apply list_elem_of_singleton in Hin. discriminate.
  - intros ->. apply elem_of_nil in Hin. exact Hin.
Qed.

(** The outputs [convert] records for a task whose identifier holds no
    slash are files in [OUTPUT_DIR]. *)
Lemma expected_recorded (cfg : Config.Settings) (src : PathLib.Path)
    (task : string) (ps : list SizePreset) (fmts : list string)
    (y : PathLib.Path) :
  "/"%char ∉ PyStr.chars task ->
  y ∈ image_expected cfg src task ps fmts \/
  y ∈ video_expected cfg src task fmts ->
  recorded_under cfg y.
Proof.
  intros Htask Hy.
  assert (Hpre : "/"%char ∉ PyStr.chars (PyStr.prefix 8 task)).
  { unfold PyStr.prefix. rewrite chars_str. intros Hin. apply Htask.
    eapply subseteq_take, Hin. }
  assert (Hsep : forall c : string,
            c = "_" \/ c = "." -> "/"%char ∉ PyStr.chars c).
  { intros c [->| ->]; apply (bool_decide_unpack _); vm_compute; exact I. }
  pose proof (stem_free src) as Hstem.
  destruct Hy as [Hy|Hy].
  - unfold image_expected in Hy.
    apply list_elem_of_bind in Hy as (p & Hy & _).
    apply list_elem_of_bind in Hy as (f & Hy & _).
    apply elem_of_produced in Hy as [Hok ->].
    eexists. split; [|reflexivity]. split.
    + unfold image_out_name. rewrite !chars_app, !elem_of_app.
      pose proof (size_suffix_slash p.1.1 p.1.2) as Hsuf.
      assert (Hf : "/"%char ∉ PyStr.chars (PyStr.lower f)).
      { apply bool_decide_eq_true in Hok.
        revert Hok. generalize (PyStr.lower f). intros g.
        unfold Config.IMAGE_OUTPUT_FORMATS.
        rewrite !elem_of_cons, elem_of_nil.
        intros Hg. repeat destruct Hg as [->|Hg]; try destruct Hg;
          apply (bool_decide_unpack _); vm_compute; exact I. }
      pose proof (Hsep "_" ltac:(auto)). pose proof (Hsep "." ltac:(auto)).
      unfold suffix_of. tauto.
    + apply kept_underscore. unfold image_out_name.
      rewrite !chars_app, !elem_of_app. right. left. left.
  - unfold video_expected in Hy.
    apply list_elem_of_bind in Hy as (f & Hy & _).
    apply elem_of_produced in Hy as [Hok ->].
    eexists. split; [|reflexivity]. split.
    + unfold video_out_name. rewrite !chars_app, !elem_of_app.
      assert (Hf : "/"%char ∉ PyStr.chars (PyStr.lower f)).
      { apply bool_decide_eq_true in Hok.
        revert Hok. generalize (PyStr.lower f). intros g.
        unfold Config.VIDEO_OUTPUT_FORMATS.
        rewrite !elem_of_cons, elem_of_nil.
        intros Hg. repeat destruct Hg as [->|Hg]; try destruct Hg;
          apply (bool_decide_unpack _); vm_compute; exact I. }
      pose proof (Hsep "_" ltac:(auto)). pose proof (Hsep "." ltac:(auto)).
      tauto.
    + apply kept_underscore. unfold video_out_name.
      rewrite !chars_app, !elem_of_app. right. left. left.
Qed.

Section WithWorld.
Context {W : Type} `{World W} (cfg : Config.Settings).

(** X20. [download_output] hands out a file only for a registered task and
    only under a name that is the name of one of the task's output paths;
    it changes neither a task nor a job. When the outputs are files in
    [OUTPUT_DIR], as the conversions record them, the file handed out is one
    of the task's outputs: no other file of the directory and no file
    outside of it can be fetched through a task. *)
Theorem download_output_serves_recorded (task_id filename : string)
    (st st' : State W) (path : PathLib.Path)
    (Hrun : download_output cfg task_id filename st = (Ok (inr path), st')) :
  exists t,
    tasks st !! task_id = Some t /\
    filename ∈ map name_of (output_paths t) /\
    tasks st' = tasks st /\ batches st' = batches st /\
    (normal_dir (Config.OUTPUT_DIR cfg) ->
     Forall (recorded_under cfg) (output_paths t) ->
     path ∈ output_paths t).
Proof.
  unfold download_output, bind, get_tasks, call, ret in Hrun. simpl in Hrun.
  destruct (tasks st !! task_id) as [t|] eqn:Et; [|discriminate].
  destruct (path_is_file _ (world st)) as [[] w]; simpl in Hrun;
    [|discriminate].
  case_bool_decide as Hin; simpl in Hrun; [|discriminate].
  injection Hrun as <- <-. exists t. split; [reflexivity|].
  split; [exact Hin|]. split; [reflexivity|]. split; [reflexivity|].
  intros Hdir Hall.
  apply list_elem_of_In, in_map_iff in Hin as (p & Hname & Hp).
  apply list_elem_of_In in Hp. rewrite Forall_forall in Hall.
  destruct (Hall p Hp) as (n & Hn & ->).
  destruct (posix_join_file _ n Hdir Hn) as [Hpath Hnm].
  rewrite Hnm in Hname. subst filename. rewrite Hpath. exact Hp.
Qed.

End WithWorld.
End DownloadProps.

Module DownloadRuns.
Import Models Service Sim Uploads Downloads DownloadProps ConvertRuns.

(** A conversion of the photograph, then a download of its output. *)
Lemma download_output_serves_recorded_witness :
  exists t,
    tasks (convert_photo ["webp"] None None disk0).2 !! first_id = Some t /\
    "/srv/backend/outputs/photo_3f2a9c1e_original.webp" ∈ output_paths t.
Proof.
  pose (st := (convert_photo ["webp"] None None disk0).2).
  destruct (download_output_serves_recorded Config.default_settings first_id
              "photo_3f2a9c1e_original.webp" st st
              "/srv/backend/outputs/photo_3f2a9c1e_original.webp")
    as (t & Ht & _ & _ & _ & Hserved); [vm_compute; reflexivity|].
  exists t. split; [exact Ht|]. apply Hserved.
  - split; [vm_compute; reflexivity|vm_compute; discriminate].
  - apply Forall_forall. intros y Hy.
    apply (expected_recorded Config.default_settings "/up/photo.png" first_id
             [(None, None, "original")] ["webp"]).
    + apply (bool_decide_unpack _). vm_compute. exact I.
    + left. pose proof Ht as Hrun. vm_compute in Hrun.
      injection Hrun as <-. exact Hy.
Defined.

End DownloadRuns.

(** ** The batch runner (api/routes.py, [_run_batch_and_zip]) *)

Module RunnerProps.
Import Models BatchModel Batch Routes Logic BatchProps.

Section WithWorld.
Context {W : Type} `{World W} (cfg : Config.Settings).

(** A computation that only talks to the world: both registries stay. *)
Definition world_only {A} (m : M W A) : Prop :=
  forall st, mem (m st).2 = mem st.

Lemma world_only_ret {A} (a : A) : world_only (ret a).
Proof. intros st. reflexivity. Qed.

Lemma world_only_raise {A} e : world_only (raise (A := A) e).
Proof. intros st. reflexivity. Qed.

Lemma world_only_call {A} (op : W -> A * W) : world_only (call op).
Proof. intros st. unfold call. destruct (op (world st)). reflexivity. Qed.

Lemma world_only_call_r {A} (op : W -> result A * W) :
  world_only (call_r op).
Proof. intros st. unfold call_r. destruct (op (world st)). reflexivity. Qed.

Lemma world_only_bind {A B} (m : M W A) (k : A -> M W B) :
  world_only m -> (forall a, world_only (k a)) -> world_only (bind m k).
Proof.
  intros Hm Hk st. unfold bind. specialize (Hm st).
  destruct (m st) as [[a|e] st']; simpl in *; [|exact Hm].
  rewrite Hk. exact Hm.
Qed.

Lemma world_only_for_fold {A S} (l : list A) (acc : S)
    (body : A -> S -> M W S) :
  (forall x a, world_only (body x a)) -> world_only (for_fold l acc body).
Proof.
  intros Hbody. revert acc. induction l as [|x l IH]; intros acc; simpl.
  - apply world_only_ret.
  - apply world_only_bind; [apply Hbody|]. intros acc'. apply IH.
Qed.

Lemma world_only_for_each {A} (l : list A) (body : A -> M W unit) :
  (forall x, world_only (body x)) -> world_only (for_each l body).
Proof. intros Hbody. apply world_only_for_fold. intros x _. apply Hbody. Qed.

Lemma world_only_try_except {A} (m : M W A) (h : PyExc -> M W A) :
  world_only m -> (forall e, world_only (h e)) ->
  world_only (try_except m h).
Proof.
  intros Hm Hh st. unfold try_except. specialize (Hm st).
  destruct (m st) as [[a|e] st']; simpl in *; [exact Hm|].
  rewrite Hh. exact Hm.
Qed.

Lemma world_only_try_finally {A} (m : M W A) (f : M W unit) :
  world_only m -> world_only f -> world_only (try_finally m f).
Proof.
  intros Hm Hf st. unfold try_finally. specialize (Hm st).
  destruct (m st) as [r st']. specialize (Hf st').
  destruct (f st') as [[[]|e] st'']; simpl in *; congruence.
Qed.

Lemma cleanup_world_only uploaded : world_only (cleanup_uploads uploaded).
Proof.
  apply world_only_for_each. intros d.
  apply world_only_bind; [apply world_only_call|]. intros [].
  - apply world_only_try_except; [apply world_only_call_r|].
    intros e. destruct (is_OSError _);
      [apply world_only_ret|apply world_only_raise].
  - apply world_only_ret.
Qed.

Lemma create_zip_world_only batch_id paths fs names :
  world_only (create_zip_from_task_outputs cfg batch_id paths fs names).
Proof.
  unfold create_zip_from_task_outputs.
  apply world_only_bind; [apply world_only_call_r|]. intros _.
  apply world_only_bind; [|intros _; apply world_only_ret].
  apply world_only_try_finally; [|apply world_only_call_r].
  apply world_only_for_each. intros [task paths'].
  apply world_only_for_each. intros p.
  apply world_only_bind; [apply world_only_call|]. intros [];
    [apply world_only_call_r|apply world_only_ret].
Qed.






End WithWorld.
End RunnerProps.

(** ** Runs of the batch functions in the simulated world *)

Module BatchRuns.
Import Models BatchModel Batch Routes Sim BatchProps RunnerProps.

(** The batch [batch-1] of the single upload [photo.png], converted to
    WebP, as [upload_batch] starts it: the job is created, then the runner
    is called. *)
Definition run_batch (d : Disk) : State Disk :=
  (_run_batch_and_zip Config.default_settings
     (Service.convert_many_in_order Config.default_settings
        ["/up/photo.png"] ["webp"] false None (Some ["original"]) "crop"
        None None false false false None)
     "batch-1" ["/up/photo.png"] "by_file" None
     (after (CreateBatch "batch-1" [] None) (state0 d))).2.



(** C7 fails as stated. A job completed and then failed keeps its archive
    name; the runner itself makes these two calls when the database stops
    answering after the job was created. *)
Lemma failed_job_keeps_archive :
  let st := after (SetFailed "b1" "upload vanished")
              (after (SetCompleted "b1" "b1.zip" (Some ["t1"]))
                 (after (CreateBatch "b1" [] None) (state0 disk0))) in
  reachable st /\
  (exists job,
     batches st !! "b1" = Some job /\ status job = "failed" /\
     zip_filename job = Some "b1.zip" /\ ~ status_exact job) /\
  (exists job,
     batches (run_batch (with_db_calls_left 1 disk0)) !! "batch-1"
     = Some job /\
     status job = "failed" /\ zip_filename job = Some "batch-1.zip" /\
     error job = Some "database is locked").
Proof.
  intros st. split; [|split].
  - repeat apply reach_call. apply reach_empty. reflexivity.
  - eexists. split; [vm_compute; reflexivity|]. simpl.
    repeat (split; [reflexivity|]).
    intros [Hzip _]. assert (Hc : "failed" = "completed") by (apply Hzip; eauto).
    discriminate Hc.
  - eexists. split; [vm_compute; reflexivity|]. simpl.
    repeat split; reflexivity.
Qed.

Lemma batch_status_fields_witness :
  let st := after (SetCompleted "b1" "b1.zip" (Some ["t1"]))
              (after (CreateBatch "b1" [] None) (state0 disk0)) in
  exists job, batches st !! "b1" = Some job /\ status_exact job.
Proof.
  intros st.
  assert (Hjob : batches st !! "b1"
                 = Some (mkBatchJob "b1" "completed" ["t1"] None
                           (Some "b1.zip")))
    by (vm_compute; reflexivity).
  assert (Honce : reachable_once st).
  { apply once_call; [apply once_call; [apply once_empty; reflexivity|exact I]|].
    intros job. vm_compute. intros [= <-]. reflexivity. }
  eexists. split; [exact Hjob|].
  apply (batch_status_fields st "b1" _
           (reachable_once_reachable st Honce) Hjob), Honce.
Defined.

End BatchRuns.

(** ** Looking up batch jobs (batch.py) *)

Module BatchLookupProps.
Import BatchModel Batch BatchLookup BatchProps.

Section WithWorld.
Context {W : Type} `{World W} `{BatchStore W}.

(** X14. A job that [create_batch] has registered is found by [get_batch]
    without a look into the database, also when saving it had raised. *)
Theorem get_batch_after_create (batch_id : string) (task_ids : list string)
    (session_id : option string) (st : State W) :
  let st1 := (create_batch batch_id task_ids session_id st).2 in
  get_batch batch_id st1
  = (Ok (Some (mkBatchJob batch_id "processing" task_ids None None)), st1).
Proof.
  intros st1. unfold get_batch, bind, get_batches.
  assert (Hjob : batches st1 !! batch_id
                 = Some (mkBatchJob batch_id "processing" task_ids None None)).
  { unfold st1, create_batch, bind, get_batches, put_batches, call_r, ret.
    simpl. destruct (db_save_batch _ _ _ _ _) as [[[]|e] w]; simpl;
      apply lookup_insert_eq. }
  rewrite Hjob. reflexivity.
Qed.

(** X15. What [get_batch] does to the registry and what it returns: a job
    already registered is returned as it is and nothing changes; a job
    found in the database is registered under the asked identifier; no
    other entry is touched; and a repeated call returns the same job with
    no further look into the database. *)
Theorem get_batch_caches (batch_id : string) (st st' : State W)
    (r : option BatchJob)
    (Hget : get_batch batch_id st = (Ok r, st')) :
  batches st' !! batch_id = r /\
  (forall job, batches st !! batch_id = Some job ->
     r = Some job /\ st' = st) /\
  (forall k, k <> batch_id -> batches st' !! k = batches st !! k) /\
  tasks st' = tasks st /\
  (forall job, r = Some job -> get_batch batch_id st' = (Ok (Some job), st')).
Proof.
  unfold get_batch, bind, get_batches, put_batches, call_r, ret in Hget.
  simpl in Hget. destruct (batches st !! batch_id) as [job|] eqn:Ejob.
  - injection Hget as <- <-.
    split; [exact Ejob|]. split; [intros j [= <-]; auto|].
    split; [reflexivity|]. split; [reflexivity|].
    intros j [= <-]. unfold get_batch, bind, get_batches. rewrite Ejob.
    reflexivity.
  - destruct (db_get_batch batch_id (world st)) as [[[row|]|e] w];
      simpl in Hget; [| |discriminate Hget].
    + injection Hget as <- <-. simpl.
      split; [apply lookup_insert_eq|]. split; [discriminate|].
      split; [intros k Hk; apply lookup_insert_ne; congruence|].
      split; [reflexivity|].
      intros j [= <-]. unfold get_batch, bind, get_batches. simpl.
      rewrite lookup_insert_eq. reflexivity.
    + injection Hget as <- <-. simpl.
      split; [exact Ejob|]. split; [discriminate|].
      split; [reflexivity|]. split; [reflexivity|]. discriminate.
Qed.

(** [get_batch] lets through what the database raises, and then the
    registry is as before. *)
Lemma get_batch_raises (batch_id : string) (st st' : State W) (e : PyExc) :
  get_batch batch_id st = (Raise e, st') ->
  batches st !! batch_id = None /\ batches st' = batches st /\
  (db_get_batch batch_id (world st)).1 = Raise e.
Proof.
  unfold get_batch, bind, get_batches, put_batches, call_r, ret. simpl.
  destruct (batches st !! batch_id) as [job|]; [discriminate|].
  destruct (db_get_batch batch_id (world st)) as [[[row|]|e'] w]; simpl;
    try discriminate.
  intros [= <- <-]. auto.
Qed.

(** X16. In every state reached by [create_batch], [set_batch_completed] and
    [set_batch_failed], a job is stored under its own [batch_id]; and a call
    of one of them never removes a job. *)
Theorem batch_registry_keys (st : State W) :
  reachable st ->
  (forall id job, batches st !! id = Some job -> batch_id job = id) /\
  (forall c id, is_Some (batches st !! id) ->
     is_Some (batches (after c st) !! id)).
Proof.
  intros Hreach. split.
  - induction Hreach as [st Hempty|st c Hst IH]; intros id job.
    + rewrite Hempty, lookup_empty. discriminate.
    + rewrite batches_exec. destruct c as [k t s|k z t|k e]; simpl.
      * rewrite lookup_insert. case_decide; [|apply IH].
        intros [= <-]. simpl. congruence.
      * destruct (batches st !! k) as [j|] eqn:Ej; [|apply IH].
        rewrite lookup_insert. case_decide; [|apply IH].
        intros [= <-]. simpl. subst id. apply IH, Ej.
      * destruct (batches st !! k) as [j|] eqn:Ej; [|apply IH].
        rewrite lookup_insert. case_decide; [|apply IH].
        intros [= <-]. simpl. subst id. apply IH, Ej.
  - intros c id Hid. rewrite batches_exec.
    destruct c as [k t s|k z t|k e]; simpl.
    + rewrite lookup_insert. case_decide; eauto.
    + destruct (batches st !! k); [|exact Hid].
      rewrite lookup_insert. case_decide; eauto.
    + destruct (batches st !! k); [|exact Hid].
      rewrite lookup_insert. case_decide; eauto.
Qed.

End WithWorld.
End BatchLookupProps.

Module BatchLookupRuns.
Import BatchModel Batch BatchLookup BatchProps BatchLookupProps Sim SimStore.

Lemma get_batch_caches_witness :
  get_batch "batch-7" (get_batch "batch-7" (state0 disk0)).2
  = (Ok (Some (job_of_row stored_row)),
     (get_batch "batch-7" (state0 disk0)).2).
Proof.
  destruct (get_batch "batch-7" (state0 disk0)) as [r st'] eqn:Hget.
  pose proof Hget as Hrun. vm_compute in Hrun. injection Hrun as Hr _.
  subst r.
  destruct (get_batch_caches "batch-7" (state0 disk0) st' _ Hget)
    as (_ & _ & _ & _ & Hagain).
  apply Hagain. reflexivity.
Defined.

Lemma batch_registry_keys_witness :
  exists job,
    batches (after (SetFailed "b1" "upload vanished")
               (after (CreateBatch "b1" [] None) (state0 disk0))) !! "b1"
    = Some job /\
    batch_id job = "b1".
Proof.
  set (st := after (SetFailed "b1" "upload vanished")
               (after (CreateBatch "b1" [] None) (state0 disk0))).
  assert (Hreach : reachable st)
    by (repeat apply reach_call; apply reach_empty; reflexivity).
  destruct (batches st !! "b1") as [job|] eqn:E.
  - exists job. split; [reflexivity|].
    apply (proj1 (batch_registry_keys st Hreach) "b1" job E).
  - vm_compute in E. discriminate E.
Defined.

End BatchLookupRuns.

(** ** What the batch runner leaves alone (api/routes.py) *)

Module RunnerFrame.
Import Models BatchModel Batch Routes Logic BatchProps RunnerProps.

Section WithWorld.
Context {W : Type} `{World W} (cfg : Config.Settings).

(** A computation that leaves every task and every job but [id] alone, and
    keeps [id] registered if it was. *)
Definition own_job_only {A} (id : string) (m : M W A) : Prop :=
  forall st,
    tasks (m st).2 = tasks st /\
    (forall k, k <> id -> batches (m st).2 !! k = batches st !! k) /\
    (is_Some (batches st !! id) -> is_Some (batches (m st).2 !! id)).

Lemma own_job_world {A} id (m : M W A) : world_only m -> own_job_only id m.
Proof.
  intros Hm st. specialize (Hm st). unfold mem in Hm.
  injection Hm as Ht Hb. rewrite Ht, Hb. auto.
Qed.

Lemma own_job_bind {A B} id (m : M W A) (k : A -> M W B) :
  own_job_only id m -> (forall a, own_job_only id (k a)) ->
  own_job_only id (bind m k).
Proof.
  intros Hm Hk st. unfold bind. specialize (Hm st).
  destruct (m st) as [[a|e] st1]; simpl in *; [|exact Hm].
  destruct Hm as (Ht & Hb & Hs). destruct (Hk a st1) as (Ht' & Hb' & Hs').
  split; [congruence|]. split; [|auto].
  intros j Hj. rewrite Hb', Hb by exact Hj. reflexivity.
Qed.

Lemma own_job_try_except {A} id (m : M W A) (h : PyExc -> M W A) :
  own_job_only id m -> (forall e, own_job_only id (h e)) ->
  own_job_only id (try_except m h).
Proof.
  intros Hm Hh st. unfold try_except. specialize (Hm st).
  destruct (m st) as [[a|e] st1]; simpl in *; [exact Hm|].
  destruct Hm as (Ht & Hb & Hs). destruct (Hh e st1) as (Ht' & Hb' & Hs').
  split; [congruence|]. split; [|auto].
  intros j Hj. rewrite Hb', Hb by exact Hj. reflexivity.
Qed.

Lemma set_batch_failed_own id e : own_job_only id (set_batch_failed id e).
Proof.
  intros st. unfold set_batch_failed, bind, get_batches, put_batches,
    call_r, ret. simpl.
  destruct (batches st !! id) as [job|] eqn:Ej; simpl;
    destruct (db_update_batch_status _ _ _ _ _ _) as [[[]|?] ?]; simpl;
    (split; [reflexivity|split]); auto.
  all: first [ intros k Hk; apply lookup_insert_ne; congruence
             | intros _; rewrite lookup_insert_eq; eauto
             | intros [? [=]] ].
Qed.

Lemma set_batch_completed_own id z t :
  own_job_only id (set_batch_completed id z t).
Proof.
  intros st. unfold set_batch_completed, bind, get_batches, put_batches,
    call_r, ret. simpl.
  destruct (batches st !! id) as [job|] eqn:Ej; simpl;
    destruct (db_update_batch_status _ _ _ _ _ _) as [[[]|?] ?]; simpl;
    (split; [reflexivity|split]); auto.
  all: first [ intros k Hk; apply lookup_insert_ne; congruence
             | intros _; rewrite lookup_insert_eq; eauto
             | intros [? [=]] ].
Qed.

(** What follows the conversions in the [try] block. *)
Definition after_conversions (batch_id zip_folder_structure : string)
    (session_id : option string) (tasks : list ConversionTask) : M W unit :=
  run_batch_body cfg (ret tasks) batch_id zip_folder_structure session_id.

Lemma run_batch_body_split convert_many batch_id fs sid :
  run_batch_body cfg convert_many batch_id fs sid
  = bind convert_many (after_conversions batch_id fs sid).
Proof. reflexivity. Qed.

Lemma after_conversions_own batch_id fs sid tasks :
  own_job_only batch_id (after_conversions batch_id fs sid tasks).
Proof.
  unfold after_conversions, run_batch_body.
  apply own_job_bind; [apply own_job_world, world_only_ret|]. intros ts.
  apply own_job_bind.
  { apply own_job_world. destruct sid as [s|]; [|apply world_only_ret].
    destruct (bool_decide (s = "")); [apply world_only_ret|].
    apply world_only_for_each. intros t. apply world_only_call_r. }
  intros _. destruct (task_id_to_paths_of ts) as [|x l].
  - apply set_batch_failed_own.
  - apply own_job_bind; [apply own_job_world, create_zip_world_only|].
    intros n. apply set_batch_completed_own.
Qed.

Lemma own_job_try_finally {A} id (m : M W A) (f : M W unit) :
  own_job_only id m -> own_job_only id f ->
  own_job_only id (try_finally m f).
Proof.
  intros Hm Hf st. unfold try_finally. specialize (Hm st).
  destruct (m st) as [r st1]. destruct Hm as (Ht & Hb & Hs).
  destruct (Hf st1) as (Ht' & Hb' & Hs').
  destruct (f st1) as [[[]|e] st2]; simpl in *;
    (split; [congruence|]); (split; [|auto]);
    intros j Hj; rewrite Hb', Hb by exact Hj; reflexivity.
Qed.

(** The runner once the conversions have ended, with [r] their result. *)
Definition settle (batch_id : string) (uploaded : list PathLib.Path)
    (zip_folder_structure : string) (session_id : option string)
    (r : result (list ConversionTask)) : M W unit :=
  try_finally
    (try_except
       (match r with
        | Ok tasks =>
            after_conversions batch_id zip_folder_structure session_id tasks
        | Raise e => raise e
        end)
       (fun e => set_batch_failed batch_id (exc_str e)))
    (cleanup_uploads uploaded).

Lemma run_batch_settle convert_many batch_id uploaded fs sid st :
  _run_batch_and_zip cfg convert_many batch_id uploaded fs sid st
  = settle batch_id uploaded fs sid (convert_many st).1 (convert_many st).2.
Proof.
  unfold _run_batch_and_zip, settle, try_finally, try_except.
  rewrite run_batch_body_split. unfold bind.
  destruct (convert_many st) as [[ts|e] st1]; reflexivity.
Qed.

Lemma settle_own batch_id uploaded fs sid r :
  own_job_only batch_id (settle batch_id uploaded fs sid r).
Proof.
  apply own_job_try_finally; [|apply own_job_world, cleanup_world_only].
  apply own_job_try_except; [|intros e; apply set_batch_failed_own].
  destruct r as [ts|e]; [apply after_conversions_own|].
  apply own_job_world, world_only_raise.
Qed.

(** X17. Once the conversions have ended, [_run_batch_and_zip] changes no task
    and no job but its own, and it does not remove its own job. *)
Theorem run_batch_own_job (convert_many : M W (list ConversionTask))
    (batch_id : string) (uploaded : list PathLib.Path)
    (zip_folder_structure : string) (session_id : option string)
    (st : State W) :
  let st1 := (convert_many st).2 in
  let st' := (_run_batch_and_zip cfg convert_many batch_id uploaded
                zip_folder_structure session_id st).2 in
  tasks st' = tasks st1 /\
  (forall k, k <> batch_id -> batches st' !! k = batches st1 !! k) /\
  (is_Some (batches st1 !! batch_id) -> is_Some (batches st' !! batch_id)).
Proof.
  intros st1 st'. unfold st'. rewrite run_batch_settle. apply settle_own.
Qed.

Lemma set_batch_failed_sets id err (st : State W) :
  is_Some (batches st !! id) ->
  exists job,
    batches (set_batch_failed id err st).2 !! id = Some job /\
    status job = "failed" /\ error job = Some err.
Proof.
  intros [job Hjob]. unfold set_batch_failed, bind, get_batches, put_batches,
    call_r, ret. simpl. rewrite Hjob. simpl.
  destruct (db_update_batch_status _ _ _ _ _ _) as [[[]|?] ?]; simpl;
    eexists; rewrite lookup_insert_eq; split; try reflexivity; auto.
Qed.

(** X18. When the [try] block of [_run_batch_and_zip] raises, be it in the
    conversions, in recording the activity, in writing the archive or in
    updating the database, a registered job ends [failed] with the text of
    the exception as its error, also when the database update of the
    handler raises in turn. *)
Theorem run_batch_failure (convert_many : M W (list ConversionTask))
    (batch_id : string) (uploaded : list PathLib.Path)
    (zip_folder_structure : string) (session_id : option string)
    (st : State W) (e : PyExc)
    (Hreg : is_Some (batches (convert_many st).2 !! batch_id))
    (Hraise : (run_batch_body cfg convert_many batch_id
                 zip_folder_structure session_id st).1 = Raise e) :
  exists job,
    batches (_run_batch_and_zip cfg convert_many batch_id uploaded
               zip_folder_structure session_id st).2 !! batch_id
    = Some job /\
    status job = "failed" /\ error job = Some (exc_str e).
Proof.
  rewrite run_batch_settle. rewrite run_batch_body_split in Hraise.
  unfold bind in Hraise. unfold settle, try_finally, try_except.
  destruct (convert_many st) as [[ts|e0] st1]; simpl in *.
  - destruct (after_conversions_own batch_id zip_folder_structure
                session_id ts st1) as (_ & _ & Hkept).
    destruct (after_conversions _ _ _ ts st1) as [r st2].
    simpl in Hraise. subst r. specialize (Hkept Hreg).
    destruct (set_batch_failed_sets batch_id (exc_str e) st2 Hkept)
      as (job & Hjob & Hs & He).
    pose proof (cleanup_world_only uploaded
                  (set_batch_failed batch_id (exc_str e) st2).2) as Hclean.
    destruct (set_batch_failed batch_id (exc_str e) st2) as [r3 st3].
    simpl in *. destruct (cleanup_uploads uploaded st3) as [[[]|e4] st4];
      simpl in *; injection Hclean as _ Hb; exists job; rewrite Hb; auto.
  - injection Hraise as ->.
    destruct (set_batch_failed_sets batch_id (exc_str e) st1 Hreg)
      as (job & Hjob & Hs & He).
    pose proof (cleanup_world_only uploaded
                  (set_batch_failed batch_id (exc_str e) st1).2) as Hclean.
    destruct (set_batch_failed batch_id (exc_str e) st1) as [r3 st3].
    simpl in *. destruct (cleanup_uploads uploaded st3) as [[[]|e4] st4];
      simpl in *; injection Hclean as _ Hb; exists job; rewrite Hb; auto.
Qed.

End WithWorld.
End RunnerFrame.

Module RunnerFrameRuns.
Import Models BatchModel Batch Routes Sim BatchProps RunnerProps RunnerFrame
  BatchRuns.

Lemma run_batch_failure_witness :
  exists job,
    batches (run_batch disk_no_zip) !! "batch-1" = Some job /\
    status job = "failed" /\
    error job
    = Some "[Errno 13] Permission denied: '/srv/backend/zips/batch-1.zip'".
Proof.
  apply (run_batch_failure Config.default_settings _ "batch-1"
           ["/up/photo.png"] "by_file" None
           (after (CreateBatch "batch-1" [] None) (state0 disk_no_zip))
           (mkExc OSError
              "[Errno 13] Permission denied: '/srv/backend/zips/batch-1.zip'")).
  - vm_compute. eauto.
  - vm_compute. reflexivity.
Defined.

End RunnerFrameRuns.

(** ** What [convert] leaves alone (conversion/service.py) *)

Module TaskFrame.
Import Models Service Logic RunnerProps OutputProps.

Section WithWorld.
Context {W : Type} `{World W} (cfg : Config.Settings).

(** A computation that leaves the jobs and every task but [tid] alone. *)
Definition own_task_only {A} (tid : string) (m : M W A) : Prop :=
  forall st,
    batches (m st).2 = batches st /\
    forall k, k <> tid -> tasks (m st).2 !! k = tasks st !! k.

Lemma own_task_world {A} tid (m : M W A) : world_only m -> own_task_only tid m.
Proof.
  intros Hm st. specialize (Hm st). unfold mem in Hm.
  injection Hm as Ht Hb. rewrite Ht, Hb. auto.
Qed.

Lemma own_task_bind {A B} tid (m : M W A) (k : A -> M W B) :
  own_task_only tid m -> (forall a, own_task_only tid (k a)) ->
  own_task_only tid (bind m k).
Proof.
  intros Hm Hk st. unfold bind. specialize (Hm st).
  destruct (m st) as [[a|e] st1]; simpl in *; [|exact Hm].
  destruct Hm as [Hb Ht]. destruct (Hk a st1) as [Hb' Ht'].
  split; [congruence|]. intros j Hj. rewrite Ht', Ht by exact Hj.
  reflexivity.
Qed.

Lemma own_task_try_except {A} tid (m : M W A) (h : PyExc -> M W A) :
  own_task_only tid m -> (forall e, own_task_only tid (h e)) ->
  own_task_only tid (try_except m h).
Proof.
  intros Hm Hh st. unfold try_except. specialize (Hm st).
  destruct (m st) as [[a|e] st1]; simpl in *; [exact Hm|].
  destruct Hm as [Hb Ht]. destruct (Hh e st1) as [Hb' Ht'].
  split; [congruence|]. intros j Hj. rewrite Ht', Ht by exact Hj.
  reflexivity.
Qed.

Lemma own_task_for_fold {A S} tid (l : list A) (acc : S)
    (body : A -> S -> M W S) :
  (forall x a, own_task_only tid (body x a)) ->
  own_task_only tid (for_fold l acc body).
Proof.
  intros Hbody. revert acc. induction l as [|x l IH]; intros acc; simpl.
  - apply own_task_world, world_only_ret.
  - apply own_task_bind; [apply Hbody|]. intros acc'. apply IH.
Qed.

Lemma own_task_modify tid f : own_task_only tid (modify_task tid f).
Proof.
  intros st. split; [reflexivity|]. intros k Hk. simpl.
  apply lookup_alter_ne. congruence.
Qed.

Lemma own_task_lift {A} tid (r : result A) : own_task_only tid (lift r).
Proof.
  apply own_task_world. destruct r; [apply world_only_ret|].
  apply world_only_raise.
Qed.

Lemma own_task_progress tid : own_task_only tid (task_progress tid).
Proof. intros st. split; reflexivity. Qed.

Lemma own_task_notify tid (on_progress : option (Callback (W := W))) p :
  own_task_only tid (notify on_progress tid p).
Proof.
  apply own_task_world. destruct on_progress as [cb|]; simpl;
    [apply world_only_call_r|apply world_only_ret].
Qed.

Ltac own_with known :=
  repeat first
    [ known
    | apply own_task_modify
    | apply own_task_lift
    | apply own_task_progress
    | apply own_task_notify
    | apply own_task_world, world_only_ret
    | apply own_task_world, world_only_raise
    | apply own_task_world, world_only_call
    | apply own_task_world, world_only_call_r
    | apply own_task_bind; [|intros ?]
    | apply own_task_try_except; [|intros ?] ].

Ltac own := own_with fail.

Lemma image_format_step_own src tid work suffix total quality effort web
    strip progressive aggressive fmt acc :
  own_task_only tid
    (image_format_step cfg src tid work suffix total quality effort web
       strip progressive aggressive fmt acc).
Proof.
  unfold image_format_step. destruct acc as [step outs].
  destruct (negb _); own.
Qed.

Lemma image_preset_step_own src tid base fmts fill_mode rgb total quality
    effort web strip progressive aggressive preset acc :
  own_task_only tid
    (image_preset_step cfg src tid base fmts fill_mode rgb total quality
       effort web strip progressive aggressive preset acc).
Proof.
  unfold image_preset_step. destruct preset as [[tw th] label]. own.
  apply own_task_for_fold. intros fmt acc'. apply image_format_step_own.
Qed.

Lemma video_format_step_own src tid web total qscale item outputs :
  own_task_only tid
    (video_format_step cfg src tid web total qscale item outputs).
Proof.
  unfold video_format_step. destruct item as [i fmt].
  destruct (negb _); own.
  destruct (video_cmd _ _ _ _ _) as [cmd|]; own.
  - destruct (negb _); own.
  - destruct (exc_class _); own.
Qed.

Lemma convert_image_own src fmts tid web sp fill_mode fill_color srp strip
    progressive aggressive crop :
  own_task_only tid
    (_convert_image cfg src fmts tid web sp fill_mode fill_color srp strip
       progressive aggressive crop).
Proof.
  unfold _convert_image. own.
  - destruct fill_color as [c|]; [case_bool_decide|]; own.
  - apply own_task_for_fold. intros preset acc.
    apply image_preset_step_own.
Qed.

Lemma convert_video_own src fmts tid web :
  own_task_only tid (_convert_video cfg src fmts tid web).
Proof.
  unfold _convert_video. own.
  apply own_task_for_fold. intros item outs. apply video_format_step_own.
Qed.

Lemma convert_body_own file_path media_type tid fmts web on_progress
    size_presets fill_mode fill_color srp strip progressive aggressive crop :
  own_task_only tid
    (convert_body cfg file_path media_type tid fmts web on_progress
       size_presets fill_mode fill_color srp strip progressive aggressive
       crop).
Proof.
  unfold convert_body.
  own_with ltac:(first [apply convert_image_own|apply convert_video_own]).
  - match goal with |- context [if ?b then _ else _] => destruct b end; own.
  - destruct media_type;
      own_with ltac:(first [apply convert_image_own|apply convert_video_own]).
Qed.

(** X19. [convert] changes no job and no task but the one it creates; what it
    creates is a task under an identifier of [uuid4]. *)
Theorem convert_own_task (file_path : PathLib.Path)
    (output_formats : list string) (web_optimized : bool)
    (on_progress : option Callback) (size_presets : option (list string))
    (fill_mode : string) (fill_color : option string)
    (size_reduction_percent : option Z)
    (strip_metadata progressive aggressive_compression : bool)
    (crop : option Crop) (st : State W) :
  let st' := (convert cfg file_path output_formats web_optimized on_progress
                size_presets fill_mode fill_color size_reduction_percent
                strip_metadata progressive aggressive_compression crop st).2
  in
  batches st' = batches st /\
  forall k, k <> (uuid4 (world st)).1 -> tasks st' !! k = tasks st !! k.
Proof.
  intros st'. unfold st'. clear st'.
  destruct (get_media_type file_path) as [media_type|] eqn:Hmt.
  2: { unfold convert. rewrite Hmt. split; reflexivity. }
  rewrite (convert_unfold cfg _ media_type) by exact Hmt.
  unfold started. destruct (uuid4 (world st)) as [tid w]. simpl fst.
  set (st0 := mkState _ _ w).
  assert (Hrest : own_task_only tid
            (try_except
               (convert_body cfg file_path media_type tid output_formats
                  web_optimized on_progress size_presets fill_mode fill_color
                  size_reduction_percent strip_metadata progressive
                  aggressive_compression crop)
               (convert_handler tid on_progress) ;;
             ret tid)).
  { own_with ltac:(apply convert_body_own). }
  destruct (Hrest st0) as [Hb Ht]. split; [exact Hb|].
  intros k Hk. rewrite Ht by exact Hk. unfold st0. simpl.
  apply lookup_insert_ne. congruence.
Qed.

End WithWorld.
End TaskFrame.
